(** * ts-live-server: the server of [src/server.ts], the transpiler call
    of [src/transpiler.ts] and the commands of [src/extension.ts], embedded
    as Rocq functions over an explicit state.

    Strings are [string] (sequences of bytes): a buffer is its bytes, and
    a JavaScript string is held as its UTF-8 encoding, in which the ASCII
    texts that the server looks for, cuts off and inserts sit at the same
    places as in the string. JS objects used as tables are [gmap], the
    mutable parts of the process (the [LiveServer] fields, the file
    system, the sockets, the console, the response object) are the fields
    of one state record threaded by a small state-and-exception monad. *)

From Stdlib Require Import Ascii.
From stdpp Require Import base option list strings gmap pretty.

(* ===================================================================== *)
(** ** JavaScript string primitives used by the server *)
(* ===================================================================== *)

Module Js.

(** [s.startsWith(p)] *)
Fixpoint startsWith (p s : string) : bool :=
  match p, s with
  | EmptyString, _ => true
  | String a p', String b s' => if decide (a = b) then startsWith p' s' else false
  | String _ _, EmptyString => false
  end.

(** the characters of [s] from index [n] on: [s.slice(n)] for [0 <= n] *)
Fixpoint drop (n : nat) (s : string) : string :=
  match n, s with
  | O, _ => s
  | S n', String _ s' => drop n' s'
  | S _, EmptyString => EmptyString
  end.

(** the first [n] characters of [s]: [s.slice(0, n)] for [0 <= n] *)
Fixpoint take (n : nat) (s : string) : string :=
  match n, s with
  | O, _ => EmptyString
  | S n', String c s' => String c (take n' s')
  | S _, EmptyString => EmptyString
  end.

(** [s.slice(0, -n)] *)
Definition slice_to_neg (n : nat) (s : string) : string :=
  take (String.length s - n) s.

(** [s.endsWith(p)] *)
Definition endsWith (p s : string) : bool :=
  bool_decide (drop (String.length s - String.length p) s = p).

(** [s.includes(p)] *)
Fixpoint includes (p s : string) : bool :=
  if startsWith p s then true
  else match s with
       | EmptyString => false
       | String _ s' => includes p s'
       end.

(** [s.replace(p, r)] for a string pattern [p] and a replacement [r]
    free of [$]: only the first occurrence is replaced. *)
Fixpoint replace (p r s : string) : string :=
  if startsWith p s then r +:+ drop (String.length p) s
  else match s with
       | EmptyString => EmptyString
       | String c s' => String c (replace p r s')
       end.

(** [s.replace(/\.js$/, r)]: the pattern is anchored at the end. *)
Definition replace_js_suffix (r s : string) : string :=
  if endsWith ".js" s then slice_to_neg 3 s +:+ r else s.

Definition lower_ascii (c : ascii) : ascii :=
  let n := nat_of_ascii c in
  if bool_decide (65 ≤ n ≤ 90) then ascii_of_nat (n + 32) else c.

(** [s.toLowerCase()] on the ASCII letters, which are the only ones that
    occur in the extensions the server compares against. *)
Fixpoint toLowerCase (s : string) : string :=
  match s with
  | EmptyString => EmptyString
  | String c s' => String (lower_ascii c) (toLowerCase s')
  end.

(** [s.split(sep)] for a one-character separator. *)
Fixpoint split (sep : ascii) (s : string) : list string :=
  match s with
  | EmptyString => [EmptyString]
  | String c s' =>
      if decide (c = sep) then EmptyString :: split sep s'
      else match split sep s' with
           | [] => [String c EmptyString]
           | w :: ws => String c w :: ws
           end
  end.

(** [l.join(sep)] *)
Fixpoint join (sep : string) (l : list string) : string :=
  match l with
  | [] => EmptyString
  | [w] => w
  | w :: ws => w +:+ sep +:+ join sep ws
  end.


End Js.

(* ===================================================================== *)
(** ** UTF-8: the text of a buffer *)
(* ===================================================================== *)

Module Utf8.

Definition between (lo hi : nat) (c : ascii) : bool :=
  (lo <=? nat_of_ascii c) && (nat_of_ascii c <=? hi).

Definition is_ascii (c : ascii) : bool := nat_of_ascii c <? 128.

(** A continuation byte, [80..BF]. *)
Definition continuation (c : ascii) : bool := between 128 191 c.

Inductive Width := Two | Three | Four.

(** For a byte that starts a sequence of several bytes: the length of
    the sequence and the range of its second byte. [C2..DF] start two
    bytes, [E0..EF] three, [F0..F4] four; after [E0] the second byte is
    [A0..BF], after [ED] it is [80..9F], after [F0] it is [90..BF], after
    [F4] it is [80..8F], and [80..BF] otherwise. The bytes [80..C1] and
    [F5..FF] start nothing. *)
Definition lead (c : ascii) : option (Width * nat * nat) :=
  if between 194 223 c then Some (Two, 128, 191)
  else if between 224 224 c then Some (Three, 160, 191)
  else if between 225 236 c then Some (Three, 128, 191)
  else if between 237 237 c then Some (Three, 128, 159)
  else if between 238 239 c then Some (Three, 128, 191)
  else if between 240 240 c then Some (Four, 144, 191)
  else if between 241 243 c then Some (Four, 128, 191)
  else if between 244 244 c then Some (Four, 128, 143)
  else None.

(** The bytes are the UTF-8 encoding of a text. *)
Fixpoint well_formed (bytes : string) : bool :=
  match bytes with
  | EmptyString => true
  | String b1 r1 =>
      if is_ascii b1 then well_formed r1
      else
        match lead b1, r1 with
        | Some (Two, lo, hi), String b2 r2 =>
            between lo hi b2 && well_formed r2
        | Some (Three, lo, hi), String b2 (String b3 r3) =>
            between lo hi b2 && continuation b3 && well_formed r3
        | Some (Four, lo, hi), String b2 (String b3 (String b4 r4)) =>
            between lo hi b2 && continuation b3 && continuation b4 && well_formed r4
        | _, _ => false
        end
  end.

(** The string of the bytes with the given values. *)
Definition bytes (values : list nat) : string :=
  foldr (λ n s, String (ascii_of_nat n) s) EmptyString values.

(** U+FFFD, the replacement character, in UTF-8. *)
Definition replacement : string :=
  String "239"%char (String "191"%char (String "189"%char EmptyString)).

(** The text that decoding gives, held as its encoding: the sequences
    that are well formed stay, and every longest run of bytes that starts
    a sequence without completing it, and every byte that starts none,
    becomes one U+FFFD; the byte at which a sequence breaks is read
    again as the start of the next. *)
Fixpoint decode (bytes : string) : string :=
  match bytes with
  | EmptyString => EmptyString
  | String b1 r1 =>
      if is_ascii b1 then String b1 (decode r1)
      else
        match lead b1 with
        | None => replacement +:+ decode r1
        | Some (width, lo, hi) =>
            match r1 with
            | EmptyString => replacement
            | String b2 r2 =>
                if negb (between lo hi b2) then replacement +:+ decode r1
                else
                  match width with
                  | Two => String b1 (String b2 (decode r2))
                  | Three | Four =>
                      match r2 with
                      | EmptyString => replacement
                      | String b3 r3 =>
                          if negb (continuation b3) then replacement +:+ decode r2
                          else
                            match width with
                            | Two | Three =>
                                String b1 (String b2 (String b3 (decode r3)))
                            | Four =>
                                match r3 with
                                | EmptyString => replacement
                                | String b4 r4 =>
                                    if negb (continuation b4)
                                    then replacement +:+ decode r3
                                    else String b1 (String b2 (String b3
                                           (String b4 (decode r4))))
                                end
                            end
                      end
                  end
            end
        end
  end.

End Utf8.

(** [Buffer]: [buf.toString("utf-8")] is the decoded text, and
    [Buffer.from(text, "utf-8")] the encoding of a text, which is what a
    string of this development holds already. *)
Module Buffer.

Definition toString (buf : string) : string := Utf8.decode buf.

Definition from (text : string) : string := text.

End Buffer.

(* ===================================================================== *)
(** ** Node's [path] module (POSIX flavour) *)
(* ===================================================================== *)

Module path.

(** One step of [normalizeString]: [stack] holds the segments kept so
    far, innermost first. *)
Definition norm_step (allowAboveRoot : bool) (stack : list string) (seg : string)
  : list string :=
  if decide (seg = "") then stack
  else if decide (seg = ".") then stack
  else if decide (seg = "..") then
    match stack with
    | top :: rest =>
        if decide (top = "..")
        then (if allowAboveRoot then ".." :: stack else stack)
        else rest
    | [] => if allowAboveRoot then [".."] else []
    end
  else seg :: stack.

Definition norm_segments (allowAboveRoot : bool) (segs : list string) : list string :=
  rev (fold_left (norm_step allowAboveRoot) segs []).

Definition isAbsolute (p : string) : bool := Js.startsWith "/" p.

(** [path.normalize] *)
Definition normalize (p : string) : string :=
  if decide (p = "") then "."
  else
    let abs := isAbsolute p in
    let trailing := Js.endsWith "/" p in
    let body := Js.join "/" (norm_segments (negb abs) (Js.split "/" p)) in
    if decide (body = "") then
      (if abs then "/" else if trailing then "./" else ".")
    else
      (if abs then "/" else "") +:+ body +:+ (if trailing then "/" else "").

(** [path.join(a, b)] *)
Definition join (a b : string) : string :=
  if decide (a = "") then
    (if decide (b = "") then "." else normalize b)
  else if decide (b = "") then normalize a
  else normalize (a +:+ "/" +:+ b).

(** the last path component, trailing separators ignored *)
Definition basename (p : string) : string :=
  default "" (head (filter (λ s, s ≠ "") (rev (Js.split "/" p)))).

(** the suffix of [s] that starts at its last dot *)
Fixpoint from_last_dot (s : string) : option string :=
  match s with
  | EmptyString => None
  | String c s' =>
      match from_last_dot s' with
      | Some e => Some e
      | None => if decide (c = "."%char) then Some s else None
      end
  end.

(** [path.extname] *)
Definition extname (p : string) : string :=
  let b := basename p in
  match from_last_dot b with
  | None => ""
  | Some e =>
      if decide (e = b) then ""
      else if decide (b = "..") then ""
      else e
  end.

End path.

(* ===================================================================== *)
(** ** The objects the server works on *)
(* ===================================================================== *)

(** A JavaScript [Error]: [`${e}`] prints its name and message; system
    errors carry a [code]. *)
Record JsError := mkError {
  err_name : string;
  err_code : option string;
  err_message : string;
}.

Definition Error (msg : string) : JsError := mkError "Error" None msg.
Definition SystemError (code msg : string) : JsError :=
  mkError "Error" (Some code) (code +:+ ": " +:+ msg).

(** [String(e)] *)
Definition error_toString (e : JsError) : string :=
  err_name e +:+ ": " +:+ err_message e.

(** What a call of the platform or of a library gives back: a value, or
    the error it throws (for a promise: the error it rejects with). *)
Inductive Result (A : Type) :=
  | Ok (a : A)
  | Failed (e : JsError).
Global Arguments Ok {A} a.
Global Arguments Failed {A} e.

(* ===================================================================== *)
(** ** [decodeURIComponent] *)
(* ===================================================================== *)

Module URI.

Definition hex_digit (c : ascii) : option nat :=
  let n := nat_of_ascii c in
  if Utf8.between 48 57 c then Some (n - 48)
  else if Utf8.between 65 70 c then Some (n - 55)
  else if Utf8.between 97 102 c then Some (n - 87)
  else None.

(** A character that stands for itself, or the byte of an escape [%XX]. *)
Inductive Token :=
  | Lit (c : ascii)
  | Esc (b : ascii).

(** The escapes of a string: a [%] needs two hexadecimal digits after
    it. *)
Fixpoint tokens (s : string) : option (list Token) :=
  match s with
  | EmptyString => Some []
  | String c r =>
      if decide (c = "%"%char) then
        match r with
        | String h (String l r') =>
            match hex_digit h, hex_digit l with
            | Some x, Some y => cons (Esc (ascii_of_nat (16 * x + y))) <$> tokens r'
            | _, _ => None
            end
        | _ => None
        end
      else cons (Lit c) <$> tokens r
  end.

(** The decoded text: an escape below [80] is its character; an escape
    that starts a sequence of several bytes needs the rest of the sequence
    in escapes right after it, and the sequence has to be well formed. *)
Fixpoint decode (ts : list Token) : option string :=
  match ts with
  | [] => Some EmptyString
  | Lit c :: r => String c <$> decode r
  | Esc b1 :: r1 =>
      if Utf8.is_ascii b1 then String b1 <$> decode r1
      else
        match Utf8.lead b1, r1 with
        | Some (Utf8.Two, lo, hi), Esc b2 :: r2 =>
            if Utf8.between lo hi b2
            then (λ d, String b1 (String b2 d)) <$> decode r2
            else None
        | Some (Utf8.Three, lo, hi), Esc b2 :: Esc b3 :: r3 =>
            if Utf8.between lo hi b2 && Utf8.continuation b3
            then (λ d, String b1 (String b2 (String b3 d))) <$> decode r3
            else None
        | Some (Utf8.Four, lo, hi), Esc b2 :: Esc b3 :: Esc b4 :: r4 =>
            if Utf8.between lo hi b2 && Utf8.continuation b3 && Utf8.continuation b4
            then (λ d, String b1 (String b2 (String b3 (String b4 d)))) <$> decode r4
            else None
        | _, _ => None
        end
  end.

Definition URIError : JsError := mkError "URIError" None "URI malformed".

(** [decodeURIComponent(s)] *)
Definition decodeURIComponent (s : string) : Result string :=
  match tokens s ≫= decode with
  | Some text => Ok text
  | None => Failed URIError
  end.

End URI.

(** An entry of the served tree: a directory, or a regular file with its
    bytes; [readable = false] is a file that exists (so [stat] and
    [access] succeed) and whose [readFile] fails. *)
Inductive node :=
  | Dir
  | File (readable : bool) (data : string).

Record Stats := { isDirectory : bool }.

(** [ws] sockets: the four ready states, and the messages handed to
    [send] so far. *)
Inductive ReadyState := CONNECTING | OPEN | CLOSING | CLOSED.

Global Instance ReadyState_eq_dec : EqDecision ReadyState.
Proof. solve_decision. Defined.

Record WebSocket := mkWebSocket {
  readyState : ReadyState;
  sent : list string;
}.

Record HttpServer := { listening : bool }.

Inductive WebSocketServer := AttachedWss.

Inductive HeaderValue :=
  | HStr (s : string)
  | HNum (n : nat).

(** [http.ServerResponse]: what [writeHead] and [end] have put in it. *)
Record ServerResponse := mkResponse {
  statusCode : option nat;
  headers : list (string * HeaderValue);
  body : option string;
}.

Definition fresh_response : ServerResponse := mkResponse None [] None.

(** The fields of [class LiveServer]. [clients] is the [Set<WebSocket>] in
    insertion order, sockets being named by their index in the socket
    table; [port] is a port number that [listen] accepts. *)
Record LiveServer := mkLiveServer {
  server : option HttpServer;
  wss : option WebSocketServer;
  clients : list nat;
  running : bool;
  rootDir : string;
  port : N;
  liveReload : bool;
}.

(** [new LiveServer(rootDir, port, liveReload)] *)
Definition new_LiveServer (root : string) (p : N) (lr : bool) : LiveServer :=
  mkLiveServer None None [] false root p lr.

(** Everything a method of the server can read or change. [busy_ports]
    maps each TCP port on which [listen] fails to the errno it fails
    with: [EADDRINUSE] for a port that is bound already, [EACCES] for one
    the process may not bind. *)
Record State := mkState {
  this : LiveServer;
  fs : gmap string node;
  busy_ports : gmap N string;
  sockets : gmap nat WebSocket;
  console : list string;
  res : ServerResponse;
}.

Definition with_this (f : LiveServer → LiveServer) (σ : State) : State :=
  mkState (f (this σ)) (fs σ) (busy_ports σ) (sockets σ) (console σ) (res σ).
Definition with_busy_ports (f : gmap N string → gmap N string) (σ : State) : State :=
  mkState (this σ) (fs σ) (f (busy_ports σ)) (sockets σ) (console σ) (res σ).
Definition with_sockets (f : gmap nat WebSocket → gmap nat WebSocket) (σ : State) : State :=
  mkState (this σ) (fs σ) (busy_ports σ) (f (sockets σ)) (console σ) (res σ).
Definition with_console (f : list string → list string) (σ : State) : State :=
  mkState (this σ) (fs σ) (busy_ports σ) (sockets σ) (f (console σ)) (res σ).
Definition with_res (f : ServerResponse → ServerResponse) (σ : State) : State :=
  mkState (this σ) (fs σ) (busy_ports σ) (sockets σ) (console σ) (f (res σ)).

Definition set_server (v : option HttpServer) (s : LiveServer) : LiveServer :=
  mkLiveServer v (wss s) (clients s) (running s) (rootDir s) (port s) (liveReload s).
Definition set_wss (v : option WebSocketServer) (s : LiveServer) : LiveServer :=
  mkLiveServer (server s) v (clients s) (running s) (rootDir s) (port s) (liveReload s).
Definition set_clients (v : list nat) (s : LiveServer) : LiveServer :=
  mkLiveServer (server s) (wss s) v (running s) (rootDir s) (port s) (liveReload s).
Definition set_running (v : bool) (s : LiveServer) : LiveServer :=
  mkLiveServer (server s) (wss s) (clients s) v (rootDir s) (port s) (liveReload s).

(* ===================================================================== *)
(** ** The monad of the methods: state, and exceptions for [throw],
       [try]/[catch] and rejected promises *)
(* ===================================================================== *)

(** How a method ends. [Returned]: it returns (its promise is fulfilled).
    [Thrown]: it throws (its promise is rejected). [Uncaught]: an error was
    thrown out of an event listener that Node was running. No [catch] of
    the program receives it (it is the uncaught exception of the process,
    which the host of an extension logs), the listeners that were
    registered after the throwing one do not run, and the promise that
    those listeners were to settle stays pending: nothing that follows an
    [await] of it runs. *)
Inductive Outcome (A : Type) :=
  | Returned (a : A)
  | Thrown (e : JsError)
  | Uncaught (e : JsError).
Global Arguments Returned {A} a.
Global Arguments Thrown {A} e.
Global Arguments Uncaught {A} e.

Definition M (A : Type) : Type := State → Outcome A * State.

Global Instance M_ret : MRet M := λ A a σ, (Returned a, σ).
Global Instance M_bind : MBind M := λ A B f m σ,
  match m σ with
  | (Returned a, σ') => f a σ'
  | (Thrown e, σ') => (Thrown e, σ')
  | (Uncaught e, σ') => (Uncaught e, σ')
  end.

Definition throw {A} (e : JsError) : M A := λ σ, (Thrown e, σ).

(** An error thrown out of a listener back into Node. *)
Definition uncaught {A} (e : JsError) : M A := λ σ, (Uncaught e, σ).

(** [try { m } catch (e) { h e }] *)
Definition try_catch {A} (m : M A) (h : JsError → M A) : M A := λ σ,
  match m σ with
  | (Returned a, σ') => (Returned a, σ')
  | (Thrown e, σ') => h e σ'
  | (Uncaught e, σ') => (Uncaught e, σ')
  end.

Definition gets {A} (f : State → A) : M A := λ σ, (Returned (f σ), σ).
Definition modify (f : State → State) : M unit := λ σ, (Returned (), f σ).

Definition pass : M unit := mret ().

(** [for (const x of l) { f x }] *)
Fixpoint for_of {A} (l : list A) (f : A → M unit) : M unit :=
  match l with
  | [] => mret ()
  | x :: l' => f x ;; for_of l' f
  end.

(* ===================================================================== *)
(** ** Node and [ws] primitives *)
(* ===================================================================== *)

Definition quoted (p : string) : string := "'" +:+ p +:+ "'".

(** The character of code 0. *)
Definition nul : string := String "000"%char EmptyString.

(** What a path names: a path with a trailing separator names a
    directory or nothing, and a path with a null byte in it is refused
    before the file system is asked. *)
Definition fs_lookup (syscall p : string) (tree : gmap string node)
  : Result node :=
  let enoent := SystemError "ENOENT"
    ("no such file or directory, " +:+ syscall +:+ " " +:+ quoted p) in
  if Js.includes nul p then
    Failed (mkError "TypeError" (Some "ERR_INVALID_ARG_VALUE")
              "The argument 'path' must be a string, Uint8Array, or URL without null bytes.")
  else if Js.endsWith "/" p && negb (bool_decide (p = "/")) then
    match tree !! Js.slice_to_neg 1 p with
    | Some Dir => Ok Dir
    | Some (File _ _) =>
        Failed (SystemError "ENOTDIR"
          ("not a directory, " +:+ syscall +:+ " " +:+ quoted p))
    | None => Failed enoent
    end
  else
    match tree !! p with
    | Some n => Ok n
    | None => Failed enoent
    end.

(** The call made by a method: its value is returned, its error thrown. *)
Definition lift_result {A} (r : Result A) : M A := λ σ,
  match r with
  | Ok a => (Returned a, σ)
  | Failed e => (Thrown e, σ)
  end.

(** [fs.promises.stat] *)
Definition fs_stat (p : string) : M Stats :=
  tree ← gets fs;
  n ← lift_result (fs_lookup "stat" p tree);
  mret {| isDirectory := match n with Dir => true | File _ _ => false end |}.

(** [fs.promises.access], with its default mode: existence only *)
Definition fs_access (p : string) : M unit :=
  tree ← gets fs;
  _ ← lift_result (fs_lookup "access" p tree);
  mret ().

(** [fs.promises.readFile] *)
Definition fs_readFile (p : string) : M string :=
  tree ← gets fs;
  n ← lift_result (fs_lookup "open" p tree);
  match n with
  | Dir => throw (SystemError "EISDIR" "illegal operation on a directory, read")
  | File false _ => throw (SystemError "EACCES" ("permission denied, open " +:+ quoted p))
  | File true data => mret data
  end.

Definition console_print (line : string) : M unit :=
  modify (with_console (λ out, out ++ [line])).

(** [res.writeHead(status, headers)] *)
Definition res_writeHead (status : nat) (hs : list (string * HeaderValue)) : M unit :=
  modify (with_res (λ r, mkResponse (Some status) hs (body r))).

(** [res.end(data)] *)
Definition res_end (data : string) : M unit :=
  modify (with_res (λ r, mkResponse (statusCode r) (headers r) (Some data))).

Definition socket_state (c : nat) (σ : State) : ReadyState :=
  match sockets σ !! c with
  | Some w => readyState w
  | None => CLOSED
  end.

Definition push_message (data : string) (w : WebSocket) : WebSocket :=
  mkWebSocket (readyState w) (sent w ++ [data]).

(** [client.send(data)] of [ws]: an open socket takes the message, a
    connecting one throws, a closing or closed one drops it. *)
Definition ws_send (c : nat) (data : string) : M unit :=
  st ← gets (socket_state c);
  match st with
  | OPEN => modify (with_sockets (alter (push_message data) c))
  | CONNECTING => throw (Error "WebSocket is not open: readyState 0 (CONNECTING)")
  | CLOSING | CLOSED => mret ()
  end.

Definition begin_close (w : WebSocket) : WebSocket :=
  match readyState w with
  | OPEN | CONNECTING => mkWebSocket CLOSING (sent w)
  | CLOSING | CLOSED => w
  end.

(** [client.close()] of [ws]: an open socket starts its closing
    handshake; closing and closed sockets are left alone. *)
Definition ws_close (c : nat) : M unit :=
  modify (with_sockets (alter begin_close c)).

Definition end_close (w : WebSocket) : WebSocket :=
  match readyState w with
  | CLOSING => mkWebSocket CLOSED (sent w)
  | _ => w
  end.

(** The error of a [listen] that fails with the errno [code]; its
    message stands for the one of Node, which names [listen], the errno,
    and then the cause and the address. *)
Definition listen_error (code : string) (p : N) : JsError :=
  mkError "Error" (Some code) ("listen " +:+ code +:+ ": port " +:+ pretty p).

(** [server.listen(port, cb)]: the outcome is the [error] event with
    its errno, or the [listening] event. *)
Definition http_listen (p : N) : M (option JsError) :=
  busy ← gets busy_ports;
  match busy !! p with
  | Some code => mret (Some (listen_error code p))
  | None =>
      modify (with_busy_ports (<[p := "EADDRINUSE"]>)) ;;
      modify (with_this (set_server (Some {| listening := true |}))) ;;
      mret None
  end.

(** [server.close(cb)]: a server that is not listening hands [cb] an
    error; a listening one stops listening, and [cb] runs once every
    connection of the server has ended, that is, once the sockets that were
    closing are closed. *)
Definition http_close (srv : HttpServer) (p : N) : M (option JsError) :=
  if listening srv then
    modify (with_busy_ports (delete p)) ;;
    modify (with_sockets (fmap end_close)) ;;
    mret None
  else
    mret (Some (mkError "Error" (Some "ERR_SERVER_NOT_RUNNING") "Server is not running.")).

(* ===================================================================== *)
(** ** [src/transpiler.ts] *)
(* ===================================================================== *)

Inductive Loader := LoaderTs | LoaderTsx | LoaderJsx | LoaderJs.

Record TransformOptions := mkOptions {
  loader : Loader;
  sourcefile : string;
  sourcemap : string;
  format : string;
  target : string;
  jsx : string;
  jsxFactory : string;
  jsxFragment : string;
  minify : bool;
}.

Record TransformResult := mkResult {
  code : string;
  warnings : list string;
}.

(** The external transpiler, a black box: [esbuild.transform(text, options)]
    yields a result or throws. *)
Class Esbuild := { esbuild_transform : string → TransformOptions → Result TransformResult }.

(* ===================================================================== *)
(** ** [src/server.ts]: tables and text constants *)
(* ===================================================================== *)

Definition nl : string := String "010"%char EmptyString.
Definition dquote : string := String "034"%char EmptyString.

Definition MIME_TYPES : gmap string string :=
  list_to_map
    [ (".html", "text/html");
      (".css", "text/css");
      (".js", "application/javascript");
      (".mjs", "application/javascript");
      (".ts", "application/javascript");
      (".tsx", "application/javascript");
      (".jsx", "application/javascript");
      (".json", "application/json");
      (".png", "image/png");
      (".jpg", "image/jpeg");
      (".jpeg", "image/jpeg");
      (".gif", "image/gif");
      (".svg", "image/svg+xml");
      (".ico", "image/x-icon");
      (".webp", "image/webp");
      (".woff", "font/woff");
      (".woff2", "font/woff2");
      (".ttf", "font/ttf");
      (".eot", "application/vnd.ms-fontobject");
      (".otf", "font/otf");
      (".mp4", "video/mp4");
      (".webm", "video/webm");
      (".mp3", "audio/mpeg");
      (".wav", "audio/wav");
      (".pdf", "application/pdf");
      (".txt", "text/plain");
      (".xml", "application/xml") ].

Definition TRANSPILE_EXTENSIONS : list string := [".ts"; ".tsx"; ".jsx"].

(** The lines of the template literal [LIVE_RELOAD_SCRIPT]; it starts and
    ends with a line break. *)
Definition LIVE_RELOAD_SCRIPT_lines : list string :=
  [ "";
    "<script>";
    "(function() {";
    "    const protocol = window.location.protocol === 'https:' ? 'wss:' : 'ws:';";
    "    const ws = new WebSocket(protocol + '//' + window.location.host + '/__ts-live-server-ws');";
    "    ";
    "    ws.onmessage = function(event) {";
    "        if (event.data === 'reload') {";
    "            window.location.reload();";
    "        }";
    "    };";
    "    ";
    "    ws.onclose = function() {";
    "        console.log('TS Live Server: Connection lost. Attempting to reconnect...');";
    "        setTimeout(function() {";
    "            window.location.reload();";
    "        }, 1000);";
    "    };";
    "})();";
    "</script>";
    "" ].

Definition LIVE_RELOAD_SCRIPT : string :=
  Eval vm_compute in Js.join nl LIVE_RELOAD_SCRIPT_lines.

Definition WS_ENDPOINT : string := "/__ts-live-server-ws".

(** The 404 page of [send404], before and after the interpolated path. *)
Definition page404_before_lines : list string :=
  [ "";
    "            <!DOCTYPE html>";
    "            <html>";
    "            <head>";
    "                <title>404 - Not Found</title>";
    "                <style>";
    "                    body { ";
    "                        font-family: -apple-system, BlinkMacSystemFont, 'Segoe UI', Roboto, sans-serif;";
    "                        display: flex;";
    "                        justify-content: center;";
    "                        align-items: center;";
    "                        height: 100vh;";
    "                        margin: 0;";
    "                        background: #1e1e1e;";
    "                        color: #fff;";
    "                    }";
    "                    .container { text-align: center; }";
    "                    h1 { font-size: 4em; margin: 0; color: #007acc; }";
    "                    p { color: #888; }";
    "                </style>";
    "            </head>";
    "            <body>";
    Js.join dquote ["                <div class="; "container"; ">"];
    "                    <h1>404</h1>";
    "                    <p>File not found: " ].

Definition page404_after_lines : list string :=
  [ "</p>";
    "                </div>";
    "            </body>";
    "            </html>";
    "        " ].

Definition page404_before : string := Eval vm_compute in Js.join nl page404_before_lines.
Definition page404_after : string := Eval vm_compute in Js.join nl page404_after_lines.

(* ===================================================================== *)
(** ** [src/transpiler.ts] and [src/server.ts]: the methods *)
(* ===================================================================== *)

(** The [switch] of [transpileFile] on the extension. *)
Definition loader_of (ext : string) : Loader :=
  if decide (ext = ".ts") then LoaderTs
  else if decide (ext = ".tsx") then LoaderTsx
  else if decide (ext = ".jsx") then LoaderJsx
  else LoaderJs.

(** The options [transpileFile] hands to [esbuild.transform]. *)
Definition transform_options (filePath : string) : TransformOptions :=
  let ext := Js.toLowerCase (path.extname filePath) in
  mkOptions (loader_of ext) filePath
    "inline" "esm" "es2020" "transform" "React.createElement" "React.Fragment" false.

Section Methods.
Context `{Esbuild}.

(** [transpileFile(filePath)]; [readFile(filePath, "utf-8")] gives the
    text of the file's bytes. *)
Definition transpileFile (filePath : string) : M string :=
  bytes ← fs_readFile filePath;
  let content := Buffer.toString bytes in
  try_catch
    (result ← lift_result (esbuild_transform content (transform_options filePath));
     (if decide (0 < length (warnings result))
      then console_print ("Warnings for " +:+ filePath +:+ ": "
                          +:+ Js.join "," (warnings result))
      else pass) ;;
     mret (code result))
    (λ error,
       let errorMessage := err_message error in
       throw (Error ("Failed to transpile " +:+ filePath +:+ ": " +:+ errorMessage))).

(** [needsTranspilation(filePath)] *)
Definition needsTranspilation (filePath : string) : bool :=
  bool_decide (Js.toLowerCase (path.extname filePath) ∈ [".ts"; ".tsx"; ".jsx"]).

(** [isRunning()] *)
Definition isRunning : M bool := gets (λ σ, running (this σ)).

(** The [connection] handler that [start] installs on the socket
    server: [this.clients.add(ws)]. *)
Definition on_connection (ws : nat) : M unit :=
  modify (with_this (λ s,
    if bool_decide (ws ∈ clients s) then s
    else set_clients (clients s ++ [ws]) s)).

(** The [close] handler of a client: [this.clients.delete(ws)]. *)
Definition on_close (ws : nat) : M unit :=
  modify (with_this (λ s, set_clients (filter (λ c, c ≠ ws) (clients s)) s)).

(** The [error] listener that [new WebSocketServer({ server })] puts on
    the HTTP server: [ws] hands the error on to the socket server
    ([this.emit.bind(this, "error")]). The program registers no [error]
    listener on the socket server, and an [error] event without a
    listener throws its error. *)
Definition wss_forward_error (err : JsError) : M unit := uncaught err.

(** [start()]; a rejected promise is a thrown error. When [listen]
    fails, the [error] listeners of the server run in the order in which
    they were registered: with live reload, the one of [ws] first, and
    then the one of lines 106-112. *)
Definition start : M unit :=
  modify (with_this (set_server (Some {| listening := false |}))) ;;
  lr ← gets (λ σ, liveReload (this σ));
  (if lr : bool then modify (with_this (set_wss (Some AttachedWss))) else pass) ;;
  p ← gets (λ σ, port (this σ));
  root ← gets (λ σ, rootDir (this σ));
  failure ← http_listen p;
  match failure with
  | Some err =>
      (if lr : bool then wss_forward_error err else pass) ;;
      if decide (err_code err = Some "EADDRINUSE")
      then throw (Error ("Port " +:+ pretty p +:+ " is already in use"))
      else throw err
  | None =>
      modify (with_this (set_running true)) ;;
      console_print ("TS Live Server running at http://localhost:" +:+ pretty p) ;;
      console_print ("Serving files from: " +:+ root) ;;
      mret ()
  end.

(** [stop()] *)
Definition stop : M unit :=
  cs ← gets (λ σ, clients (this σ));
  for_of cs ws_close ;;
  modify (with_this (set_clients [])) ;;
  w ← gets (λ σ, wss (this σ));
  (if w : option WebSocketServer is Some _ then modify (with_this (set_wss None)) else pass) ;;
  srv ← gets (λ σ, server (this σ));
  match srv with
  | Some h =>
      p ← gets (λ σ, port (this σ));
      err ← http_close h p;
      match err with
      | Some e => throw e
      | None =>
          modify (with_this (set_running false)) ;;
          modify (with_this (set_server None)) ;;
          mret ()
      end
  | None => mret ()
  end.

(** [notifyClients()] *)
Definition notifyClients : M unit :=
  cs ← gets (λ σ, clients (this σ));
  for_of cs (λ client,
    st ← gets (socket_state client);
    if decide (st = OPEN) then ws_send client "reload" else pass).

(** The [for] loop of [resolveFile]: the first alternative that can be
    accessed is returned. *)
Fixpoint resolveFile_loop (basePath : string) (alternatives : list string)
  : M (option string) :=
  match alternatives with
  | [] => mret None
  | altExt :: rest =>
      let altPath := basePath +:+ altExt in
      try_catch (fs_access altPath ;; mret (Some altPath))
                (λ _, resolveFile_loop basePath rest)
  end.

(** [resolveFile(filePath)] *)
Definition resolveFile (filePath : string) : M (option string) :=
  let ext := path.extname filePath in
  if decide (ext = ".js") then
    let alternatives := [".ts"; ".tsx"; ".jsx"] in
    let basePath := Js.slice_to_neg 3 filePath in
    resolveFile_loop basePath alternatives
  else mret None.

(** [serveTranspiledFile(filePath, res)] *)
Definition serveTranspiledFile (filePath : string) : M unit :=
  try_catch
    (code ← transpileFile filePath;
     res_writeHead 200
       [("Content-Type", HStr "application/javascript");
        ("Cache-Control", HStr "no-cache")] ;;
     res_end code)
    (λ error,
       console_print ("Transpilation error for " +:+ filePath +:+ ": "
                      +:+ error_toString error) ;;
       res_writeHead 500 [("Content-Type", HStr "text/plain")] ;;
       res_end ("Transpilation error: " +:+ error_toString error)).

(** [serveStaticFile(filePath, ext, res)] *)
Definition serveStaticFile (filePath ext : string) : M unit :=
  let mimeType := default "application/octet-stream" (MIME_TYPES !! ext) in
  content ← fs_readFile filePath;
  lr ← gets (λ σ, liveReload (this σ));
  let content :=
    if bool_decide (ext = ".html") && (lr : bool) then
      let html := Buffer.toString content in
      let html :=
        if Js.includes "</body>" html
        then Js.replace "</body>" (LIVE_RELOAD_SCRIPT +:+ "</body>") html
        else html +:+ LIVE_RELOAD_SCRIPT in
      Buffer.from html
    else content in
  res_writeHead 200
    [("Content-Type", HStr mimeType);
     ("Cache-Control", HStr "no-cache");
     ("Content-Length", HNum (String.length content))] ;;
  res_end content.

(** [send404(res, pathname)] *)
Definition send404 (pathname : string) : M unit :=
  res_writeHead 404 [("Content-Type", HStr "text/html")] ;;
  res_end (page404_before +:+ pathname +:+ page404_after).

(** [handleRequest], lines 172-185: from the joined path to the path
    that is served. *)
Definition locate (filePath : string) : M string :=
  try_catch
    (stats ← fs_stat filePath;
     if isDirectory stats
     then mret (path.join filePath "index.html")
     else mret filePath)
    (λ _,
       resolved ← resolveFile filePath;
       match resolved with
       | Some r => mret r
       | None => mret filePath
       end).

(** [handleRequest], lines 187-224: the response for the located path. *)
Definition respond (pathname filePath : string) : M unit :=
  let ext := Js.toLowerCase (path.extname filePath) in
  try_catch
    (fs_access filePath ;;
     if bool_decide (ext ∈ TRANSPILE_EXTENSIONS) then
       serveTranspiledFile filePath
     else
       answered ←
         (if decide (ext = ".js") then
            let tsPath := Js.replace_js_suffix ".ts" filePath in
            let tsxPath := Js.replace_js_suffix ".tsx" filePath in
            try_catch
              (fs_access tsPath ;; serveTranspiledFile tsPath ;; mret true)
              (λ _,
                 try_catch
                   (fs_access tsxPath ;; serveTranspiledFile tsxPath ;; mret true)
                   (λ _, mret false))
          else mret false);
       if answered : bool then pass else serveStaticFile filePath ext)
    (λ _, send404 pathname).

(** [x || "/"] *)
Definition request_pathname (url_pathname : string) : string :=
  if decide (url_pathname = "") then "/" else url_pathname.

(** [handleRequest], lines 164-224: what is done with the decoded
    pathname. *)
Definition handle_pathname (pathname : string) : M unit :=
  if decide (pathname = WS_ENDPOINT) then pass
  else
    root ← gets (λ σ, rootDir (this σ));
    filePath ← locate (path.join root pathname);
    respond pathname filePath.

(** [handleRequest(req, res)]. [url_pathname] is [parsedUrl.pathname],
    the path component of the request URL as it was sent, empty when the
    URL has none; the response object is the [res] field of the state.
    The decoding is outside every [try]. *)
Definition handleRequest (url_pathname : string) : M unit :=
  pathname ← lift_result (URI.decodeURIComponent (request_pathname url_pathname));
  handle_pathname pathname.

(** An upgrade request that the socket server accepts: [ws] hands over
    a new open socket and emits [connection], whose handler (lines 98-103)
    puts the socket into the set. *)
Definition upgrade_accepted (ws : nat) : M unit :=
  modify (with_sockets (<[ws := mkWebSocket OPEN []]>)) ;;
  on_connection ws.

End Methods.

(** One request, with the path of its URL as it was sent: a fresh
    response object, then the handler. *)
Definition request `{Esbuild} (url_pathname : string) (σ : State)
  : Outcome unit * State :=
  handleRequest url_pathname (with_res (λ _, fresh_response) σ).

(** Serving a request whose path has been decoded to [pathname] (the
    empty one standing for [/]): a fresh response object, then the
    handler from the decoded pathname on. *)
Definition serve `{Esbuild} (pathname : string) (σ : State)
  : Outcome unit * State :=
  handle_pathname (request_pathname pathname) (with_res (λ _, fresh_response) σ).

(* ===================================================================== *)
(** ** Notions used to state the properties *)
(* ===================================================================== *)

(** What [p] names on disk, if anything. *)
Definition disk_entry (tree : gmap string node) (p : string) : option node :=
  match fs_lookup "stat" p tree with
  | Ok n => Some n
  | Failed _ => None
  end.

(** The first of [candidates] that exists on disk. *)
Definition first_existing (tree : gmap string node) (candidates : list string)
  : option string :=
  head (filter (λ q, is_Some (disk_entry tree q)) candidates).

(** The path [handleRequest] serves for a joined path [filePath]. *)
Definition located (tree : gmap string node) (filePath : string) : string :=
  match disk_entry tree filePath with
  | Some Dir => path.join filePath "index.html"
  | Some (File _ _) => filePath
  | None =>
      if decide (path.extname filePath = ".js") then
        let basePath := Js.slice_to_neg 3 filePath in
        default filePath
          (first_existing tree ((λ e, basePath +:+ e) <$> [".ts"; ".tsx"; ".jsx"]))
      else filePath
  end.

(** [q] is answered by [serveStaticFile]: its extension is not a
    transpiled one, and if it is [.js] there is no [.ts] or [.tsx] file
    next to it. *)
Definition served_statically (tree : gmap string node) (q : string) : Prop :=
  let ext := Js.toLowerCase (path.extname q) in
  (ext ∉ TRANSPILE_EXTENSIONS) ∧
  (ext = ".js" →
   disk_entry tree (Js.replace_js_suffix ".ts" q) = None ∧
   disk_entry tree (Js.replace_js_suffix ".tsx" q) = None).

Global Instance served_statically_dec tree q : Decision (served_statically tree q).
Proof. unfold served_statically. apply _. Defined.

(** The responses of the server. *)
Definition response_javascript (code : string) : ServerResponse :=
  mkResponse (Some 200)
    [("Content-Type", HStr "application/javascript");
     ("Cache-Control", HStr "no-cache")]
    (Some code).

Definition response_diagnostic (e : JsError) : ServerResponse :=
  mkResponse (Some 500) [("Content-Type", HStr "text/plain")]
    (Some ("Transpilation error: " +:+ error_toString e)).

Definition response_static (mimeType content : string) : ServerResponse :=
  mkResponse (Some 200)
    [("Content-Type", HStr mimeType);
     ("Cache-Control", HStr "no-cache");
     ("Content-Length", HNum (String.length content))]
    (Some content).

Definition response_404 (pathname : string) : ServerResponse :=
  mkResponse (Some 404) [("Content-Type", HStr "text/html")]
    (Some (page404_before +:+ pathname +:+ page404_after)).

(** The stacks [normalizeString] builds (innermost component first): no
    empty component, no [.], no separator inside a component, and [..]
    only at the bottom, for a relative path. *)
Fixpoint canonical (allowAboveRoot : bool) (stack : list string) : Prop :=
  match stack with
  | [] => True
  | x :: rest =>
      x ≠ "" ∧ x ≠ "." ∧ Js.split "/" x = [x] ∧
      (x = ".." → allowAboveRoot = true ∧ (rest = [] ∨ head rest = Some "..")) ∧
      canonical allowAboveRoot rest
  end.

(** The last piece of a path when it is cut at the separators. *)
Definition last_piece (p : string) : string :=
  default "" (last (Js.split "/" p)).

(** The components of a path once [.], [..] and empty components are
    resolved. *)
Definition segments (p : string) : list string :=
  path.norm_segments (negb (path.isAbsolute p)) (Js.split "/" p).

(** [q] lies in the tree below [root]. *)
Definition inside (root q : string) : Prop :=
  path.isAbsolute q = path.isAbsolute root ∧ segments root `prefix_of` segments q.

Global Instance inside_dec root q : Decision (inside root q).
Proof. unfold inside. apply _. Defined.

(** The messages handed to socket [c] so far. *)
Definition sent_to (c : nat) (σ : State) : list string :=
  default [] (sent <$> sockets σ !! c).

(** The number of messages handed to all sockets so far. *)
Definition total_sent (table : gmap nat WebSocket) : nat :=
  map_fold (λ _ w n, length (sent w) + n) 0 table.

(** The open connections among [cs]. *)
Definition open_among (σ : State) (cs : list nat) : list nat :=
  filter (λ c, socket_state c σ = OPEN) cs.

(** Two states look the same to a request handler. *)
Definition agree (σ τ : State) : Prop :=
  this σ = this τ ∧ fs σ = fs τ ∧ res σ = res τ.

(** A computation that serves a request: it leaves the server object, the
    tree, the ports and the sockets alone, and what it returns and answers
    depends on the server object, the tree and the response object only. *)
Definition request_local {A} (m : M A) : Prop :=
  (∀ σ, this (m σ).2 = this σ ∧ fs (m σ).2 = fs σ ∧
        busy_ports (m σ).2 = busy_ports σ ∧ sockets (m σ).2 = sockets σ) ∧
  (∀ σ τ, agree σ τ → (m σ).1 = (m τ).1 ∧ agree (m σ).2 (m τ).2).

Definition header (name : string) (r : ServerResponse) : option HeaderValue :=
  snd <$> head (filter (λ h, h.1 = name) (headers r)).

(* ===================================================================== *)
(** ** A sample tree and a sample transpiler *)
(* ===================================================================== *)

Definition loader_name (l : Loader) : string :=
  match l with
  | LoaderTs => "ts"
  | LoaderTsx => "tsx"
  | LoaderJsx => "jsx"
  | LoaderJs => "js"
  end.

(** A stand-in for the transpiler: it rejects a text that contains
    [syntax error] and otherwise tags the text with the loader. *)
Definition demo_esbuild : Esbuild :=
  {| esbuild_transform content opts :=
       if Js.includes "syntax error" content
       then Failed (Error "Transform failed with 1 error")
       else Ok (mkResult ("/* " +:+ loader_name (loader opts) +:+ " */ " +:+ content) []) |}.

Definition demo_tree : gmap string node :=
  list_to_map
    [ ("/srv", Dir);
      ("/srv/secret.txt", File true "top secret");
      ("/srv/www", Dir);
      ("/srv/www/index.html", File true "<html><body>hi</body></html>");
      ("/srv/www/app.js", File true "old();");
      ("/srv/www/app.jsx", File true "export const a = 1;");
      ("/srv/www/main.ts", File true "let x: number = 1;");
      ("/srv/www/bad.ts", File true "let = syntax error;");
      ("/srv/www/locked.ts", File false "let y = 2;");
      ("/srv/www/docs", Dir);
      ("/srv/www/docs/index.html", File true "<p>docs</p>") ].

Definition demo_server : LiveServer := new_LiveServer "/srv/www" 5500 true.

Definition demo_state : State :=
  mkState demo_server demo_tree ∅ ∅ [] fresh_response.

(** The same server while another process holds its port. *)
Definition demo_port_taken : State :=
  mkState demo_server demo_tree {[ 5500%N := "EADDRINUSE" ]} ∅ [] fresh_response.

(** The server running with three open reload connections, and a fourth
    socket still connecting that is not in the set. *)
Definition demo_sockets : gmap nat WebSocket :=
  list_to_map
    [ (1, mkWebSocket OPEN []);
      (2, mkWebSocket OPEN ["reload"]);
      (3, mkWebSocket OPEN []);
      (4, mkWebSocket CONNECTING []) ].

Definition demo_running : State :=
  mkState
    (mkLiveServer (Some {| listening := true |}) (Some AttachedWss) [1; 2; 3]
       true "/srv/www" 5500 true)
    demo_tree {[ 5500%N := "EADDRINUSE" ]} demo_sockets [] fresh_response.

(* ===================================================================== *)
(** ** The life of a server object *)
(* ===================================================================== *)

(** The underlying socket of a client has closed: its [close] event runs
    the handler installed by [start]. *)
Definition socket_closed (ws : nat) : M unit :=
  modify (with_sockets (alter (λ w, mkWebSocket CLOSED (sent w)) ws)) ;;
  on_close ws.

(** What can happen to a server object: calls of its public methods, an
    HTTP request, and the events of the socket server that [start]
    created. *)
Inductive Operation :=
  | CallStart
  | CallStop
  | CallNotifyClients
  | Request (url_pathname : string)
  | Connection (ws : nat)
  | SocketClosed (ws : nat).

(** The state after an operation, whether the call returned or threw.
    The [connection] event only exists while a socket server does. *)
Definition after `{Esbuild} (op : Operation) (σ : State) : State :=
  match op with
  | CallStart => (start σ).2
  | CallStop => (stop σ).2
  | CallNotifyClients => (notifyClients σ).2
  | Request p => (request p σ).2
  | Connection ws =>
      if wss (this σ) is Some _ then (upgrade_accepted ws σ).2 else σ
  | SocketClosed ws => (socket_closed ws σ).2
  end.

Definition after_all `{Esbuild} (ops : list Operation) (σ : State) : State :=
  foldl (λ τ op, after op τ) σ ops.

(** What every reachable server object satisfies. *)
Definition consistent (s : LiveServer) : Prop :=
  NoDup (clients s) ∧
  (running s = true → is_Some (server s)) ∧
  (is_Some (wss s) → liveReload s = true) ∧
  (clients s ≠ [] → liveReload s = true).

Global Instance consistent_dec s : Decision (consistent s).
Proof. unfold consistent. apply _. Defined.

(** A response that is complete: one of the three status codes of the
    server, a content type, and a body. *)
Definition answered (r : ServerResponse) : Prop :=
  statusCode r ∈ [Some 200; Some 404; Some 500] ∧
  is_Some (header "Content-Type" r) ∧
  is_Some (body r).

(** A computation that only appends to the console. *)
Definition console_grows {A} (m : M A) : Prop :=
  ∀ σ, console σ `prefix_of` console (m σ).2.



(** The sample tree with an [index.html] of [docs] that cannot be read. *)
Definition demo_tree_locked_index : gmap string node :=
  <["/srv/www/docs/index.html" := File false "<p>docs</p>"]> demo_tree.

Definition demo_state_locked_index : State :=
  mkState demo_server demo_tree_locked_index ∅ ∅ [] fresh_response.

Definition demo_tree_upper : gmap string node :=
  <["/srv/www/LIB.JS" := File true "var lib = 1;"]> demo_tree.

Definition demo_state_upper : State :=
  mkState demo_server demo_tree_upper ∅ ∅ [] fresh_response.

(** The sample server with live reload switched off. *)
Definition demo_state_plain : State :=
  mkState (new_LiveServer "/srv/www" 5500 false) demo_tree ∅ ∅ [] fresh_response.

(** The sample server without live reload, while another process holds
    its port. *)
Definition demo_port_taken_plain : State :=
  mkState (new_LiveServer "/srv/www" 5500 false) demo_tree
    {[ 5500%N := "EADDRINUSE" ]} ∅ [] fresh_response.

(** The sample server on a port the process may not bind. *)
Definition demo_port_denied : State :=
  mkState (new_LiveServer "/srv/www" 80 true) demo_tree
    {[ 80%N := "EACCES" ]} ∅ [] fresh_response.

(* ===================================================================== *)
(** ** [src/extension.ts]: the commands of the editor extension *)
(* ===================================================================== *)

(** The status bar item, with what [updateStatusBar] sets on it. *)
Record StatusBarItem := mkStatusBarItem {
  item_command : string;
  item_text : string;
  item_tooltip : string;
  item_backgroundColor : option string;
  item_visible : bool;
}.

(** What the extension shows to the user or asks of the editor. *)
Inductive Notice :=
  | ErrorMessage (message : string)
  | WarningMessage (message : string)
  | InformationMessage (message : string) (items : list string)
  | OpenExternal (uri : string).

(** The settings [tsLiveServer.*]; an unset one is [None]. *)
Record Settings := mkSettings {
  setting_port : option N;
  setting_autoOpen : option bool;
  setting_liveReload : option bool;
}.

(** The module-level state of the extension. [server_set] tells whether
    the variable [server] holds an object; that object is [this] of
    [host]. [watchers] are the roots of the file watchers created so
    far. *)
Record Extension := mkExtension {
  host : State;
  server_set : bool;
  statusBarItem : option StatusBarItem;
  notices : list Notice;
  watchers : list string;
  workspaceFolders : list string;
  settings : Settings;
}.

Definition with_host (f : State → State) (x : Extension) : Extension :=
  mkExtension (f (host x)) (server_set x) (statusBarItem x) (notices x)
    (watchers x) (workspaceFolders x) (settings x).
Definition set_server_set (v : bool) (x : Extension) : Extension :=
  mkExtension (host x) v (statusBarItem x) (notices x)
    (watchers x) (workspaceFolders x) (settings x).
Definition set_statusBarItem (v : option StatusBarItem) (x : Extension) : Extension :=
  mkExtension (host x) (server_set x) v (notices x)
    (watchers x) (workspaceFolders x) (settings x).
Definition notify (n : Notice) (x : Extension) : Extension :=
  mkExtension (host x) (server_set x) (statusBarItem x) (notices x ++ [n])
    (watchers x) (workspaceFolders x) (settings x).
Definition add_watcher (root : string) (x : Extension) : Extension :=
  mkExtension (host x) (server_set x) (statusBarItem x) (notices x)
    (watchers x ++ [root]) (workspaceFolders x) (settings x).

(** [server && server.isRunning()] *)
Definition server_is_running (x : Extension) : bool :=
  server_set x &&
  match (isRunning (host x)).1 with
  | Returned b => b
  | Thrown _ | Uncaught _ => false
  end.

(** [updateStatusBar(running, port)]; a port that is absent or zero
    counts as false in [running && port]. *)
Definition updateStatusBar (running : bool) (port : option N) (x : Extension)
  : Extension :=
  match statusBarItem x with
  | None => x
  | Some item =>
      let stopped :=
        mkStatusBarItem (item_command item) "$(broadcast) Start Server"
          "Click to start TS Live Server" None true in
      set_statusBarItem
        (Some
           match port with
           | Some p =>
               if running && negb (p =? 0)%N then
                 mkStatusBarItem (item_command item)
                   ("$(broadcast) Port: " +:+ pretty p)
                   ("TS Live Server running on port " +:+ pretty p +:+ nl
                    +:+ "Click to stop")
                   (Some "statusBarItem.warningBackground") true
               else stopped
           | None => stopped
           end) x
  end.

(** [stopServer()] *)
Definition stopServer (x : Extension) : Extension :=
  if negb (server_is_running x) then
    notify (WarningMessage "TS Live Server is not running.") x
  else
    match stop (host x) with
    | (Returned _, σ') =>
        notify (InformationMessage "TS Live Server stopped." [])
          (updateStatusBar false None
             (set_server_set false (with_host (λ _, σ') x)))
    | (Thrown error, σ') =>
        notify (ErrorMessage ("Failed to stop server: " +:+ error_toString error))
          (with_host (λ _, σ') x)
    | (Uncaught _, σ') => with_host (λ _, σ') x
    end.

(** [startServer(rootPath)]; [server = new LiveServer(...)] puts a new
    object in the place of the old one. The callback of the button of the
    information message is left to the user. When the promise awaited
    stays pending, nothing after the [await] is done. *)
Definition startServer (rootPath : option string) (x : Extension) : Extension :=
  let x := if server_is_running x then stopServer x else x in
  let given :=
    match rootPath with
    | Some r => if decide (r = "") then None else Some r
    | None => None
    end in
  match (if given is Some r then Some r else head (workspaceFolders x)) with
  | None =>
      notify (ErrorMessage "No workspace folder open. Please open a folder first.") x
  | Some rootDir =>
      let port := default 5500%N (setting_port (settings x)) in
      let autoOpen := default true (setting_autoOpen (settings x)) in
      let liveReload := default true (setting_liveReload (settings x)) in
      let x := set_server_set true
                 (with_host (with_this (λ _, new_LiveServer rootDir port liveReload)) x) in
      match start (host x) with
      | (Returned _, σ') =>
          let x := updateStatusBar true (Some port) (with_host (λ _, σ') x) in
          let x := notify (InformationMessage
                     ("TS Live Server running at http://localhost:" +:+ pretty port)
                     ["Open in Browser"]) x in
          let x := if autoOpen
                   then notify (OpenExternal ("http://localhost:" +:+ pretty port)) x
                   else x in
          if liveReload then add_watcher rootDir x else x
      | (Thrown error, σ') =>
          notify (ErrorMessage ("Failed to start server: " +:+ error_toString error))
            (with_host (λ _, σ') x)
      | (Uncaught _, σ') => with_host (λ _, σ') x
      end
  end.

(** The command [ts-live-server.toggleFromStatusBar] *)
Definition toggleFromStatusBar (x : Extension) : Extension :=
  if server_is_running x then stopServer x else startServer None x.

(** The callback of a file watcher: [server?.notifyClients()] *)
Definition watcher_fired (x : Extension) : Extension :=
  if server_set x then with_host (λ σ, (notifyClients σ).2) x else x.

(** [activate(context)]: the status bar item is created and shown in its
    stopped look. *)
Definition activate (x : Extension) : Extension :=
  updateStatusBar false None
    (set_statusBarItem
       (Some (mkStatusBarItem "ts-live-server.toggleFromStatusBar" "" "" None false))
       (with_host (with_console
          (λ out, out ++ ["TS Live Server extension is now active"])) x)).

(** [deactivate()]: the promise of [stop] is dropped. *)
Definition deactivate (x : Extension) : Extension :=
  if server_set x then with_host (λ σ, (stop σ).2) x else x.

(** The commands a user can run. *)
Inductive Command :=
  | StartCommand
  | StopCommand
  | ToggleCommand
  | StartFromFolder (fsPath : string)
  | WatcherFired.

Definition run_command (c : Command) (x : Extension) : Extension :=
  match c with
  | StartCommand => startServer None x
  | StopCommand => stopServer x
  | ToggleCommand => toggleFromStatusBar x
  | StartFromFolder fsPath => startServer (Some fsPath) x
  | WatcherFired => watcher_fired x
  end.

Definition run_commands (cs : list Command) (x : Extension) : Extension :=
  foldl (λ y c, run_command c y) x cs.

(** The status bar item has its running look. *)
Definition indicates_running (x : Extension) : bool :=
  match statusBarItem x with
  | Some item => bool_decide (item_backgroundColor item = Some "statusBarItem.warningBackground")
  | None => false
  end.

(** What holds of the extension between commands: a running server
    object is held by the variable and has a listening server, and the
    status bar has its running look only while the server runs. *)
Definition in_step (x : Extension) : Prop :=
  (running (this (host x)) = true →
   server_set x = true ∧ server (this (host x)) = Some {| listening := true |}) ∧
  (indicates_running x = true → server_is_running x = true).

Global Instance HttpServer_eq_dec : EqDecision HttpServer.
Proof. solve_decision. Defined.

Global Instance in_step_dec x : Decision (in_step x).
Proof. unfold in_step. apply _. Defined.

(** The operations of the sample run of a server object. *)
Definition demo_operations : list Operation :=
  [CallStart; Connection 1; Request "/"; CallNotifyClients; Connection 1;
   SocketClosed 1; CallStart; CallStop; CallStop].

(** The commands of the sample session of the extension. *)
Definition demo_commands : list Command :=
  [StartCommand; WatcherFired; StartFromFolder "/srv/www/docs"; ToggleCommand;
   StopCommand; ToggleCommand].

(** The extension after [activate], with one workspace folder and no
    settings. *)
Definition demo_extension : Extension :=
  activate
    (mkExtension demo_state false None [] [] ["/srv/www"] (mkSettings None None None)).

Definition demo_extension_port_taken : Extension :=
  activate
    (mkExtension demo_port_taken false None [] [] ["/srv/www"]
       (mkSettings None None None)).

(* ===================================================================== *)
(** * Properties *)
(* ===================================================================== *)

(** ** The primitives on sample inputs *)

Example join_resolves_dotdot :
  path.join "/srv/www" "/../secret.txt" = "/srv/secret.txt" ∧
  path.join "/srv/www" "/a/./b//c/" = "/srv/www/a/b/c/" ∧
  path.join "/srv/www" "/../../../x" = "/x" ∧
  path.join "" "" = "." ∧
  path.join "site" "/../../x" = "../x".
Proof. by vm_compute. Qed.

Example extname_cases :
  path.extname "/a/b.JS/" = ".JS" ∧ path.extname ".bashrc" = "" ∧
  path.extname "a.." = "." ∧ path.extname ".." = "" ∧
  path.extname "x/y.tar.gz" = ".gz" ∧ path.extname "/srv/www/.js" = "".
Proof. by vm_compute. Qed.

Example replace_takes_the_first_occurrence :
  Js.replace "</body>" "X</body>" "<body>hi</body></html></body>"
  = "<body>hiX</body></html></body>" ∧
  Js.replace_js_suffix ".ts" "/a/b.js" = "/a/b.ts" ∧
  Js.replace_js_suffix ".ts" "/a/b.JS" = "/a/b.JS" ∧
  Js.slice_to_neg 3 "/a/b.js" = "/a/b".
Proof. by vm_compute. Qed.

(** The replacement text of [serveStaticFile] has no [$], so [replace]
    inserts it literally. *)
Example snippet_has_no_dollar :
  Js.includes "$" (LIVE_RELOAD_SCRIPT +:+ "</body>") = false.
Proof. by vm_compute. Qed.

(** ** Strings *)

Module JsFacts.

Lemma sapp_nil_l s : "" +:+ s = s.
Proof. reflexivity. Qed.

Lemma sapp_cons c s t : String c s +:+ t = String c (s +:+ t).
Proof. reflexivity. Qed.

Lemma sapp_nil_r s : s +:+ "" = s.
Proof. induction s as [|c s IH]; [done|]. by rewrite sapp_cons, IH. Qed.

Lemma sapp_assoc s t u : (s +:+ t) +:+ u = s +:+ t +:+ u.
Proof. induction s as [|c s IH]; [done|]. by rewrite !sapp_cons, IH. Qed.

Lemma length_sapp s t : String.length (s +:+ t) = String.length s + String.length t.
Proof. induction s as [|c s IH]; [done|]. rewrite sapp_cons. simpl. by rewrite IH. Qed.

Lemma sapp_eq_nil s t : s +:+ t = "" → s = "" ∧ t = "".
Proof. destruct s; [done|]. rewrite sapp_cons. done. Qed.

Lemma startsWith_app p s : Js.startsWith p (p +:+ s) = true.
Proof.
  induction p as [|c p IH]; [done|].
  rewrite sapp_cons. simpl. by rewrite decide_True.
Qed.

Lemma startsWith_spec p s : Js.startsWith p s = true ↔ ∃ t, s = p +:+ t.
Proof.
  split.
  - revert s. induction p as [|c p IH]; intros s Hs.
    + by exists s.
    + destruct s as [|d s]; [done|]. simpl in Hs.
      destruct (decide (c = d)) as [->|]; [|done].
      destruct (IH _ Hs) as [t ->]. by exists t.
  - intros [t ->]. apply startsWith_app.
Qed.

Lemma drop_app s t : Js.drop (String.length s) (s +:+ t) = t.
Proof. induction s as [|c s IH]; [done|]. rewrite sapp_cons. simpl. done. Qed.

Lemma take_app s t : Js.take (String.length s) (s +:+ t) = s.
Proof. induction s as [|c s IH]; [done|]. rewrite sapp_cons. simpl. by rewrite IH. Qed.

Lemma slice_to_neg_app s t : Js.slice_to_neg (String.length t) (s +:+ t) = s.
Proof.
  unfold Js.slice_to_neg. rewrite length_sapp.
  replace (String.length s + String.length t - String.length t) with (String.length s) by lia.
  apply take_app.
Qed.

Lemma endsWith_app s t : Js.endsWith t (s +:+ t) = true.
Proof.
  unfold Js.endsWith. apply bool_decide_eq_true. rewrite length_sapp.
  replace (String.length s + String.length t - String.length t) with (String.length s) by lia.
  apply drop_app.
Qed.

Lemma replace_js_suffix_app r x : Js.replace_js_suffix r (x +:+ ".js") = x +:+ r.
Proof.
  unfold Js.replace_js_suffix. rewrite endsWith_app.
  by rewrite (slice_to_neg_app x ".js" : Js.slice_to_neg 3 _ = _).
Qed.

(** The last character decides [endsWith] of a one-character suffix. *)
Lemma endsWith_char_cons c d s :
  s ≠ "" → Js.endsWith (String c "") (String d s) = Js.endsWith (String c "") s.
Proof.
  intros Hs. unfold Js.endsWith. simpl.
  destruct s as [|e s]; [done|]. simpl.
  by rewrite Nat.sub_0_r.
Qed.

Lemma endsWith_char_app c s t :
  t ≠ "" → Js.endsWith (String c "") (s +:+ t) = Js.endsWith (String c "") t.
Proof.
  intros Ht. induction s as [|d s IH]; [done|].
  rewrite sapp_cons, endsWith_char_cons; [done|].
  intros [_ ?]%sapp_eq_nil. done.
Qed.

(** *** [split] and [join] *)

Lemma split_cons_sep sep s : Js.split sep (String sep s) = "" :: Js.split sep s.
Proof. simpl. by rewrite decide_True. Qed.

Lemma split_not_nil sep s : Js.split sep s ≠ [].
Proof.
  destruct s as [|c s]; [done|]. simpl.
  destruct (decide (c = sep)); [done|]. by destruct (Js.split sep s).
Qed.

(** Splitting a concatenation: the last piece of the left part and the
    first piece of the right part are glued. *)
Lemma split_app sep a b :
  ∃ front l h t,
    Js.split sep a = front ++ [l] ∧ Js.split sep b = h :: t ∧
    Js.split sep (a +:+ b) = front ++ (l +:+ h) :: t.
Proof.
  induction a as [|c a IH].
  - destruct (Js.split sep b) as [|h t] eqn:Hb; [by apply split_not_nil in Hb|].
    exists [], "", h, t. by rewrite sapp_nil_l, Hb.
  - destruct IH as (front & l & h & t & Ha & Hb & Hab).
    rewrite sapp_cons. simpl. destruct (decide (c = sep)) as [->|Hc].
    + exists ("" :: front), l, h, t. by rewrite Ha, Hab.
    + rewrite Ha, Hab. destruct front as [|f front]; simpl.
      * exists [], (String c l), h, t. by rewrite sapp_cons.
      * exists (String c f :: front), l, h, t. done.
Qed.

Lemma split_app_sep sep a b :
  Js.split sep (a +:+ String sep b) = Js.split sep a ++ Js.split sep b.
Proof.
  destruct (split_app sep a (String sep b)) as (front & l & h & t & Ha & Hb & ->).
  rewrite split_cons_sep in Hb. injection Hb as <- <-.
  rewrite Ha, sapp_nil_r. by rewrite <-List.app_assoc.
Qed.

(** The pieces of a split do not contain the separator. *)
Lemma split_pieces sep s : Forall (λ w, Js.split sep w = [w]) (Js.split sep s).
Proof.
  induction s as [|c s IH]; simpl.
  - by constructor.
  - destruct (decide (c = sep)); [by constructor|].
    destruct (Js.split sep s) as [|w ws] eqn:Hs; [by apply split_not_nil in Hs|].
    inversion IH as [|?? Hw Hws]; subst. constructor; [|done].
    simpl. rewrite decide_False by done. by rewrite Hw.
Qed.

Lemma split_join sep ws :
  ws ≠ [] → Forall (λ w, Js.split sep w = [w]) ws →
  Js.split sep (Js.join (String sep "") ws) = ws.
Proof.
  induction ws as [|w ws IH]; [done|]. intros _ Hall.
  inversion Hall as [|?? Hw Hws]; subst.
  destruct ws as [|w' ws]; [done|].
  change (Js.join (String sep "") (w :: w' :: ws))
    with (w +:+ String sep "" +:+ Js.join (String sep "") (w' :: ws)).
  rewrite sapp_cons, sapp_nil_l, split_app_sep, Hw, IH; done.
Qed.

Lemma join_eq_nil sep ws :
  Forall (λ w, w ≠ "") ws → Js.join sep ws = "" → ws = [].
Proof.
  destruct ws as [|w ws]; [done|]. intros Hall Hj.
  inversion Hall as [|?? Hw _]; subst.
  destruct ws; simpl in Hj; [done|].
  by apply sapp_eq_nil in Hj as [? _].
Qed.

(** *** [includes] and [replace] *)

Lemma startsWith_app_r p s t :
  Js.startsWith p s = true → Js.startsWith p (s +:+ t) = true.
Proof.
  intros [u ->]%startsWith_spec. rewrite sapp_assoc. apply startsWith_app.
Qed.

Lemma includes_cons p c s :
  Js.includes p (String c s) = Js.startsWith p (String c s) || Js.includes p s.
Proof. simpl. by destruct (Js.startsWith p (String c s)). Qed.

(** A text that includes [p] splits at the first occurrence of [p]. *)
Lemma includes_split p s :
  p ≠ "" → Js.includes p s = true →
  ∃ pre post, s = pre +:+ p +:+ post ∧ Js.includes p pre = false.
Proof.
  intros Hp. induction s as [|c s IH].
  - by destruct p.
  - rewrite includes_cons. destruct (Js.startsWith p (String c s)) eqn:Hhere.
    + intros _. apply startsWith_spec in Hhere as [post ->].
      exists "", post. split; [done|].
      destruct p as [|d p]; [done|]. done.
    + simpl. intros Hs. destruct (IH Hs) as (pre & post & -> & Hpre).
      exists (String c pre), post. split; [done|].
      rewrite includes_cons, Hpre, orb_false_r.
      destruct (Js.startsWith p (String c pre)) eqn:Hcpre; [|done].
      apply (startsWith_app_r _ _ (p +:+ post)) in Hcpre.
      rewrite sapp_cons in Hcpre. congruence.
Qed.

(** The closing body tag does not overlap itself: an occurrence in
    front of an occurrence lies entirely in front of it. *)
Lemma body_tag_no_overlap s t :
  Js.startsWith "</body>" (s +:+ "</body>" +:+ t) = true →
  s = "" ∨ Js.startsWith "</body>" s = true.
Proof.
  destruct s as [|c1 [|c2 [|c3 [|c4 [|c5 [|c6 [|c7 s]]]]]]];
    [by left|..]; rewrite ?sapp_cons, ?sapp_nil_l; simpl;
    repeat (case_decide; [subst|done]); done || by right.
Qed.

Lemma replace_first_body_tag r pre post :
  Js.includes "</body>" pre = false →
  Js.replace "</body>" r (pre +:+ "</body>" +:+ post) = pre +:+ r +:+ post.
Proof.
  induction pre as [|c pre IH]; intros Hpre.
  - rewrite !sapp_nil_l.
    change (Js.replace "</body>" r ("</body>" +:+ post))
      with (if Js.startsWith "</body>" ("</body>" +:+ post)
            then r +:+ Js.drop (String.length "</body>") ("</body>" +:+ post)
            else "</body>" +:+ post).
    by rewrite startsWith_app, drop_app.
  - rewrite includes_cons in Hpre. apply orb_false_elim in Hpre as [Hhere Hpre].
    rewrite !(sapp_cons c pre).
    change (Js.replace "</body>" r (String c (pre +:+ "</body>" +:+ post)))
      with (if Js.startsWith "</body>" (String c (pre +:+ "</body>" +:+ post))
            then r +:+ Js.drop (String.length "</body>")
                         (String c (pre +:+ "</body>" +:+ post))
            else String c (Js.replace "</body>" r (pre +:+ "</body>" +:+ post))).
    destruct (Js.startsWith "</body>" (String c (pre +:+ "</body>" +:+ post))) eqn:Hs.
    + rewrite <-sapp_cons in Hs. apply body_tag_no_overlap in Hs as [?|?]; congruence.
    + by rewrite IH.
Qed.

(** *** Counting occurrences *)








End JsFacts.

(** ** Facts on UTF-8 and on [decodeURIComponent] *)

Module Utf8Facts.

Lemma well_formed_replacement t :
  Utf8.well_formed (Utf8.replacement +:+ t) = Utf8.well_formed t.
Proof. done. Qed.

Local Opaque Utf8.between Utf8.is_ascii Utf8.lead Utf8.continuation.

(** Decoding gives back the bytes of a text. *)
Lemma decode_well_formed bytes :
  Utf8.well_formed bytes = true → Utf8.decode bytes = bytes.
Proof.
  remember (String.length bytes) as n eqn:Hn. revert bytes Hn.
  induction n as [n IH] using lt_wf_ind. intros bytes Hn Hwf.
  destruct bytes as [|b1 r1]; [done|]. simpl in Hwf |- *.
  destruct (Utf8.is_ascii b1).
  { f_equal. apply (IH (String.length r1)); simpl in *; [lia|done|done]. }
  destruct (Utf8.lead b1) as [[[[] lo] hi]|]; [| | |done].
  - destruct r1 as [|b2 r2]; [done|].
    apply andb_true_iff in Hwf as [-> Hwf]. simpl. do 2 f_equal.
    apply (IH (String.length r2)); simpl in *; [lia|done|done].
  - destruct r1 as [|b2 [|b3 r3]]; [done..|].
    apply andb_true_iff in Hwf as [[-> ->]%andb_true_iff Hwf]. simpl. do 3 f_equal.
    apply (IH (String.length r3)); simpl in *; [lia|done|done].
  - destruct r1 as [|b2 [|b3 [|b4 r4]]]; [done..|].
    apply andb_true_iff in Hwf as [[[-> ->]%andb_true_iff ->]%andb_true_iff Hwf].
    simpl. do 4 f_equal.
    apply (IH (String.length r4)); simpl in *; [lia|done|done].
Qed.

(** What decoding gives is a text, whatever the bytes. *)
Lemma decode_is_text bytes : Utf8.well_formed (Utf8.decode bytes) = true.
Proof.
  remember (String.length bytes) as n eqn:Hn. revert bytes Hn.
  induction n as [n IH] using lt_wf_ind. intros bytes Hn.
  assert (∀ r, String.length r < n → Utf8.well_formed (Utf8.decode r) = true) as Hrec
    by (intros r Hr; by apply (IH (String.length r))).
  clear IH. destruct bytes as [|b1 r1]; [done|]. simpl in Hn.
  cbn [Utf8.decode].
  destruct (Utf8.is_ascii b1) eqn:Ha.
  { cbn [Utf8.well_formed]. rewrite Ha. apply Hrec. lia. }
  destruct (Utf8.lead b1) as [[[width lo] hi]|] eqn:Hl.
  2:{ rewrite well_formed_replacement. apply Hrec. lia. }
  destruct r1 as [|b2 r2]; [done|]. simpl in Hn.
  destruct (Utf8.between lo hi b2) eqn:Hb2; cbn [negb].
  2:{ rewrite well_formed_replacement. apply Hrec. simpl. lia. }
  destruct width.
  - cbn [Utf8.well_formed]. rewrite Ha, Hl, Hb2. apply Hrec. lia.
  - destruct r2 as [|b3 r3]; [done|]. simpl in Hn.
    destruct (Utf8.continuation b3) eqn:Hb3; cbn [negb].
    2:{ rewrite well_formed_replacement. apply Hrec. simpl. lia. }
    cbn [Utf8.well_formed]. rewrite Ha, Hl, Hb2, Hb3. apply Hrec. lia.
  - destruct r2 as [|b3 r3]; [done|]. simpl in Hn.
    destruct (Utf8.continuation b3) eqn:Hb3; cbn [negb].
    2:{ rewrite well_formed_replacement. apply Hrec. simpl. lia. }
    destruct r3 as [|b4 r4]; [done|]. simpl in Hn.
    destruct (Utf8.continuation b4) eqn:Hb4; cbn [negb].
    2:{ rewrite well_formed_replacement. apply Hrec. simpl. lia. }
    cbn [Utf8.well_formed]. rewrite Ha, Hl, Hb2, Hb3, Hb4. apply Hrec. lia.
Qed.

(** Decoding what was decoded changes nothing. *)
Lemma decode_decode bytes : Utf8.decode (Utf8.decode bytes) = Utf8.decode bytes.
Proof. apply decode_well_formed, decode_is_text. Qed.

(** Ill-formed input: a sequence cut short by another character or by
    the end gives one U+FFFD, bytes that start nothing give one each, and
    the encoding of a surrogate is three such bytes. *)
Example decode_ill_formed :
  Utf8.decode (Utf8.bytes [201; 181; 169; 65]) = Utf8.bytes [201; 181; 239; 191; 189; 65] ∧
  Utf8.decode (Utf8.bytes [226]) = Utf8.replacement ∧
  Utf8.decode (Utf8.bytes [226; 65]) = Utf8.replacement +:+ "A" ∧
  Utf8.decode (Utf8.bytes [240; 184; 65]) = Utf8.replacement +:+ "A" ∧
  Utf8.decode (Utf8.bytes [226; 184; 204; 184]) = Utf8.replacement +:+ Utf8.bytes [204; 184] ∧
  Utf8.decode (Utf8.bytes [240; 251; 0])
  = Utf8.replacement +:+ Utf8.replacement +:+ Utf8.bytes [0] ∧
  Utf8.decode (Utf8.bytes [237; 160; 181])
  = Utf8.replacement +:+ Utf8.replacement +:+ Utf8.replacement ∧
  Utf8.decode ("caf" +:+ Utf8.bytes [233] +:+ "!") = "caf" +:+ Utf8.replacement +:+ "!".
Proof. split_and!; by vm_compute. Qed.

Example decode_text :
  Utf8.well_formed ("caf" +:+ Utf8.bytes [195; 169]) = true ∧
  Utf8.decode ("caf" +:+ Utf8.bytes [195; 169]) = "caf" +:+ Utf8.bytes [195; 169] ∧
  Utf8.decode (Utf8.bytes [226; 130; 172; 240; 159; 152; 128])
  = Utf8.bytes [226; 130; 172; 240; 159; 152; 128].
Proof. split_and!; by vm_compute. Qed.

Example decodeURIComponent_cases :
  URI.decodeURIComponent "/a%20b.html" = Ok "/a b.html" ∧
  URI.decodeURIComponent "/%2e%2E/secret.txt" = Ok "/../secret.txt" ∧
  URI.decodeURIComponent "/caf%C3%A9" = Ok ("/caf" +:+ Utf8.bytes [195; 169]) ∧
  URI.decodeURIComponent "/%e2%82%ac" = Ok ("/" +:+ Utf8.bytes [226; 130; 172]) ∧
  URI.decodeURIComponent "/%" = Failed URI.URIError ∧
  URI.decodeURIComponent "/%4" = Failed URI.URIError ∧
  URI.decodeURIComponent "/%zz" = Failed URI.URIError ∧
  URI.decodeURIComponent "/%ff" = Failed URI.URIError ∧
  URI.decodeURIComponent "/%C3" = Failed URI.URIError ∧
  URI.decodeURIComponent "/%C3x" = Failed URI.URIError ∧
  URI.decodeURIComponent "/%C3%41" = Failed URI.URIError ∧
  URI.decodeURIComponent "/%C0%80" = Failed URI.URIError ∧
  URI.decodeURIComponent "/%ED%A0%80" = Failed URI.URIError.
Proof. split_and!; by vm_compute. Qed.




End Utf8Facts.

(** ** Paths *)

Module PathFacts.
Import JsFacts.

Lemma norm_step_canonical allow st seg :
  canonical allow st → Js.split "/" seg = [seg] →
  canonical allow (path.norm_step allow st seg).
Proof.
  intros Hst Hseg. unfold path.norm_step.
  repeat case_decide; subst; try done.
  - destruct st as [|top rest].
    + destruct allow; simpl; [|done]. repeat split; try done. by left.
    + pose proof Hst as (? & ? & ? & Htop & Hrest).
      case_decide as Ht; [|done].
      destruct allow; [|done].
      subst top. split_and!; try done. intros _. split; [done|by right].
Qed.

Lemma fold_canonical allow segs st :
  canonical allow st → Forall (λ w, Js.split "/" w = [w]) segs →
  canonical allow (fold_left (path.norm_step allow) segs st).
Proof.
  revert st. induction segs as [|seg segs IH]; intros st Hst Hall; [done|].
  inversion Hall; subst. simpl. apply IH; [|done].
  by apply norm_step_canonical.
Qed.

Lemma canonical_split allow st :
  canonical allow st → Forall (λ w, Js.split "/" w = [w]) st.
Proof.
  induction st as [|x st IH]; [by constructor|].
  intros (? & ? & ? & ? & ?). constructor; auto.
Qed.

Lemma canonical_nonempty allow st :
  canonical allow st → Forall (λ w, w ≠ "") st.
Proof.
  induction st as [|x st IH]; [by constructor|].
  intros (? & ? & ? & ? & ?). constructor; auto.
Qed.

(** Normalizing the components of a normalized path changes nothing. *)
Lemma replay allow st :
  canonical allow st → fold_left (path.norm_step allow) (rev st) [] = st.
Proof.
  induction st as [|x st IH]; [done|].
  intros (Hne & Hdot & _ & Hup & Hst). simpl.
  rewrite fold_left_app, IH by done. simpl.
  unfold path.norm_step. rewrite !decide_False by done.
  case_decide as Hx; [|done].
  subst x. destruct (Hup eq_refl) as [-> [->|Hhd]]; [done|].
  destruct st as [|top rest]; [done|]. injection Hhd as ->.
  by rewrite decide_True.
Qed.

Lemma fold_skip_empty allow segs st :
  fold_left (path.norm_step allow) ("" :: segs) st
  = fold_left (path.norm_step allow) segs st.
Proof. done. Qed.

Lemma startsWith_slash_app a b :
  a ≠ "" → Js.startsWith "/" (a +:+ b) = Js.startsWith "/" a.
Proof. destruct a; [done|]. intros _. by rewrite sapp_cons. Qed.

Lemma piece_not_absolute w :
  w ≠ "" → Js.split "/" w = [w] → Js.startsWith "/" w = false.
Proof.
  destruct w as [|c w]; [done|]. intros _ Hw. simpl in *.
  destruct (decide ("/"%char = c)) as [<-|]; [|done].
  rewrite decide_True in Hw by done. done.
Qed.

Section Normalize.
Variable s : string.
Hypothesis s_nonempty : s ≠ "".

Let allow := negb (path.isAbsolute s).
Let st := fold_left (path.norm_step allow) (Js.split "/" s) [].

Lemma st_canonical : canonical allow st.
Proof. apply fold_canonical; [done|apply split_pieces]. Qed.

Lemma normalize_nonempty : path.normalize s ≠ "".
Proof.
  unfold path.normalize. rewrite decide_False by done.
  case_decide.
  - by repeat case_match.
  - intros [? [? _]%sapp_eq_nil]%sapp_eq_nil. done.
Qed.

Lemma normalize_facts :
  path.isAbsolute (path.normalize s) = path.isAbsolute s ∧
  fold_left (path.norm_step allow) (Js.split "/" (path.normalize s)) [] = st.
Proof.
  pose proof st_canonical as Hcan.
  unfold path.normalize. rewrite decide_False by done.
  unfold path.norm_segments. fold allow. fold st.
  case_decide as Hbody.
  - apply join_eq_nil in Hbody;
      [|apply Forall_rev; by eapply canonical_nonempty].
    assert (st = []) as Hst.
    { apply (f_equal (@rev string)) in Hbody. by rewrite rev_involutive in Hbody. }
    rewrite Hst.
    destruct (path.isAbsolute s); simpl; [done|].
    by destruct (Js.endsWith "/" s).
  - assert (rev st ≠ []) as Hne by (by intros Heq; rewrite Heq in Hbody).
    pose proof (canonical_split _ _ Hcan) as Hsplit.
    apply Forall_rev in Hsplit.
    pose proof (split_join "/" _ Hne Hsplit) as Hsj.
    assert (fold_left (path.norm_step allow)
              (Js.split "/" (Js.join "/" (rev st) +:+
                             (if Js.endsWith "/" s then "/" else ""))) [] = st) as Hfold.
    { destruct (Js.endsWith "/" s).
      - rewrite (split_app_sep "/" _ ""), Hsj, fold_left_app. simpl.
        by apply replay.
      - rewrite sapp_nil_r, Hsj. by apply replay. }
    destruct (path.isAbsolute s) eqn:Habs; cbv beta iota.
    + rewrite sapp_cons, sapp_nil_l, split_cons_sep. split; [done|].
      by rewrite fold_skip_empty.
    + rewrite sapp_nil_l. split; [|done].
      unfold path.isAbsolute.
      destruct (rev st) as [|w ws] eqn:Hrev; [done|].
      inversion Hsplit as [|?? Hw _]; subst.
      assert (w ≠ "") as Hwne.
      { pose proof (canonical_nonempty _ _ Hcan) as Hn.
        apply Forall_rev in Hn. rewrite Hrev in Hn. by inversion Hn. }
      assert (Js.startsWith "/" w = false) as Hw0 by by apply piece_not_absolute.
      destruct ws as [|w' ws].
      * change (Js.join "/" [w]) with w. by rewrite startsWith_slash_app.
      * change (Js.join "/" (w :: w' :: ws)) with (w +:+ "/" +:+ Js.join "/" (w' :: ws)).
        by rewrite !startsWith_slash_app by (by try intros [? _]%sapp_eq_nil).
Qed.

End Normalize.

Lemma normalize_unfold p :
  p ≠ "" →
  path.normalize p =
    let abs := path.isAbsolute p in
    let trailing := Js.endsWith "/" p in
    let body := Js.join "/" (path.norm_segments (negb abs) (Js.split "/" p)) in
    if decide (body = "") then
      (if abs then "/" else if trailing then "./" else ".")
    else
      (if abs then "/" else "") +:+ body +:+ (if trailing then "/" else "").
Proof. intros Hp. unfold path.normalize. by rewrite decide_False. Qed.

(** Normalizing a prefix first does not change the normal form. *)
Lemma normalize_app s t :
  s ≠ "" →
  path.normalize (path.normalize s +:+ "/" +:+ t) = path.normalize (s +:+ "/" +:+ t).
Proof.
  intros Hs.
  pose proof (normalize_nonempty s Hs) as Hn.
  destruct (normalize_facts s Hs) as [Habs Hfold].
  assert (∀ a, a ≠ "" → a +:+ "/" +:+ t ≠ "") as Hne
    by (by intros a Ha [? _]%sapp_eq_nil).
  assert (∀ a, a ≠ "" → path.isAbsolute (a +:+ "/" +:+ t) = path.isAbsolute a) as Ha
    by (intros a ?; by apply startsWith_slash_app).
  assert (∀ a, Js.endsWith "/" (a +:+ "/" +:+ t) = Js.endsWith "/" ("/" +:+ t)) as He
    by (intros a; by apply (endsWith_char_app "/")).
  assert (∀ a, Js.split "/" (a +:+ "/" +:+ t) = Js.split "/" a ++ Js.split "/" t) as Hsp
    by (intros a; apply (split_app_sep "/" a t)).
  rewrite (normalize_unfold (path.normalize s +:+ "/" +:+ t)) by auto.
  rewrite (normalize_unfold (s +:+ "/" +:+ t)) by auto.
  unfold path.norm_segments.
  rewrite !Ha, !He, !Hsp, !fold_left_app, Habs, Hfold by done. done.
Qed.

Lemma join_unfold a b :
  b ≠ "" →
  path.join a b =
    if decide (a = "") then path.normalize b else path.normalize (a +:+ "/" +:+ b).
Proof. intros Hb. unfold path.join. by repeat case_decide. Qed.

Lemma join_nonempty a b : path.join a b ≠ "".
Proof.
  unfold path.join. repeat case_decide; try done; apply normalize_nonempty; try done.
  by intros [? _]%sapp_eq_nil.
Qed.

(** [path.join(path.join(root, p), t)] is [path.join(root, p + "/" + t)]. *)
Lemma join_join root p t :
  p ≠ "" → t ≠ "" →
  path.join (path.join root p) t = path.join root (p +:+ "/" +:+ t).
Proof.
  intros Hp Ht.
  assert (p +:+ "/" +:+ t ≠ "") as Hpt by (by intros [? _]%sapp_eq_nil).
  rewrite (join_unfold _ t) by done.
  rewrite (decide_False (P := path.join root p = "")) by apply join_nonempty.
  rewrite (join_unfold root p), (join_unfold root (_ +:+ _)) by done.
  destruct (decide (root = "")) as [->|Hroot].
  - by apply normalize_app.
  - rewrite normalize_app by (by intros [? _]%sapp_eq_nil).
    by rewrite !sapp_assoc.
Qed.

(** Without [..] the stack only grows. *)
Lemma fold_grows allow segs st :
  ".." ∉ segs →
  ∃ k, fold_left (path.norm_step allow) segs st = k ++ st.
Proof.
  revert st. induction segs as [|seg segs IH]; intros st Hup.
  - by exists [].
  - apply not_elem_of_cons in Hup as [Hseg Hup]. simpl.
    destruct (IH (path.norm_step allow st seg) Hup) as [k ->].
    unfold path.norm_step. rewrite (decide_False (P := seg = "..")) by done.
    repeat case_decide; [by exists k..|].
    exists (k ++ [seg]). by rewrite <-List.app_assoc.
Qed.

Lemma segments_normalize s :
  s ≠ "" → segments (path.normalize s) = segments s.
Proof.
  intros Hs. destruct (normalize_facts s Hs) as [Habs Hfold].
  unfold segments, path.norm_segments. by rewrite Habs, Hfold.
Qed.

(** A request path without [..] stays below an absolute root. *)
Lemma join_inside root p :
  path.isAbsolute root = true → ".." ∉ Js.split "/" p →
  inside root (path.join root p).
Proof.
  intros Habs Hup.
  assert (root ≠ "") as Hroot by (by intros ->).
  unfold path.join. rewrite decide_False by done.
  case_decide as Hp.
  - destruct (normalize_facts root Hroot) as [Ha _].
    split; [done|]. by rewrite segments_normalize.
  - assert (root +:+ "/" +:+ p ≠ "") as Hrp by (by intros [? _]%sapp_eq_nil).
    destruct (normalize_facts _ Hrp) as [Ha _].
    assert (path.isAbsolute (root +:+ "/" +:+ p) = true) as Ha'.
    { unfold path.isAbsolute in *. by rewrite startsWith_slash_app. }
    split; [by rewrite Ha, Ha'|].
    rewrite segments_normalize by done.
    unfold segments, path.norm_segments. rewrite Ha', Habs.
    change ("/" +:+ p) with (String "/" p).
    rewrite split_app_sep, fold_left_app.
    destruct (fold_grows (negb true) (Js.split "/" p)
                (fold_left (path.norm_step (negb true)) (Js.split "/" root) []) Hup)
      as [k ->].
    rewrite rev_app_distr. by apply prefix_app_r.
Qed.

(** *** Extensions *)

Lemma basename_app x sfx :
  sfx ≠ "" → Js.split "/" sfx = [sfx] →
  path.basename (x +:+ sfx) = last_piece x +:+ sfx.
Proof.
  intros Hne Hsfx. unfold path.basename, last_piece.
  destruct (split_app "/" x sfx) as (front & l & h & t & Hx & Hs & ->).
  rewrite Hsfx in Hs. injection Hs as <- <-.
  rewrite Hx, last_snoc, rev_app_distr. simpl.
  rewrite filter_cons_True; [done|].
  by intros [_ ?]%sapp_eq_nil.
Qed.

Lemma from_last_dot_app l e :
  path.from_last_dot e = None →
  path.from_last_dot (l +:+ String "." e) = Some (String "." e).
Proof.
  intros He. induction l as [|c l IH].
  - rewrite sapp_nil_l. simpl. by rewrite He.
  - rewrite sapp_cons. simpl. by rewrite IH.
Qed.

(** The extension of [x.e], for [e] one of the extensions the server
    appends: it is [.e] unless [x] ends a directory. *)
Lemma extname_app x e :
  e ≠ "" → path.from_last_dot e = None → Js.split "/" e = [e] →
  path.extname (x +:+ String "." e) =
    if decide (last_piece x = "") then "" else String "." e.
Proof.
  intros Hne Hdot Hslash. unfold path.extname.
  rewrite basename_app; [|done|].
  2:{ simpl. by rewrite Hslash. }
  rewrite from_last_dot_app by done.
  destruct (decide (last_piece x = "")) as [->|Hx].
  - by rewrite sapp_nil_l, decide_True.
  - rewrite decide_False.
    2:{ intros Heq. apply Hx.
        apply (f_equal String.length) in Heq. rewrite length_sapp in Heq.
        destruct (last_piece x); [done|simpl in Heq; lia]. }
    rewrite decide_False; [done|].
    destruct (last_piece x) as [|c [|d l]]; [done| |].
    + rewrite sapp_cons, sapp_nil_l. intros [= _ ->]. done.
    + rewrite !sapp_cons. intros [= _ _ Heq].
      by apply sapp_eq_nil in Heq as [_ ?].
Qed.

End PathFacts.

(** ** The primitives *)

Section Runs.
Context `{Esbuild}.

Lemma bind_run {A B} (m : M A) (f : A → M B) σ :
  (m ≫= f) σ =
    match m σ with
    | (Returned a, σ') => f a σ'
    | (Thrown e, σ') => (Thrown e, σ')
    | (Uncaught e, σ') => (Uncaught e, σ')
    end.
Proof. done. Qed.

Lemma try_catch_run {A} (m : M A) h σ :
  try_catch m h σ =
    match m σ with
    | (Returned a, σ') => (Returned a, σ')
    | (Thrown e, σ') => h e σ'
    | (Uncaught e, σ') => (Uncaught e, σ')
    end.
Proof. done. Qed.

(** The system call named in the error text plays no role in what is
    found. *)
Lemma fs_lookup_entry syscall p tree :
  match disk_entry tree p with
  | Some n => fs_lookup syscall p tree = Ok n
  | None => ∃ e, fs_lookup syscall p tree = Failed e
  end.
Proof.
  unfold disk_entry, fs_lookup.
  destruct (Js.includes nul p); [eauto|].
  destruct (Js.endsWith "/" p && negb (bool_decide (p = "/"))).
  - destruct (tree !! Js.slice_to_neg 1 p) as [[|r d]|]; eauto.
  - destruct (tree !! p); eauto.
Qed.

Lemma fs_access_found p σ n :
  disk_entry (fs σ) p = Some n → fs_access p σ = (Returned (), σ).
Proof.
  intros Hn. pose proof (fs_lookup_entry "access" p (fs σ)) as Hl.
  rewrite Hn in Hl. unfold fs_access, gets, lift_result.
  rewrite !bind_run, Hl. done.
Qed.

Lemma fs_access_missing p σ :
  disk_entry (fs σ) p = None → ∃ e, fs_access p σ = (Thrown e, σ).
Proof.
  intros Hn. pose proof (fs_lookup_entry "access" p (fs σ)) as Hl.
  rewrite Hn in Hl. destruct Hl as [e Hl]. exists e.
  unfold fs_access, gets, lift_result. rewrite !bind_run, Hl. done.
Qed.

Lemma fs_stat_found p σ n :
  disk_entry (fs σ) p = Some n →
  fs_stat p σ =
    (Returned {| isDirectory := match n with Dir => true | File _ _ => false end |}, σ).
Proof.
  intros Hn. pose proof (fs_lookup_entry "stat" p (fs σ)) as Hl.
  rewrite Hn in Hl. unfold fs_stat, gets, lift_result.
  rewrite !bind_run, Hl. done.
Qed.

Lemma fs_stat_missing p σ :
  disk_entry (fs σ) p = None → ∃ e, fs_stat p σ = (Thrown e, σ).
Proof.
  intros Hn. pose proof (fs_lookup_entry "stat" p (fs σ)) as Hl.
  rewrite Hn in Hl. destruct Hl as [e Hl]. exists e.
  unfold fs_stat, gets, lift_result. rewrite !bind_run, Hl. done.
Qed.

Lemma fs_readFile_found p σ data :
  disk_entry (fs σ) p = Some (File true data) →
  fs_readFile p σ = (Returned data, σ).
Proof.
  intros Hn. pose proof (fs_lookup_entry "open" p (fs σ)) as Hl.
  rewrite Hn in Hl. unfold fs_readFile, gets, lift_result.
  rewrite !bind_run, Hl. done.
Qed.

Lemma fs_readFile_fails p σ :
  (∀ data, disk_entry (fs σ) p ≠ Some (File true data)) →
  ∃ e, fs_readFile p σ = (Thrown e, σ).
Proof.
  intros Hn. pose proof (fs_lookup_entry "open" p (fs σ)) as Hl.
  unfold fs_readFile, gets, lift_result. rewrite !bind_run.
  destruct (disk_entry (fs σ) p) as [[|[] d]|].
  - rewrite Hl. eauto.
  - by destruct (Hn d).
  - rewrite Hl. eauto.
  - destruct Hl as [e ->]. eauto.
Qed.

(** *** Resolution *)

Lemma resolveFile_loop_run base alts σ :
  resolveFile_loop base alts σ =
    (Returned (first_existing (fs σ) ((λ e, base +:+ e) <$> alts)), σ).
Proof.
  unfold first_existing.
  induction alts as [|e alts IH]; [done|].
  simpl. rewrite try_catch_run, bind_run.
  destruct (disk_entry (fs σ) (base +:+ e)) as [n|] eqn:Hn.
  - rewrite (fs_access_found _ _ n Hn).
    rewrite filter_cons_True by (by rewrite Hn). done.
  - destruct (fs_access_missing _ _ Hn) as [err ->].
    rewrite filter_cons_False by (rewrite Hn; by intros [? ?]).
    apply IH.
Qed.

Lemma resolveFile_run filePath σ :
  resolveFile filePath σ =
    (Returned
       (if decide (path.extname filePath = ".js") then
          first_existing (fs σ)
            ((λ e, Js.slice_to_neg 3 filePath +:+ e) <$> [".ts"; ".tsx"; ".jsx"])
        else None), σ).
Proof.
  unfold resolveFile. case_decide; [|done]. apply resolveFile_loop_run.
Qed.

Lemma locate_run filePath σ :
  locate filePath σ = (Returned (located (fs σ) filePath), σ).
Proof.
  unfold locate, located. rewrite try_catch_run, bind_run.
  destruct (disk_entry (fs σ) filePath) as [n|] eqn:Hn.
  - rewrite (fs_stat_found _ _ n Hn). by destruct n.
  - destruct (fs_stat_missing _ _ Hn) as [e ->].
    rewrite bind_run, resolveFile_run.
    case_decide; [|done].
    by destruct (first_existing _ _).
Qed.

End Runs.

(** ** Serving a request touches nothing but the response and the console *)

Section Locality.
Context `{Esbuild}.

Lemma local_ret {A} (a : A) : request_local (mret a : M A).
Proof. by split. Qed.

Lemma local_pass : request_local pass.
Proof. by split. Qed.

Lemma local_throw {A} e : request_local (throw e : M A).
Proof. by split. Qed.

Lemma local_lift_result {A} (r : Result A) : request_local (lift_result r).
Proof. by destruct r. Qed.

Lemma local_gets {A} (f : State → A) :
  (∀ σ τ, agree σ τ → f σ = f τ) → request_local (gets f).
Proof. intros Hf. split; [done|]. intros σ τ Hag. simpl. split; [|done]. f_equal. auto. Qed.

Lemma local_bind {A B} (m : M A) (f : A → M B) :
  request_local m → (∀ a, request_local (f a)) → request_local (m ≫= f).
Proof.
  intros [Hm1 Hm2] Hf. split.
  - intros σ. rewrite bind_run. specialize (Hm1 σ).
    destruct (m σ) as [[a|e|e] σ']; simpl in *; [|done..].
    destruct (Hf a) as [Hf1 _]. specialize (Hf1 σ').
    destruct Hm1 as (<- & <- & <- & <-). done.
  - intros σ τ Hag. rewrite !bind_run. specialize (Hm2 σ τ Hag).
    destruct (m σ) as [[a|e|e] σ'], (m τ) as [[a'|e'|e'] τ']; simpl in *;
      destruct Hm2 as [Heq Hag']; try done.
    + injection Heq as <-. destruct (Hf a) as [_ Hf2]. by apply Hf2.
    + by injection Heq as <-.
    + by injection Heq as <-.
Qed.

Lemma local_try_catch {A} (m : M A) (h : JsError → M A) :
  request_local m → (∀ e, request_local (h e)) → request_local (try_catch m h).
Proof.
  intros [Hm1 Hm2] Hh. split.
  - intros σ. rewrite try_catch_run. specialize (Hm1 σ).
    destruct (m σ) as [[a|e|e] σ']; simpl in *; [done| |done].
    destruct (Hh e) as [Hh1 _]. specialize (Hh1 σ').
    destruct Hm1 as (<- & <- & <- & <-). done.
  - intros σ τ Hag. rewrite !try_catch_run. specialize (Hm2 σ τ Hag).
    destruct (m σ) as [[a|e|e] σ'], (m τ) as [[a'|e'|e'] τ']; simpl in *;
      destruct Hm2 as [Heq Hag']; try done.
    injection Heq as <-. destruct (Hh e) as [_ Hh2]. by apply Hh2.
Qed.

Lemma local_console_print line : request_local (console_print line).
Proof. split; [done|]. by intros σ τ (? & ? & ?). Qed.

Lemma local_res_writeHead status hs : request_local (res_writeHead status hs).
Proof.
  split; [done|]. intros σ τ (? & ? & Hres). repeat split; try done.
  simpl. by rewrite Hres.
Qed.

Lemma local_res_end data : request_local (res_end data).
Proof.
  split; [done|]. intros σ τ (? & ? & Hres). repeat split; try done.
  simpl. by rewrite Hres.
Qed.

Ltac agree_congruence :=
  let Ht := fresh in let Hf := fresh in let Hr := fresh in
  intros ? ? (Ht & Hf & Hr); simpl; congruence.

Ltac local_step :=
  lazymatch goal with
  | |- request_local (mret _) => apply local_ret
  | |- request_local pass => apply local_pass
  | |- request_local (throw _) => apply local_throw
  | |- request_local (lift_result _) => apply local_lift_result
  | |- request_local (console_print _) => apply local_console_print
  | |- request_local (res_writeHead _ _) => apply local_res_writeHead
  | |- request_local (res_end _) => apply local_res_end
  | |- request_local (gets _) => apply local_gets; agree_congruence
  | |- request_local (mbind _ _) => apply local_bind; [|intros ?]
  | |- request_local (try_catch _ _) => apply local_try_catch; [|intros ?]
  | |- request_local (if ?b then _ else _) => destruct b
  | |- request_local (match ?x with _ => _ end) => destruct x
  end.

Ltac local := repeat local_step.

Lemma local_fs_stat p : request_local (fs_stat p).
Proof. unfold fs_stat. local. Qed.

Lemma local_fs_access p : request_local (fs_access p).
Proof. unfold fs_access. local. Qed.

Lemma local_fs_readFile p : request_local (fs_readFile p).
Proof. unfold fs_readFile. local. Qed.

Lemma local_transpileFile p : request_local (transpileFile p).
Proof. unfold transpileFile. local_step; [apply local_fs_readFile|]. local. Qed.

Lemma local_serveTranspiledFile p : request_local (serveTranspiledFile p).
Proof. unfold serveTranspiledFile. local_step; [|local]. local_step; [apply local_transpileFile|local]. Qed.

Lemma local_serveStaticFile p ext : request_local (serveStaticFile p ext).
Proof. unfold serveStaticFile. local_step; [apply local_fs_readFile|]. local. Qed.

Lemma local_send404 pathname : request_local (send404 pathname).
Proof. unfold send404. local. Qed.

Lemma local_resolveFile_loop base alts : request_local (resolveFile_loop base alts).
Proof.
  induction alts as [|e alts IH]; simpl; [local|].
  local_step; [|done]. local_step; [apply local_fs_access|local].
Qed.

Lemma local_locate p : request_local (locate p).
Proof.
  unfold locate. local_step.
  - local_step; [apply local_fs_stat|local].
  - local_step; [|local]. unfold resolveFile. local_step; [|local].
    apply local_resolveFile_loop.
Qed.

Lemma local_respond pathname p : request_local (respond pathname p).
Proof.
  unfold respond. local_step; [|apply local_send404].
  local_step; [apply local_fs_access|].
  local_step; [apply local_serveTranspiledFile|].
  local_step; [|local_step; [local|apply local_serveStaticFile]].
  local_step; [|local].
  local_step.
  - local_step; [apply local_fs_access|].
    local_step; [apply local_serveTranspiledFile|local].
  - local_step; [|local].
    local_step; [apply local_fs_access|].
    local_step; [apply local_serveTranspiledFile|local].
Qed.

Lemma local_handle_pathname p : request_local (handle_pathname p).
Proof.
  unfold handle_pathname. local_step; [local|].
  local_step; [local|]. local_step; [apply local_locate|apply local_respond].
Qed.

Lemma local_handleRequest p : request_local (handleRequest p).
Proof.
  unfold handleRequest. local_step; [local|apply local_handle_pathname].
Qed.

End Locality.

(** ** What each way of answering puts in the response *)

Section Responses.
Context `{Esbuild}.

Lemma send404_run pathname σ :
  ∃ σ', send404 pathname σ = (Returned (), σ') ∧ res σ' = response_404 pathname.
Proof. eexists. split; [reflexivity|done]. Qed.

Lemma transpileFile_ok fp σ data r :
  disk_entry (fs σ) fp = Some (File true data) →
  esbuild_transform (Buffer.toString data) (transform_options fp) = Ok r →
  ∃ σ', transpileFile fp σ = (Returned (code r), σ') ∧ res σ' = res σ.
Proof.
  intros Hfile Hr. unfold transpileFile.
  rewrite bind_run, (fs_readFile_found _ _ _ Hfile).
  rewrite try_catch_run, bind_run. unfold lift_result. rewrite Hr.
  rewrite bind_run. case_decide; eexists; (split; [reflexivity|done]).
Qed.

Lemma transpileFile_diagnostic fp σ data e :
  disk_entry (fs σ) fp = Some (File true data) →
  esbuild_transform (Buffer.toString data) (transform_options fp) = Failed e →
  transpileFile fp σ =
    (Thrown (Error ("Failed to transpile " +:+ fp +:+ ": " +:+ err_message e)), σ).
Proof.
  intros Hfile He. unfold transpileFile.
  rewrite bind_run, (fs_readFile_found _ _ _ Hfile).
  rewrite try_catch_run, bind_run. unfold lift_result. by rewrite He.
Qed.

Lemma transpileFile_unreadable fp σ :
  (∀ data, disk_entry (fs σ) fp ≠ Some (File true data)) →
  ∃ e, transpileFile fp σ = (Thrown e, σ).
Proof.
  intros Hfile. destruct (fs_readFile_fails _ _ Hfile) as [e He].
  exists e. unfold transpileFile. by rewrite bind_run, He.
Qed.

Lemma serveTranspiledFile_ok fp σ data r :
  disk_entry (fs σ) fp = Some (File true data) →
  esbuild_transform (Buffer.toString data) (transform_options fp) = Ok r →
  ∃ σ', serveTranspiledFile fp σ = (Returned (), σ') ∧
        res σ' = response_javascript (code r).
Proof.
  intros Hfile Hr.
  destruct (transpileFile_ok _ _ _ _ Hfile Hr) as (σ1 & Hrun & _).
  unfold serveTranspiledFile. rewrite try_catch_run, bind_run, Hrun.
  eexists. split; [reflexivity|done].
Qed.

Lemma serveTranspiledFile_diagnostic fp σ data e :
  disk_entry (fs σ) fp = Some (File true data) →
  esbuild_transform (Buffer.toString data) (transform_options fp) = Failed e →
  ∃ σ', serveTranspiledFile fp σ = (Returned (), σ') ∧
        res σ' = response_diagnostic
                   (Error ("Failed to transpile " +:+ fp +:+ ": " +:+ err_message e)).
Proof.
  intros Hfile He.
  unfold serveTranspiledFile.
  rewrite try_catch_run, bind_run, (transpileFile_diagnostic _ _ _ _ Hfile He).
  eexists. split; [reflexivity|done].
Qed.

Lemma serveTranspiledFile_unreadable fp σ :
  (∀ data, disk_entry (fs σ) fp ≠ Some (File true data)) →
  ∃ σ' e, serveTranspiledFile fp σ = (Returned (), σ') ∧
          res σ' = response_diagnostic e.
Proof.
  intros Hfile. destruct (transpileFile_unreadable _ _ Hfile) as [e He].
  unfold serveTranspiledFile. rewrite try_catch_run, bind_run, He.
  eexists _, e. split; [reflexivity|done].
Qed.

(** [serveTranspiledFile] always answers, with 200 or with 500. *)
Lemma serveTranspiledFile_returns fp σ :
  ∃ σ', serveTranspiledFile fp σ = (Returned (), σ') ∧
        (statusCode (res σ') = Some 200 ∨ statusCode (res σ') = Some 500).
Proof.
  destruct (disk_entry (fs σ) fp) as [[|[] data]|] eqn:Hfile.
  - destruct (serveTranspiledFile_unreadable fp σ) as (σ' & e & Hrun & Hres);
      [by rewrite Hfile|].
    exists σ'. rewrite Hres. auto.
  - destruct (esbuild_transform (Buffer.toString data) (transform_options fp)) as [r|e] eqn:Hr.
    + destruct (serveTranspiledFile_ok _ _ _ _ Hfile Hr) as (σ' & Hrun & Hres).
      exists σ'. rewrite Hres. auto.
    + destruct (serveTranspiledFile_diagnostic _ _ _ _ Hfile Hr) as (σ' & Hrun & Hres).
      exists σ'. rewrite Hres. auto.
  - destruct (serveTranspiledFile_unreadable fp σ) as (σ' & e & Hrun & Hres);
      [by rewrite Hfile|].
    exists σ'. rewrite Hres. auto.
  - destruct (serveTranspiledFile_unreadable fp σ) as (σ' & e & Hrun & Hres);
      [by rewrite Hfile|].
    exists σ'. rewrite Hres. auto.
Qed.

(** What [serveStaticFile] sends for the bytes [content] of a file. *)
Lemma serveStaticFile_found fp ext σ content :
  disk_entry (fs σ) fp = Some (File true content) →
  ∃ σ', serveStaticFile fp ext σ = (Returned (), σ') ∧
        res σ' =
          response_static (default "application/octet-stream" (MIME_TYPES !! ext))
            (if bool_decide (ext = ".html") && liveReload (this σ) then
               if Js.includes "</body>" (Buffer.toString content)
               then Js.replace "</body>" (LIVE_RELOAD_SCRIPT +:+ "</body>")
                      (Buffer.toString content)
               else Buffer.toString content +:+ LIVE_RELOAD_SCRIPT
             else content).
Proof.
  intros Hfile. unfold serveStaticFile.
  rewrite bind_run, (fs_readFile_found _ _ _ Hfile).
  eexists. split; [reflexivity|done].
Qed.

Lemma serveStaticFile_fails fp ext σ :
  (∀ data, disk_entry (fs σ) fp ≠ Some (File true data)) →
  ∃ e, serveStaticFile fp ext σ = (Thrown e, σ).
Proof.
  intros Hfile. destruct (fs_readFile_fails _ _ Hfile) as [e He].
  exists e. unfold serveStaticFile. by rewrite bind_run, He.
Qed.

(** *** The cases of [respond] *)

Lemma respond_missing pathname q σ :
  disk_entry (fs σ) q = None → respond pathname q σ = send404 pathname σ.
Proof.
  intros Hq. destruct (fs_access_missing _ _ Hq) as [e He].
  unfold respond. by rewrite try_catch_run, bind_run, He.
Qed.

Lemma respond_transpiled pathname q σ n :
  disk_entry (fs σ) q = Some n →
  Js.toLowerCase (path.extname q) ∈ TRANSPILE_EXTENSIONS →
  respond pathname q σ = serveTranspiledFile q σ.
Proof.
  intros Hq Hext. unfold respond.
  rewrite try_catch_run, bind_run, (fs_access_found _ _ _ Hq).
  rewrite bool_decide_eq_true_2 by done.
  destruct (serveTranspiledFile_returns q σ) as (σ' & -> & _). done.
Qed.

(** A [.js] path that exists: the [.ts] and then the [.tsx] sibling are
    tried, and nothing else. *)
Lemma respond_js pathname q σ n alt :
  disk_entry (fs σ) q = Some n →
  Js.toLowerCase (path.extname q) = ".js" →
  first_existing (fs σ)
    [Js.replace_js_suffix ".ts" q; Js.replace_js_suffix ".tsx" q] = Some alt →
  respond pathname q σ = serveTranspiledFile alt σ.
Proof.
  intros Hq Hext Halt. unfold respond. rewrite Hext.
  rewrite try_catch_run, bind_run, (fs_access_found _ _ _ Hq).
  change (bool_decide (".js" ∈ TRANSPILE_EXTENSIONS)) with false. cbv iota.
  rewrite decide_True by done.
  rewrite bind_run, try_catch_run, bind_run.
  unfold first_existing in Halt.
  destruct (disk_entry (fs σ) (Js.replace_js_suffix ".ts" q)) as [m|] eqn:Hts.
  - rewrite filter_cons_True in Halt by (by rewrite Hts). injection Halt as <-.
    rewrite (fs_access_found _ _ _ Hts), bind_run.
    destruct (serveTranspiledFile_returns (Js.replace_js_suffix ".ts" q) σ)
      as (σ' & -> & _). done.
  - rewrite filter_cons_False in Halt by (rewrite Hts; by intros [? ?]).
    destruct (fs_access_missing _ _ Hts) as [e ->].
    rewrite try_catch_run, bind_run.
    destruct (disk_entry (fs σ) (Js.replace_js_suffix ".tsx" q)) as [m|] eqn:Htsx.
    + rewrite filter_cons_True in Halt by (by rewrite Htsx). injection Halt as <-.
      rewrite (fs_access_found _ _ _ Htsx), bind_run.
      destruct (serveTranspiledFile_returns (Js.replace_js_suffix ".tsx" q) σ)
        as (σ' & -> & _). done.
    + rewrite filter_cons_False in Halt by (rewrite Htsx; by intros [? ?]). done.
Qed.

Lemma respond_js_sibling pathname x σ n alt :
  disk_entry (fs σ) (x +:+ ".js") = Some n →
  path.extname (x +:+ ".js") = ".js" →
  first_existing (fs σ) [x +:+ ".ts"; x +:+ ".tsx"] = Some alt →
  respond pathname (x +:+ ".js") σ = serveTranspiledFile alt σ.
Proof.
  intros Hq Hext Halt. apply (respond_js _ _ _ n); [done|by rewrite Hext|].
  by rewrite !JsFacts.replace_js_suffix_app.
Qed.

Lemma respond_static pathname q σ n :
  disk_entry (fs σ) q = Some n →
  served_statically (fs σ) q →
  respond pathname q σ =
    try_catch (serveStaticFile q (Js.toLowerCase (path.extname q)))
              (λ _, send404 pathname) σ.
Proof.
  intros Hq [Hext Hjs]. unfold respond.
  rewrite !try_catch_run, bind_run, (fs_access_found _ _ _ Hq).
  rewrite bool_decide_eq_false_2 by done.
  rewrite bind_run. case_decide as Hdotjs; [|done].
  destruct (Hjs Hdotjs) as [Hts Htsx].
  destruct (fs_access_missing _ _ Hts) as [e1 He1].
  destruct (fs_access_missing _ _ Htsx) as [e2 He2].
  by rewrite !try_catch_run, !bind_run, He1, try_catch_run, bind_run, He2.
Qed.

(** A located path that is a readable file is answered without the
    404 page, whatever the request path was. *)
Lemma respond_readable q σ data :
  disk_entry (fs σ) q = Some (File true data) →
  ∃ σ', ∀ pathname, respond pathname q σ = (Returned (), σ').
Proof.
  intros Hq.
  destruct (decide (Js.toLowerCase (path.extname q) ∈ TRANSPILE_EXTENSIONS)) as [Hext|Hext].
  { destruct (serveTranspiledFile_returns q σ) as (σ' & Hrun & _).
    exists σ'. intros pathname. by rewrite (respond_transpiled _ _ _ _ Hq). }
  destruct (decide (served_statically (fs σ) q)) as [Hstatic|Hstatic].
  { destruct (serveStaticFile_found q (Js.toLowerCase (path.extname q)) σ data Hq)
      as (σ' & Hrun & _).
    exists σ'. intros pathname.
    by rewrite (respond_static _ _ _ _ Hq Hstatic), try_catch_run, Hrun. }
  assert (Js.toLowerCase (path.extname q) = ".js" ∧
          ∃ alt, first_existing (fs σ)
            [Js.replace_js_suffix ".ts" q; Js.replace_js_suffix ".tsx" q] = Some alt)
    as [Hjs [alt Halt]].
  { unfold served_statically in Hstatic.
    destruct (decide (Js.toLowerCase (path.extname q) = ".js")) as [Hjs|Hjs];
      [|by destruct Hstatic].
    split; [done|]. unfold first_existing.
    destruct (disk_entry (fs σ) (Js.replace_js_suffix ".ts" q)) as [m|] eqn:Hts.
    { eexists. rewrite filter_cons_True by (by rewrite Hts). done. }
    destruct (disk_entry (fs σ) (Js.replace_js_suffix ".tsx" q)) as [m|] eqn:Htsx.
    { eexists. rewrite filter_cons_False by (rewrite Hts; by intros [? ?]).
      rewrite filter_cons_True by (by rewrite Htsx). done. }
    by destruct Hstatic. }
  destruct (serveTranspiledFile_returns alt σ) as (σ' & Hrun & _).
  exists σ'. intros pathname. by rewrite (respond_js _ _ _ _ _ Hq Hjs Halt).
Qed.

End Responses.

(** ** Requests *)

Section Requests.
Context `{Esbuild}.

Lemma handle_pathname_run pathname σ :
  pathname ≠ WS_ENDPOINT →
  handle_pathname pathname σ =
    respond pathname (located (fs σ) (path.join (rootDir (this σ)) pathname)) σ.
Proof.
  intros Hp. unfold handle_pathname. rewrite decide_False by done.
  rewrite bind_run. unfold gets. cbv beta iota.
  by rewrite bind_run, locate_run.
Qed.

Lemma serve_run p σ :
  request_pathname p ≠ WS_ENDPOINT →
  serve p σ =
    respond (request_pathname p)
      (located (fs σ) (path.join (rootDir (this σ)) (request_pathname p)))
      (with_res (λ _, fresh_response) σ).
Proof. intros Hp. unfold serve. by rewrite handle_pathname_run. Qed.

(** Serving leaves the server object and the tree as they were. *)
Lemma serve_preserves p σ :
  this (serve p σ).2 = this σ ∧ fs (serve p σ).2 = fs σ ∧
  busy_ports (serve p σ).2 = busy_ports σ ∧ sockets (serve p σ).2 = sockets σ.
Proof.
  destruct (local_handle_pathname (request_pathname p)) as [Hkeep _].
  apply (Hkeep (with_res (λ _, fresh_response) σ)).
Qed.

(** So does a request whose path is still to be decoded, whether it
    decodes or not. *)
Lemma request_preserves p σ :
  this (request p σ).2 = this σ ∧ fs (request p σ).2 = fs σ ∧
  busy_ports (request p σ).2 = busy_ports σ ∧ sockets (request p σ).2 = sockets σ.
Proof.
  destruct (local_handleRequest p) as [Hkeep _].
  apply (Hkeep (with_res (λ _, fresh_response) σ)).
Qed.

Lemma first_existing_Some tree candidates q :
  first_existing tree candidates = Some q →
  q ∈ candidates ∧ is_Some (disk_entry tree q).
Proof.
  unfold first_existing. intros Hq%head_Some_elem_of.
  by apply list_elem_of_filter in Hq as [? ?].
Qed.

Lemma not_found_404 σ p :
  request_pathname p ≠ WS_ENDPOINT →
  disk_entry (fs σ)
    (located (fs σ) (path.join (rootDir (this σ)) (request_pathname p))) = None →
  ∃ σ', serve p σ = (Returned (), σ') ∧ res σ' = response_404 (request_pathname p).
Proof.
  intros Hp Hq. rewrite serve_run by done.
  rewrite respond_missing by done. apply send404_run.
Qed.

(** C8 (as amended). A request that reaches resolution and whose
    resolved path does not exist on disk, or whose resolved path is
    answered by the static-file path and cannot be read, gets status 404
    with content type [text/html] and a body that contains the requested
    path; the handler returns and the server object is unchanged. *)
Theorem C8_missing_or_unreadable_static_is_404 σ p :
  request_pathname p ≠ WS_ENDPOINT →
  (disk_entry (fs σ)
     (located (fs σ) (path.join (rootDir (this σ)) (request_pathname p))) = None
   ∨ (served_statically (fs σ)
        (located (fs σ) (path.join (rootDir (this σ)) (request_pathname p)))
      ∧ ∀ data,
          disk_entry (fs σ)
            (located (fs σ) (path.join (rootDir (this σ)) (request_pathname p)))
          ≠ Some (File true data))) →
  ∃ σ', serve p σ = (Returned (), σ') ∧
        statusCode (res σ') = Some 404 ∧
        header "Content-Type" (res σ') = Some (HStr "text/html") ∧
        (∃ before after,
           body (res σ') = Some (before +:+ request_pathname p +:+ after)) ∧
        this σ' = this σ.
Proof.
  intros Hp Hcase.
  assert (∃ σ', serve p σ = (Returned (), σ') ∧
                res σ' = response_404 (request_pathname p)) as (σ' & Hrun & Hres).
  { destruct Hcase as [Hmissing|[Hstatic Hread]]; [by apply not_found_404|].
    destruct (disk_entry (fs σ)
      (located (fs σ) (path.join (rootDir (this σ)) (request_pathname p))))
      as [n|] eqn:Hq; [|by apply not_found_404].
    rewrite serve_run, (respond_static _ _ _ n), try_catch_run by done.
    destruct (serveStaticFile_fails
      (located (fs σ) (path.join (rootDir (this σ)) (request_pathname p)))
      (Js.toLowerCase (path.extname
        (located (fs σ) (path.join (rootDir (this σ)) (request_pathname p)))))
      (with_res (λ _, fresh_response) σ)) as [e ->].
    { intros data. simpl. rewrite Hq. apply Hread. }
    apply send404_run. }
  exists σ'. split; [done|]. rewrite Hres. split_and!; try done.
  - by exists page404_before, page404_after.
  - pose proof (serve_preserves p σ) as [Hthis _]. by rewrite Hrun in Hthis.
Qed.

(** C10 (as amended). A request whose resolved path names an existing
    file with extension [.ts], [.tsx] or [.jsx] is answered by the
    transpiler path: 200 with [application/javascript] and the
    transpiler's output when the file is read and transpiled, 500 with the
    diagnostic when the transpiler rejects it or the file cannot be
    read. *)
Theorem C10_source_file_goes_through_transpiler σ p readable data :
  request_pathname p ≠ WS_ENDPOINT →
  disk_entry (fs σ)
    (located (fs σ) (path.join (rootDir (this σ)) (request_pathname p)))
    = Some (File readable data) →
  Js.toLowerCase (path.extname
    (located (fs σ) (path.join (rootDir (this σ)) (request_pathname p))))
    ∈ TRANSPILE_EXTENSIONS →
  ∃ σ', serve p σ = (Returned (), σ') ∧
    match readable,
          esbuild_transform (Buffer.toString data)
            (transform_options
               (located (fs σ) (path.join (rootDir (this σ)) (request_pathname p))))
    with
    | true, Ok r => res σ' = response_javascript (code r)
    | true, Failed e =>
        res σ' = response_diagnostic
          (Error ("Failed to transpile "
                  +:+ located (fs σ) (path.join (rootDir (this σ)) (request_pathname p))
                  +:+ ": " +:+ err_message e))
    | false, _ => ∃ e, res σ' = response_diagnostic e
    end.
Proof.
  intros Hp Hq Hext.
  rewrite serve_run by done.
  rewrite (respond_transpiled _ _ (with_res (λ _, fresh_response) σ) _ Hq) by done.
  set (q := located _ _) in *.
  destruct readable.
  - destruct (esbuild_transform (Buffer.toString data) (transform_options q)) as [r|e] eqn:Hr.
    + by apply (serveTranspiledFile_ok q (with_res _ σ) data r).
    + by apply (serveTranspiledFile_diagnostic q (with_res _ σ) data e).
  - destruct (serveTranspiledFile_unreadable q (with_res (λ _, fresh_response) σ))
      as (σ' & e & Hrun & Hres).
    { intros d. simpl. by rewrite Hq. }
    exists σ'. split; [done|].
    destruct (esbuild_transform (Buffer.toString data) (transform_options q)); eauto.
Qed.

Lemma request_pathname_nonempty p : request_pathname p ≠ "".
Proof. unfold request_pathname. by case_decide. Qed.

Lemma request_pathname_id p : p ≠ "" → request_pathname p = p.
Proof. intros Hp. unfold request_pathname. by rewrite decide_False. Qed.

Lemma index_path_not_endpoint p : p +:+ "/index.html" ≠ WS_ENDPOINT.
Proof.
  intros Heq. apply (f_equal (Js.endsWith "l")) in Heq.
  rewrite (JsFacts.endsWith_char_app "l" p "/index.html") in Heq by done.
  done.
Qed.

(** C1 (as amended). The joined, normalized path of a request lies
    inside an absolute root whenever the request path has no [..]
    component. The handler makes no containment check of its own: whether
    or not the joined path lies inside the root, the request is treated as
    not-found (404 naming the request path) when nothing exists at the
    path it resolves to, and is answered 200 when that path is a readable
    file of the static kind. *)
Theorem C1_inside_root_without_dotdot σ p :
  path.isAbsolute (rootDir (this σ)) = true →
  request_pathname p ≠ WS_ENDPOINT →
  (".." ∉ Js.split "/" (request_pathname p) →
   inside (rootDir (this σ)) (path.join (rootDir (this σ)) (request_pathname p))) ∧
  (disk_entry (fs σ)
     (located (fs σ) (path.join (rootDir (this σ)) (request_pathname p))) = None →
   ∃ σ', serve p σ = (Returned (), σ') ∧ res σ' = response_404 (request_pathname p)) ∧
  (∀ data,
     disk_entry (fs σ)
       (located (fs σ) (path.join (rootDir (this σ)) (request_pathname p)))
     = Some (File true data) →
     served_statically (fs σ)
       (located (fs σ) (path.join (rootDir (this σ)) (request_pathname p))) →
     ∃ σ', serve p σ = (Returned (), σ') ∧ statusCode (res σ') = Some 200).
Proof.
  intros Habs Hp. split_and!.
  - intros Hup. by apply PathFacts.join_inside.
  - intros Hq. by apply not_found_404.
  - intros data Hq Hstatic. rewrite serve_run by done.
    rewrite (respond_static _ _ (with_res (λ _, fresh_response) σ) _ Hq Hstatic).
    rewrite try_catch_run.
    destruct (serveStaticFile_found _
      (Js.toLowerCase (path.extname
         (located (fs σ) (path.join (rootDir (this σ)) (request_pathname p)))))
      (with_res (λ _, fresh_response) σ) data Hq) as (σ' & -> & Hres).
    exists σ'. by rewrite Hres.
Qed.

(** C2 (as amended). For a request to [x.js]: when [x.js] does not
    exist, the first existing of [x.ts], [x.tsx], [x.jsx] is answered
    through the transpiler; when [x.js] exists as a file, the first
    existing of [x.ts], [x.tsx] is ([x.jsx] is not consulted). The answer
    is then that of [serveTranspiledFile] for that source: 200 with the
    transpiler's output when the source is read and transpiled. *)
Theorem C2_js_request_answered_from_source σ p x alt :
  request_pathname p ≠ WS_ENDPOINT →
  path.join (rootDir (this σ)) (request_pathname p) = x +:+ ".js" →
  path.extname (x +:+ ".js") = ".js" →
  disk_entry (fs σ) (x +:+ ".js") ≠ Some Dir →
  first_existing (fs σ)
    ((λ e, x +:+ e) <$>
       (if disk_entry (fs σ) (x +:+ ".js") is None
        then [".ts"; ".tsx"; ".jsx"] else [".ts"; ".tsx"])) = Some alt →
  serve p σ = serveTranspiledFile alt (with_res (λ _, fresh_response) σ) ∧
  ∀ data r,
    disk_entry (fs σ) alt = Some (File true data) →
    esbuild_transform (Buffer.toString data) (transform_options alt) = Ok r →
    ∃ σ', serve p σ = (Returned (), σ') ∧ res σ' = response_javascript (code r).
Proof.
  intros Hp Hjoin Hext Hnodir Halt.
  assert (serve p σ = serveTranspiledFile alt (with_res (λ _, fresh_response) σ)) as Hrun.
  { rewrite serve_run by done. rewrite Hjoin.
    pose proof (PathFacts.extname_app x "js") as Hx.
    change (x +:+ String "." "js") with (x +:+ ".js") in Hx.
    rewrite Hext in Hx. specialize (Hx ltac:(done) eq_refl eq_refl).
    destruct (decide (last_piece x = "")) as [|Hlast]; [done|]. clear Hx.
    unfold located.
    destruct (disk_entry (fs σ) (x +:+ ".js")) as [[|r d]|] eqn:Hjs; [done| |].
    - by apply (respond_js_sibling _ _ (with_res _ σ) (File r d)).
    - rewrite decide_True by done.
      rewrite (JsFacts.slice_to_neg_app x ".js" : Js.slice_to_neg 3 _ = _).
      rewrite Halt. simpl.
      destruct (first_existing_Some _ _ _ Halt) as [Hin [n Hn]].
      apply (respond_transpiled _ _ (with_res _ σ) n); [done|].
      rewrite !fmap_cons, fmap_nil in Hin.
      apply elem_of_cons in Hin as [->|Hin];
        [|apply elem_of_cons in Hin as [->|Hin];
          [|apply list_elem_of_singleton in Hin as ->]].
      + rewrite (PathFacts.extname_app x "ts") by done.
        rewrite decide_False by done. by apply (bool_decide_unpack _).
      + rewrite (PathFacts.extname_app x "tsx") by done.
        rewrite decide_False by done. by apply (bool_decide_unpack _).
      + rewrite (PathFacts.extname_app x "jsx") by done.
        rewrite decide_False by done. by apply (bool_decide_unpack _). }
  split; [done|]. intros data r Hfile Hr. rewrite Hrun.
  by apply (serveTranspiledFile_ok alt (with_res _ σ) data r).
Qed.

(** C3 (as amended). When the request path [p] reaches resolution and
    names an existing directory whose [index.html] is a readable regular
    file, serving [p] and serving [p/index.html] give the same outcome and
    the same state, response included. *)
Theorem C3_directory_serves_its_index σ p data :
  request_pathname p ≠ WS_ENDPOINT →
  disk_entry (fs σ) (path.join (rootDir (this σ)) (request_pathname p)) = Some Dir →
  disk_entry (fs σ)
    (path.join (path.join (rootDir (this σ)) (request_pathname p)) "index.html")
    = Some (File true data) →
  serve p σ = serve (request_pathname p +:+ "/index.html") σ.
Proof.
  intros Hp Hdir Hidx.
  set (pathname := request_pathname p) in *.
  assert (pathname ≠ "") as Hne by apply request_pathname_nonempty.
  assert (pathname +:+ "/index.html" ≠ "") as Hne'
    by (by intros [? _]%JsFacts.sapp_eq_nil).
  rewrite serve_run by done. fold pathname.
  rewrite (serve_run (pathname +:+ "/index.html"));
    rewrite (request_pathname_id _ Hne'); [|apply index_path_not_endpoint].
  rewrite <-(PathFacts.join_join _ pathname "index.html") by done.
  set (q := path.join (path.join _ pathname) "index.html") in *.
  assert (located (fs σ) (path.join (rootDir (this σ)) pathname) = q) as ->
    by (unfold located; by rewrite Hdir).
  assert (located (fs σ) q = q) as -> by (unfold located; by rewrite Hidx).
  destruct (respond_readable q (with_res (λ _, fresh_response) σ) data Hidx)
    as [σ' Hrun].
  by rewrite !Hrun.
Qed.

End Requests.

(** ** Serving twice *)

Section Idempotence.
Context `{Esbuild}.

(** What a request is answered depends on the server object and the
    tree only. *)
Lemma serve_agree p σ τ :
  this σ = this τ → fs σ = fs τ →
  (serve p σ).1 = (serve p τ).1 ∧ res (serve p σ).2 = res (serve p τ).2.
Proof.
  intros Hthis Hfs.
  destruct (local_handle_pathname (request_pathname p)) as [_ Hsame].
  destruct (Hsame (with_res (λ _, fresh_response) σ)
                  (with_res (λ _, fresh_response) τ)) as [Hout (_ & _ & Hres)];
    done.
Qed.

(** C9. Serving a request changes neither the tree nor the server
    object, and serving the same request again right after gives the same
    outcome and the same response, body included, whichever way the file
    is answered. *)
Theorem C9_serving_twice_gives_identical_responses σ p :
  fs (serve p σ).2 = fs σ ∧
  (serve p (serve p σ).2).1 = (serve p σ).1 ∧
  res (serve p (serve p σ).2).2 = res (serve p σ).2 ∧
  body (res (serve p (serve p σ).2).2) = body (res (serve p σ).2).
Proof.
  destruct (serve_preserves p σ) as (Hthis & Hfs & _).
  destruct (serve_agree p (serve p σ).2 σ Hthis Hfs) as [Hout Hres].
  by rewrite Hout, Hres.
Qed.

End Idempotence.

(** ** Starting, stopping and notifying *)

Section Lifecycle.
Context `{Esbuild}.

(** C5 (where the code fails it). The sample server has live reload on
    and its port 5500 is bound by another process. [start] is not rejected
    with the port-in-use error: the listener that [ws] put on the server
    runs before the one of lines 106-112 and throws the error of [listen]
    out of the emit, so the promise of [start] is never settled. The server
    does stay stopped. *)
Theorem C5_start_with_live_reload_on_bound_port_is_not_rejected :
  ∃ σ', start demo_port_taken =
          (Uncaught (listen_error "EADDRINUSE" 5500), σ') ∧
        start demo_port_taken
        ≠ (Thrown (Error ("Port " +:+ pretty 5500%N +:+ " is already in use")), σ') ∧
        isRunning σ' = (Returned false, σ') ∧
        busy_ports σ' = busy_ports demo_port_taken.
Proof. eexists. split; [by vm_compute|]. split; [|done]. by vm_compute. Qed.

(** *** The socket table *)

Lemma total_sent_alter (f : WebSocket → WebSocket) c w (table : gmap nat WebSocket) :
  table !! c = Some w →
  total_sent (alter f c table) + length (sent w)
  = total_sent table + length (sent (f w)).
Proof.
  intros Hc. unfold total_sent.
  rewrite (map_fold_delete_L _ _ c w table); [|intros; lia|done].
  rewrite (map_fold_delete_L _ _ c (f w) (alter f c table));
    [|intros; lia|by rewrite lookup_alter_eq, Hc].
  rewrite delete_alter_eq. lia.
Qed.

Lemma socket_state_alter f c d σ :
  (∀ w, readyState (f w) = readyState w) →
  socket_state d (with_sockets (alter f c) σ) = socket_state d σ.
Proof.
  intros Hf. unfold socket_state. simpl.
  destruct (decide (c = d)) as [->|Hne].
  - rewrite lookup_alter_eq. destruct (sockets σ !! d); simpl; [apply Hf|done].
  - by rewrite lookup_alter_ne.
Qed.

Lemma member_tail (c x : nat) (cs : list nat) (P : Prop) `{!Decision P} :
  c ≠ x → bool_decide (c ∈ x :: cs ∧ P) = bool_decide (c ∈ cs ∧ P).
Proof.
  intros Hne. apply bool_decide_ext. split; intros [Hc HP]; (split; [|done]).
  - by apply elem_of_cons in Hc as [?|?].
  - by right.
Qed.

Lemma open_among_all σ cs :
  (∀ c, c ∈ cs → socket_state c σ = OPEN) → open_among σ cs = cs.
Proof.
  unfold open_among. induction cs as [|x cs IH]; intros Hall; [done|].
  rewrite filter_cons_True by (apply Hall; by left).
  f_equal. apply IH. intros c Hc. apply Hall. by right.
Qed.

(** The loop of [notifyClients] over a list of distinct sockets. *)
Lemma notify_loop cs σ :
  NoDup cs →
  ∃ σ',
    for_of cs (λ client,
      st ← gets (socket_state client);
      if decide (st = OPEN) then ws_send client "reload" else pass) σ
    = (Returned (), σ') ∧
    this σ' = this σ ∧
    (∀ c, socket_state c σ' = socket_state c σ) ∧
    (∀ c, sockets σ' !! c =
          if bool_decide (c ∈ cs ∧ socket_state c σ = OPEN)
          then push_message "reload" <$> sockets σ !! c
          else sockets σ !! c) ∧
    total_sent (sockets σ') = total_sent (sockets σ) + length (open_among σ cs).
Proof.
  revert σ. induction cs as [|x cs IH]; intros σ Hnd.
  - exists σ. by split_and!.
  - apply NoDup_cons in Hnd as [Hx Hnd]. simpl.
    rewrite bind_run, bind_run. unfold gets at 1. cbv beta iota.
    unfold open_among. rewrite filter_cons. fold (open_among σ cs).
    destruct (decide (socket_state x σ = OPEN)) as [Hopen|Hopen].
    + unfold ws_send. rewrite bind_run. unfold gets at 1. cbv beta iota.
      rewrite Hopen. unfold modify at 1. cbv beta iota.
      set (σ1 := with_sockets (alter (push_message "reload") x) σ).
      assert (∀ c, socket_state c σ1 = socket_state c σ) as Hst
        by (intros c; by apply socket_state_alter).
      destruct (IH σ1 Hnd) as (σ' & Hrun & Hthis & Hstate & Hsock & Htotal).
      exists σ'. split_and!; [done|done|..].
      * intros c. by rewrite Hstate, Hst.
      * intros c. rewrite Hsock, Hst. subst σ1. simpl.
        destruct (decide (c = x)) as [->|Hne].
        -- rewrite bool_decide_eq_false_2 by (by intros [? _]).
           rewrite bool_decide_eq_true_2 by (split; [left|done]).
           by rewrite lookup_alter_eq.
        -- rewrite lookup_alter_ne by done.
           by rewrite (member_tail c x cs) by done.
      * rewrite Htotal. unfold open_among.
        rewrite (list_filter_iff _ (λ c, socket_state c σ = OPEN))
          by (intros c; by rewrite Hst).
        fold (open_among σ cs). simpl.
        unfold socket_state in Hopen.
        destruct (sockets σ !! x) as [w|] eqn:Hw; [|done].
        pose proof (total_sent_alter (push_message "reload") x w _ Hw) as Hal.
        subst σ1. simpl in *. rewrite length_app in Hal. simpl in Hal. lia.
    + unfold pass at 1, mret, M_ret. cbv beta iota.
      destruct (IH σ Hnd) as (σ' & Hrun & Hthis & Hstate & Hsock & Htotal).
      exists σ'. split_and!; [done|done|done|..|done].
      intros c. rewrite Hsock.
      destruct (decide (c = x)) as [->|Hne];
        [|by rewrite (member_tail c x cs) by done].
      by rewrite !bool_decide_eq_false_2 by (by intros [? ?]).
Qed.

(** C6. A broadcast over the connection set (a set: no socket is listed
    twice) hands the reload token exactly once to each listed socket that
    is open and to no other socket, changes no ready state and no other
    part of the server; the number of messages handed over grows by the
    number of open listed sockets, which is all [N] of them when all are
    open; and a socket accepted after the call has been handed
    nothing. *)
Theorem C6_broadcast_reaches_exactly_the_open_connections σ :
  NoDup (clients (this σ)) →
  ∃ σ', notifyClients σ = (Returned (), σ') ∧
    this σ' = this σ ∧
    (∀ c, socket_state c σ' = socket_state c σ) ∧
    (∀ c, sent_to c σ' =
          if bool_decide (c ∈ clients (this σ) ∧ socket_state c σ = OPEN)
          then sent_to c σ ++ ["reload"] else sent_to c σ) ∧
    total_sent (sockets σ')
      = total_sent (sockets σ) + length (open_among σ (clients (this σ))) ∧
    ((∀ c, c ∈ clients (this σ) → socket_state c σ = OPEN) →
     total_sent (sockets σ') = total_sent (sockets σ) + length (clients (this σ))) ∧
    (∀ w, sockets σ !! w = None →
          sent_to w (upgrade_accepted w σ').2 = [] ∧
          w ∈ clients (this (upgrade_accepted w σ').2)).
Proof.
  intros Hnd. unfold notifyClients. rewrite bind_run. unfold gets at 1. cbv beta iota.
  destruct (notify_loop (clients (this σ)) σ Hnd)
    as (σ' & Hrun & Hthis & Hstate & Hsock & Htotal).
  exists σ'. split_and!; try done.
  - intros c. unfold sent_to. rewrite Hsock.
    case_bool_decide as Hc; [|done].
    destruct Hc as [_ Hopen]. unfold socket_state in Hopen.
    by destruct (sockets σ !! c).
  - intros Hall. by rewrite Htotal, open_among_all.
  - intros w Hw. unfold upgrade_accepted, on_connection, modify, sent_to.
    rewrite bind_run. simpl. rewrite lookup_insert_eq. split; [done|].
    case_bool_decide; [done|]. simpl. apply elem_of_app. right. by left.
Qed.

(** The loop of [stop] over the connection set. *)
Lemma close_loop cs σ :
  ∃ σ', for_of cs ws_close σ = (Returned (), σ') ∧
    this σ' = this σ ∧ busy_ports σ' = busy_ports σ ∧
    (∀ c, socket_state c σ = CLOSING ∨ socket_state c σ = CLOSED →
          socket_state c σ' = CLOSING ∨ socket_state c σ' = CLOSED) ∧
    (∀ c, c ∈ cs → socket_state c σ' = CLOSING ∨ socket_state c σ' = CLOSED).
Proof.
  revert σ. induction cs as [|x cs IH]; intros σ.
  - exists σ. split_and!; try done. by intros c ?%elem_of_nil.
  - simpl. rewrite bind_run. unfold ws_close at 1, modify. cbv beta iota.
    set (σ1 := with_sockets (alter begin_close x) σ).
    assert (∀ c, socket_state c σ = CLOSING ∨ socket_state c σ = CLOSED →
                 socket_state c σ1 = CLOSING ∨ socket_state c σ1 = CLOSED) as Hkeep.
    { intros c. unfold socket_state. subst σ1. simpl.
      destruct (decide (x = c)) as [->|Hne]; [|by rewrite lookup_alter_ne].
      rewrite lookup_alter_eq.
      destruct (sockets σ !! c) as [[[] msgs]|]; simpl; auto. }
    assert (socket_state x σ1 = CLOSING ∨ socket_state x σ1 = CLOSED) as Hx.
    { unfold socket_state. subst σ1. simpl. rewrite lookup_alter_eq.
      destruct (sockets σ !! x) as [[[] msgs]|]; simpl; auto. }
    destruct (IH σ1) as (σ' & Hrun & Hthis & Hbusy & Hinv & Hcs).
    exists σ'. split_and!; try done.
    + intros c Hc. by apply Hinv, Hkeep.
    + intros c [->|Hc]%elem_of_cons; [by apply Hinv|by apply Hcs].
Qed.

(** C7. [stop] on a running, listening server closes every socket of
    the connection set before it returns, empties the set and leaves the
    server stopped; a [notifyClients] after that changes nothing. *)
Theorem C7_stop_closes_every_client_and_silences_broadcast σ h :
  running (this σ) = true →
  server (this σ) = Some h →
  listening h = true →
  ∃ σ', stop σ = (Returned (), σ') ∧
    (∀ c, c ∈ clients (this σ) → socket_state c σ' = CLOSED) ∧
    clients (this σ') = [] ∧
    running (this σ') = false ∧
    notifyClients σ' = (Returned (), σ').
Proof.
  intros Hrunning Hserver Hlistening.
  unfold stop. rewrite bind_run. unfold gets at 1. cbv beta iota.
  rewrite bind_run.
  destruct (close_loop (clients (this σ)) σ) as (σ1 & -> & Hthis & _ & _ & Hclosing).
  rewrite <-Hthis in Hserver. clear Hthis Hrunning.
  destruct σ1 as [[srv w cs r root p lr] tree busy socks out rs].
  destruct h as [l]. simpl in Hserver, Hlistening. subst srv l.
  unfold http_close, notifyClients, gets, modify, pass.
  unfold mbind, M_bind, mret, M_ret. simpl.
  assert (∀ c, c ∈ clients (this σ) →
            match end_close <$> socks !! c with
            | Some w => readyState w
            | None => CLOSED
            end = CLOSED) as Hclosed.
  { intros c Hc. specialize (Hclosing c Hc). unfold socket_state in Hclosing.
    simpl in Hclosing. destruct (socks !! c) as [[st msgs]|]; simpl in *; [|done].
    unfold end_close. simpl. by destruct Hclosing as [->| ->]. }
  destruct w; simpl; eexists;
    (split; [reflexivity|]); split_and!; try done;
    intros c Hc; unfold socket_state; simpl; rewrite lookup_fmap; by apply Hclosed.
Qed.

End Lifecycle.

(** ** The live-reload snippet *)

Section Snippet.
Context `{Esbuild}.




End Snippet.

(** ** The properties on the sample tree *)

(** C1 as stated fails: with root [/srv/www], the request [/../secret.txt]
    joins to [/srv/secret.txt], outside the root, and is answered 200 with
    the bytes of that file. *)
Lemma C1_traversal_serves_a_file_above_root :
  ¬ inside "/srv/www" (path.join "/srv/www" "/../secret.txt") ∧
  path.join "/srv/www" "/../secret.txt" = "/srv/secret.txt" ∧
  res (@serve demo_esbuild "/../secret.txt" demo_state).2
  = response_static "text/plain" "top secret" ∧
  statusCode (res (@serve demo_esbuild "/../secret.txt" demo_state).2) ≠ Some 404.
Proof.
  split_and!.
  - apply (bool_decide_eq_false_1 _). by vm_compute.
  - by vm_compute.
  - by vm_compute.
  - by vm_compute.
Qed.

(** C1 (as amended) on the request [/docs/guide.html]. *)
Lemma C1_inside_root_without_dotdot_witness :
  (".." ∉ Js.split "/" "/docs/guide.html" →
   inside "/srv/www" (path.join "/srv/www" "/docs/guide.html")) ∧
  (disk_entry demo_tree (located demo_tree (path.join "/srv/www" "/docs/guide.html")) = None →
   ∃ σ', @serve demo_esbuild "/docs/guide.html" demo_state = (Returned (), σ') ∧
         res σ' = response_404 "/docs/guide.html") ∧
  (∀ data,
     disk_entry demo_tree (located demo_tree (path.join "/srv/www" "/docs/guide.html"))
     = Some (File true data) →
     served_statically demo_tree
       (located demo_tree (path.join "/srv/www" "/docs/guide.html")) →
     ∃ σ', @serve demo_esbuild "/docs/guide.html" demo_state = (Returned (), σ') ∧
           statusCode (res σ') = Some 200).
Proof.
  apply (@C1_inside_root_without_dotdot demo_esbuild demo_state "/docs/guide.html").
  - reflexivity.
  - by vm_compute.
Defined.

(** C2 as stated fails: with [app.js] and [app.jsx] on disk and neither
    [app.ts] nor [app.tsx], the request [/app.js] is answered with the
    literal bytes of [app.js], not with the transpilation of [app.jsx]. *)
Lemma C2_existing_js_hides_only_jsx_source :
  path.join "/srv/www" "/app.js" = "/srv/www/app" +:+ ".js" ∧
  path.extname ("/srv/www/app" +:+ ".js") = ".js" ∧
  disk_entry demo_tree "/srv/www/app.js" = Some (File true "old();") ∧
  first_existing demo_tree
    ["/srv/www/app.ts"; "/srv/www/app.tsx"; "/srv/www/app.jsx"] = Some "/srv/www/app.jsx" ∧
  disk_entry demo_tree "/srv/www/app.jsx" = Some (File true "export const a = 1;") ∧
  @esbuild_transform demo_esbuild (Buffer.toString "export const a = 1;")
    (transform_options "/srv/www/app.jsx")
  = Ok (mkResult "/* jsx */ export const a = 1;" []) ∧
  res (@serve demo_esbuild "/app.js" demo_state).2
  = response_static "application/javascript" "old();" ∧
  body (res (@serve demo_esbuild "/app.js" demo_state).2)
  ≠ Some "/* jsx */ export const a = 1;".
Proof. split_and!; by vm_compute. Qed.

(** C2 (as amended) on the request [/main.js], where only [main.ts]
    exists. *)
Lemma C2_js_request_answered_from_source_witness :
  @serve demo_esbuild "/main.js" demo_state
  = @serveTranspiledFile demo_esbuild "/srv/www/main.ts"
      (with_res (λ _, fresh_response) demo_state) ∧
  ∀ data r,
    disk_entry demo_tree "/srv/www/main.ts" = Some (File true data) →
    @esbuild_transform demo_esbuild (Buffer.toString data)
      (transform_options "/srv/www/main.ts") = Ok r →
    ∃ σ', @serve demo_esbuild "/main.js" demo_state = (Returned (), σ') ∧
          res σ' = response_javascript (code r).
Proof.
  apply (@C2_js_request_answered_from_source demo_esbuild demo_state
           "/main.js" "/srv/www/main" "/srv/www/main.ts").
  - by vm_compute.
  - by vm_compute.
  - by vm_compute.
  - by vm_compute.
  - by vm_compute.
Defined.

(** C3 as stated fails: [docs] is a directory that contains
    [index.html], which cannot be read. The requests [/docs] and
    [/docs/index.html] are both answered with the 404 page, and each page
    names the path of its own request, so the two responses differ. *)
Lemma C3_unreadable_index_gives_two_different_pages :
  disk_entry demo_tree_locked_index (path.join "/srv/www" "/docs") = Some Dir ∧
  disk_entry demo_tree_locked_index (path.join (path.join "/srv/www" "/docs") "index.html")
  = Some (File false "<p>docs</p>") ∧
  res (@serve demo_esbuild "/docs" demo_state_locked_index).2 = response_404 "/docs" ∧
  res (@serve demo_esbuild "/docs/index.html" demo_state_locked_index).2
  = response_404 "/docs/index.html" ∧
  @serve demo_esbuild "/docs" demo_state_locked_index
  ≠ @serve demo_esbuild "/docs/index.html" demo_state_locked_index.
Proof. split_and!; by vm_compute. Qed.

(** C3 (as amended) on the directory [/docs]. *)
Lemma C3_directory_serves_its_index_witness :
  @serve demo_esbuild "/docs" demo_state
  = @serve demo_esbuild "/docs/index.html" demo_state.
Proof.
  apply (@C3_directory_serves_its_index demo_esbuild demo_state "/docs" "<p>docs</p>").
  - by vm_compute.
  - by vm_compute.
  - by vm_compute.
Defined.



(** C6 on the running sample server with its three open connections. *)
Lemma C6_broadcast_reaches_exactly_the_open_connections_witness :
  ∃ σ', notifyClients demo_running = (Returned (), σ') ∧
    this σ' = this demo_running ∧
    (∀ c, socket_state c σ' = socket_state c demo_running) ∧
    (∀ c, sent_to c σ' =
          if bool_decide (c ∈ [1; 2; 3] ∧ socket_state c demo_running = OPEN)
          then sent_to c demo_running ++ ["reload"] else sent_to c demo_running) ∧
    total_sent (sockets σ')
      = total_sent demo_sockets + length (open_among demo_running [1; 2; 3]) ∧
    ((∀ c, c ∈ [1; 2; 3] → socket_state c demo_running = OPEN) →
     total_sent (sockets σ') = total_sent demo_sockets + 3) ∧
    (∀ w, demo_sockets !! w = None →
          sent_to w (upgrade_accepted w σ').2 = [] ∧
          w ∈ clients (this (upgrade_accepted w σ').2)).
Proof.
  apply (C6_broadcast_reaches_exactly_the_open_connections demo_running).
  apply (bool_decide_unpack _). by vm_compute.
Defined.

(** C7 on the running sample server with its three open connections. *)
Lemma C7_stop_closes_every_client_and_silences_broadcast_witness :
  ∃ σ', stop demo_running = (Returned (), σ') ∧
    (∀ c, c ∈ [1; 2; 3] → socket_state c σ' = CLOSED) ∧
    clients (this σ') = [] ∧
    running (this σ') = false ∧
    notifyClients σ' = (Returned (), σ').
Proof.
  apply (C7_stop_closes_every_client_and_silences_broadcast demo_running
           {| listening := true |}).
  - reflexivity.
  - reflexivity.
  - reflexivity.
Defined.

(** C8 as stated fails: [locked.ts] exists and cannot be read; the
    request [/locked.ts] is answered 500 with a plain-text diagnostic, not
    404. *)
Lemma C8_unreadable_source_is_500_not_404 :
  request_pathname "/locked.ts" ≠ WS_ENDPOINT ∧
  located demo_tree (path.join "/srv/www" "/locked.ts") = "/srv/www/locked.ts" ∧
  disk_entry demo_tree "/srv/www/locked.ts" = Some (File false "let y = 2;") ∧
  (fs_readFile "/srv/www/locked.ts" demo_state).1
  = Thrown (SystemError "EACCES" "permission denied, open '/srv/www/locked.ts'") ∧
  statusCode (res (@serve demo_esbuild "/locked.ts" demo_state).2) = Some 500 ∧
  header "Content-Type" (res (@serve demo_esbuild "/locked.ts" demo_state).2)
  = Some (HStr "text/plain").
Proof. split_and!; by vm_compute. Qed.

(** C8 (as amended) on the request [/missing.png]. *)
Lemma C8_missing_or_unreadable_static_is_404_witness :
  ∃ σ', @serve demo_esbuild "/missing.png" demo_state = (Returned (), σ') ∧
        statusCode (res σ') = Some 404 ∧
        header "Content-Type" (res σ') = Some (HStr "text/html") ∧
        (∃ before after, body (res σ') = Some (before +:+ "/missing.png" +:+ after)) ∧
        this σ' = this demo_state.
Proof.
  apply (@C8_missing_or_unreadable_static_is_404 demo_esbuild demo_state "/missing.png").
  - by vm_compute.
  - left. by vm_compute.
Defined.

(** C10 as stated fails: [bad.ts] exists and is rejected by the
    transpiler; the request [/bad.ts] is answered 500 with a plain-text
    diagnostic, not 200. *)
Lemma C10_rejected_source_is_500_not_200 :
  request_pathname "/bad.ts" ≠ WS_ENDPOINT ∧
  located demo_tree (path.join "/srv/www" "/bad.ts") = "/srv/www/bad.ts" ∧
  disk_entry demo_tree "/srv/www/bad.ts" = Some (File true "let = syntax error;") ∧
  Js.toLowerCase (path.extname "/srv/www/bad.ts") ∈ TRANSPILE_EXTENSIONS ∧
  statusCode (res (@serve demo_esbuild "/bad.ts" demo_state).2) = Some 500 ∧
  header "Content-Type" (res (@serve demo_esbuild "/bad.ts" demo_state).2)
  = Some (HStr "text/plain").
Proof.
  split_and!; try by vm_compute.
  apply (bool_decide_unpack _). by vm_compute.
Qed.

(** C10 (as amended) on the request [/main.ts]. *)
Lemma C10_source_file_goes_through_transpiler_witness :
  ∃ σ', @serve demo_esbuild "/main.ts" demo_state = (Returned (), σ') ∧
        res σ' = response_javascript "/* ts */ let x: number = 1;".
Proof.
  apply (@C10_source_file_goes_through_transpiler demo_esbuild demo_state
           "/main.ts" true "let x: number = 1;").
  - by vm_compute.
  - by vm_compute.
  - apply (bool_decide_unpack _). by vm_compute.
Defined.

(* ===================================================================== *)
(** * Further properties of the code *)
(* ===================================================================== *)

(** ** [start] and [stop] *)

Section MoreLifecycle.
Context `{Esbuild}.

(** X1. [start] on a port that is free resolves: the server object is
    running with a listening server, the socket server exists exactly when
    live reload is on (or existed before), the port is now taken, and the
    two lines of the listen callback are logged. *)
Theorem start_on_free_port_runs σ :
  busy_ports σ !! port (this σ) = None →
  ∃ σ', start σ = (Returned (), σ') ∧
    isRunning σ' = (Returned true, σ') ∧
    server (this σ') = Some {| listening := true |} ∧
    wss (this σ') = (if liveReload (this σ) then Some AttachedWss else wss (this σ)) ∧
    clients (this σ') = clients (this σ) ∧
    busy_ports σ' = <[port (this σ) := "EADDRINUSE"]> (busy_ports σ) ∧
    console σ' = console σ ++
      ["TS Live Server running at http://localhost:" +:+ pretty (port (this σ));
       "Serving files from: " +:+ rootDir (this σ)] ∧
    fs σ' = fs σ ∧ sockets σ' = sockets σ.
Proof.
  intros Hfree.
  destruct σ as [[srv w cs r root p lr] tree busy socks out rs].
  simpl in Hfree.
  unfold start, http_listen, isRunning, console_print, gets, modify, throw, pass.
  unfold mbind, M_bind, mret, M_ret. simpl.
  destruct lr; simpl; rewrite Hfree; simpl; eexists;
    (split; [reflexivity|]); simpl; split_and!; try done;
    by rewrite <-List.app_assoc.
Qed.

(** What [start] does when [listen] fails. *)
Lemma start_fails_run σ code :
  busy_ports σ !! port (this σ) = Some code →
  start σ =
    ((if liveReload (this σ)
      then Uncaught (listen_error code (port (this σ)))
      else Thrown (if decide (code = "EADDRINUSE")
                   then Error ("Port " +:+ pretty (port (this σ)) +:+ " is already in use")
                   else listen_error code (port (this σ)))),
     mkState
       (mkLiveServer (Some {| listening := false |})
          (if liveReload (this σ) then Some AttachedWss else wss (this σ))
          (clients (this σ)) (running (this σ)) (rootDir (this σ)) (port (this σ))
          (liveReload (this σ)))
       (fs σ) (busy_ports σ) (sockets σ) (console σ) (res σ)).
Proof.
  intros Hbusy.
  destruct σ as [[srv w cs r root p lr] tree busy socks out rs].
  simpl in Hbusy.
  unfold start, http_listen, wss_forward_error, uncaught, console_print, gets, modify,
    throw, pass.
  unfold mbind, M_bind, mret, M_ret. simpl.
  destruct lr; simpl; rewrite Hbusy; simpl; [done|].
  unfold listen_error. simpl.
  destruct (decide (code = "EADDRINUSE")) as [->|Hne].
  - by rewrite decide_True.
  - by rewrite decide_False by (intros [= ?]; done).
Qed.

(** What [stop] does with a server that is not listening. *)
Lemma stop_not_listening σ :
  server (this σ) = Some {| listening := false |} →
  ∃ e σ', stop σ = (Thrown e, σ') ∧
    err_code e = Some "ERR_SERVER_NOT_RUNNING" ∧
    server (this σ') = Some {| listening := false |} ∧
    running (this σ') = running (this σ) ∧
    busy_ports σ' = busy_ports σ.
Proof.
  intros Hsrv. unfold stop. rewrite bind_run. unfold gets at 1. cbv beta iota.
  rewrite bind_run.
  destruct (close_loop (clients (this σ)) σ) as (σ1 & -> & Hthis & Hbusy & _ & _).
  rewrite <-Hthis in Hsrv. rewrite <-Hthis, <-Hbusy. clear Hthis Hbusy.
  destruct σ1 as [[srv w cs r root p lr] tree busy socks out rs].
  simpl in Hsrv. subst srv.
  unfold http_close, gets, modify, throw, pass. unfold mbind, M_bind, mret, M_ret. simpl.
  destruct w; simpl; eexists _, _; by split_and!.
Qed.

(** X2. When [listen] fails, with whatever errno: with live reload off
    [start] rejects, with the port-in-use message for [EADDRINUSE] and
    with the error of the server as it is otherwise; with live reload on
    the listener of [ws] runs first and the error is thrown out of the
    emit, so [start] is neither fulfilled nor rejected. Either way the
    running flag, the ports and the console are what they were, and the
    server object holds the server that does not listen. *)
Theorem start_when_listen_fails σ code :
  busy_ports σ !! port (this σ) = Some code →
  ∃ σ',
    start σ =
      ((if liveReload (this σ)
        then Uncaught (listen_error code (port (this σ)))
        else Thrown (if decide (code = "EADDRINUSE")
                     then Error ("Port " +:+ pretty (port (this σ)) +:+ " is already in use")
                     else listen_error code (port (this σ)))), σ') ∧
    err_code (listen_error code (port (this σ))) = Some code ∧
    running (this σ') = running (this σ) ∧
    server (this σ') = Some {| listening := false |} ∧
    busy_ports σ' = busy_ports σ ∧ console σ' = console σ.
Proof.
  intros Hbusy. rewrite (start_fails_run σ code Hbusy). eexists. by split_and!.
Qed.

(** X3. On a server object that was never started and a free port,
    [start] followed by [stop] both resolve and give back the server
    object and the port table as they were. *)
Theorem start_then_stop_restores σ root p lr :
  this σ = new_LiveServer root p lr →
  busy_ports σ !! p = None →
  ∃ σ1 σ2,
    start σ = (Returned (), σ1) ∧ stop σ1 = (Returned (), σ2) ∧
    this σ2 = this σ ∧ busy_ports σ2 = busy_ports σ ∧ fs σ2 = fs σ.
Proof.
  intros Hthis Hfree.
  destruct σ as [s tree busy socks out rs]. simpl in Hthis, Hfree. subst s.
  unfold start, stop, http_listen, http_close, console_print, gets, modify, throw, pass.
  unfold new_LiveServer, mbind, M_bind, mret, M_ret. simpl.
  destruct lr; simpl; rewrite Hfree; simpl; eexists _, _;
    (split; [reflexivity|]); (split; [reflexivity|]); simpl; split_and!; try done;
    by rewrite delete_insert_id.
Qed.

(** X4. [stop] on a server object that has no server (it was never
    started, or was stopped) resolves: it empties the connection set,
    drops the socket server, and leaves the running flag and the ports
    alone. *)
Theorem stop_without_server_resolves σ :
  server (this σ) = None →
  ∃ σ', stop σ = (Returned (), σ') ∧
    clients (this σ') = [] ∧ wss (this σ') = None ∧ server (this σ') = None ∧
    running (this σ') = running (this σ) ∧
    busy_ports σ' = busy_ports σ.
Proof.
  intros Hnone. unfold stop. rewrite bind_run. unfold gets at 1. cbv beta iota.
  rewrite bind_run.
  destruct (close_loop (clients (this σ)) σ) as (σ1 & -> & Hthis & Hbusy & _ & _).
  rewrite <-Hthis in Hnone. rewrite <-Hthis, <-Hbusy. clear Hthis Hbusy.
  destruct σ1 as [[srv w cs r root p lr] tree busy socks out rs].
  simpl in Hnone. subst srv.
  unfold gets, modify, pass. unfold mbind, M_bind, mret, M_ret. simpl.
  destruct w; simpl; eexists; (split; [reflexivity|]); by split_and!.
Qed.

(** X5. After a [start] that failed because [listen] failed, the server
    object holds a server that is not listening, and [stop] rejects with
    the not-running error of that server instead of resolving; the server
    object keeps the server. *)
Theorem stop_after_failed_start_rejects σ code :
  running (this σ) = false →
  busy_ports σ !! port (this σ) = Some code →
  (start σ).1 ≠ Returned () ∧
  ∃ e σ2,
    stop (start σ).2 = (Thrown e, σ2) ∧
    err_code e = Some "ERR_SERVER_NOT_RUNNING" ∧
    server (this σ2) = Some {| listening := false |} ∧
    running (this σ2) = false ∧
    busy_ports σ2 = busy_ports σ.
Proof.
  intros Hstopped Hbusy. rewrite (start_fails_run σ code Hbusy). simpl.
  split; [by destruct (liveReload (this σ))|].
  match goal with |- context [stop ?τ] =>
    destruct (stop_not_listening τ eq_refl) as (e & σ2 & -> & He & Hsrv & Hrun & Hports)
  end.
  exists e, σ2. simpl in Hrun, Hports. rewrite Hrun, Hports. by split_and!.
Qed.

(** X6. [start] called again on a server object that is running fails
    on its own port (rejected with live reload off, thrown out of the emit
    with live reload on), leaves the running flag set and replaces the
    listening server by one that is not listening; after that [stop]
    rejects, the flag stays set and the port stays taken. *)
Theorem second_start_leaves_an_unstoppable_server σ :
  running (this σ) = true →
  busy_ports σ !! port (this σ) = Some "EADDRINUSE" →
  ∃ σ1 σ2 e,
    start σ =
      ((if liveReload (this σ)
        then Uncaught (listen_error "EADDRINUSE" (port (this σ)))
        else Thrown (Error ("Port " +:+ pretty (port (this σ)) +:+ " is already in use"))),
       σ1) ∧
    isRunning σ1 = (Returned true, σ1) ∧
    server (this σ1) = Some {| listening := false |} ∧
    stop σ1 = (Thrown e, σ2) ∧
    err_code e = Some "ERR_SERVER_NOT_RUNNING" ∧
    isRunning σ2 = (Returned true, σ2) ∧
    busy_ports σ2 = busy_ports σ.
Proof.
  intros Hrunning Hbusy. rewrite (start_fails_run σ _ Hbusy).
  rewrite decide_True by done.
  match goal with |- context [(_, ?τ) = (_, _)] => set (σ1 := τ) end.
  destruct (stop_not_listening σ1 eq_refl) as (e & σ2 & Hstop & He & Hsrv & Hrun & Hports).
  assert (running (this σ1) = true) as Hrun1 by done.
  exists σ1, σ2, e. split; [reflexivity|].
  rewrite Hrun1 in Hrun. unfold isRunning, gets. rewrite Hrun1, Hrun.
  by split_and!.
Qed.

End MoreLifecycle.

(** ** The connection set and the reachable states *)

Section Reachable.
Context `{Esbuild}.

Lemma for_of_keeps_fs {A} (f : A → M unit) l σ :
  (∀ x τ, fs (f x τ).2 = fs τ) → fs (for_of l f σ).2 = fs σ.
Proof.
  intros Hf. revert σ. induction l as [|x l IH]; intros σ; [done|].
  simpl. rewrite bind_run. specialize (Hf x σ).
  destruct (f x σ) as [[[]|e|e] τ]; simpl in *; [|done..].
  by rewrite IH.
Qed.

Lemma start_keeps_consistent σ :
  consistent (this σ) →
  consistent (this (start σ).2) ∧
  rootDir (this (start σ).2) = rootDir (this σ) ∧
  port (this (start σ).2) = port (this σ) ∧
  liveReload (this (start σ).2) = liveReload (this σ) ∧
  fs (start σ).2 = fs σ.
Proof.
  destruct σ as [[srv w cs r root p lr] tree busy socks out rs].
  unfold consistent. simpl. intros (Hnd & Hrun & Hwss & Hcs).
  unfold start, http_listen, console_print, gets, modify, throw, pass.
  unfold mbind, M_bind, mret, M_ret. simpl.
  destruct lr; simpl; destruct (busy !! p) as [code|]; simpl;
    try case_decide; simpl; split_and!; eauto.
Qed.

Lemma stop_keeps_consistent σ :
  consistent (this σ) →
  consistent (this (stop σ).2) ∧
  rootDir (this (stop σ).2) = rootDir (this σ) ∧
  port (this (stop σ).2) = port (this σ) ∧
  liveReload (this (stop σ).2) = liveReload (this σ) ∧
  fs (stop σ).2 = fs σ.
Proof.
  intros Hσ.
  assert (∃ τ, (stop σ).2 = τ ∧ consistent (this τ) ∧
               rootDir (this τ) = rootDir (this σ) ∧ port (this τ) = port (this σ) ∧
               liveReload (this τ) = liveReload (this σ) ∧ fs τ = fs σ)
    as (τ & -> & Hτ); [|done].
  unfold stop. rewrite bind_run. unfold gets at 1. cbv beta iota. rewrite bind_run.
  pose proof (for_of_keeps_fs ws_close (clients (this σ)) σ (λ _ _, eq_refl)) as Hfs.
  destruct (close_loop (clients (this σ)) σ) as (σ1 & Hloop & Hthis & _ & _ & _).
  rewrite Hloop in Hfs |- *. simpl in Hfs.
  rewrite <-Hthis, <-Hfs. rewrite <-Hthis in Hσ. clear Hthis Hfs Hloop.
  destruct σ1 as [[srv w cs r root p lr] tree busy socks out rs].
  destruct Hσ as (Hnd & Hrun & Hwss & Hcs). simpl in *.
  unfold http_close, gets, modify, throw, pass. unfold mbind, M_bind, mret, M_ret.
  unfold consistent.
  destruct w as [[]|], srv as [[[]]|]; simpl; eexists; (split; [reflexivity|]);
    simpl; split_and!;
    first [done | apply NoDup_nil_2 | by intros [? [=]] | by intros [=] | eauto].
Qed.

Lemma notifyClients_keeps σ :
  NoDup (clients (this σ)) →
  this (notifyClients σ).2 = this σ ∧ fs (notifyClients σ).2 = fs σ.
Proof.
  intros Hnd.
  assert (∃ τ, (notifyClients σ).2 = τ ∧ this τ = this σ ∧ fs τ = fs σ)
    as (τ & -> & Hτ); [|done].
  unfold notifyClients. rewrite bind_run. unfold gets at 1. cbv beta iota.
  pose proof (for_of_keeps_fs (λ client,
    st ← gets (socket_state client);
    if decide (st = OPEN) then ws_send client "reload" else pass)
    (clients (this σ)) σ) as Hfs.
  destruct (notify_loop (clients (this σ)) σ Hnd) as (σ' & Hloop & Hthis & _).
  rewrite Hloop in Hfs |- *. exists σ'. split_and!; [done|done|].
  apply Hfs. intros x τ. rewrite bind_run. unfold gets at 1. cbv beta iota.
  case_decide as Hopen; [|done].
  unfold ws_send. rewrite bind_run. unfold gets at 1. cbv beta iota.
  by rewrite Hopen.
Qed.

(** X7. Whatever happens to a server object (calls of [start], [stop] and
    [notifyClients], requests, connections and closed sockets, in any
    order, whether the calls succeed or not), its root directory, port and
    live-reload flag and the served tree never change, no socket is listed
    twice in the connection set, a set running flag comes with a server,
    and a socket server or a listed connection only exists with live
    reload on. *)
Theorem reachable_server_objects_are_consistent ops σ :
  consistent (this σ) →
  consistent (this (after_all ops σ)) ∧
  rootDir (this (after_all ops σ)) = rootDir (this σ) ∧
  port (this (after_all ops σ)) = port (this σ) ∧
  liveReload (this (after_all ops σ)) = liveReload (this σ) ∧
  fs (after_all ops σ) = fs σ.
Proof.
  revert σ. induction ops as [|op ops IH]; intros σ Hσ; [done|].
  assert (consistent (this (after op σ)) ∧
          rootDir (this (after op σ)) = rootDir (this σ) ∧
          port (this (after op σ)) = port (this σ) ∧
          liveReload (this (after op σ)) = liveReload (this σ) ∧
          fs (after op σ) = fs σ) as (Hc & Hroot & Hport & Hlr & Hfs).
  { destruct op as [| | |p|ws|ws]; simpl.
    - by apply start_keeps_consistent.
    - by apply stop_keeps_consistent.
    - destruct Hσ as (Hnd & ?).
      destruct (notifyClients_keeps σ Hnd) as [-> ->]. by split_and!.
    - destruct (request_preserves p σ) as (Hthis & Hfs & _). by rewrite Hthis, Hfs.
    - destruct (wss (this σ)) as [w|] eqn:Hw; [|done].
      destruct Hσ as (Hnd & Hrun & Hwss & Hcs).
      assert (liveReload (this σ) = true) as Hlr by (apply Hwss; by rewrite Hw).
      destruct σ as [[srv w0 cs r root p lr] tree busy socks out rs].
      unfold consistent. simpl in *.
      case_bool_decide; simpl; split_and!; try done.
      apply NoDup_app. split_and!; [done| |apply NoDup_singleton].
      intros c Hc ->%list_elem_of_singleton. done.
    - destruct Hσ as (Hnd & Hrun & Hwss & Hcs).
      destruct σ as [[srv w0 cs r root p lr] tree busy socks out rs].
      unfold consistent, socket_closed, on_close, modify. simpl in *.
      split_and!; try done.
      + by apply NoDup_filter.
      + intros Hne. apply Hcs. intros ->. done. }
  change (after_all (op :: ops) σ) with (after_all ops (after op σ)).
  destruct (IH _ Hc) as (Hc' & Hroot' & Hport' & Hlr' & Hfs').
  split_and!; [done|congruence..].
Qed.

End Reachable.

(** ** More on requests *)

Section MoreRequests.
Context `{Esbuild}.










(** X10. A readable file that is answered by the static path, when it is
    not an HTML file or live reload is off, is sent as it is: status 200,
    the body is the bytes of the file, [Content-Length] is their number,
    caching is disabled, and the content type is looked up by the extension
    in lower case, [application/octet-stream] when the table has no
    entry. *)
Theorem static_file_is_sent_unchanged σ p data :
  request_pathname p ≠ WS_ENDPOINT →
  disk_entry (fs σ)
    (located (fs σ) (path.join (rootDir (this σ)) (request_pathname p)))
  = Some (File true data) →
  served_statically (fs σ)
    (located (fs σ) (path.join (rootDir (this σ)) (request_pathname p))) →
  Js.toLowerCase (path.extname
    (located (fs σ) (path.join (rootDir (this σ)) (request_pathname p)))) ≠ ".html"
  ∨ liveReload (this σ) = false →
  ∃ σ', serve p σ = (Returned (), σ') ∧
    statusCode (res σ') = Some 200 ∧
    body (res σ') = Some data ∧
    header "Content-Length" (res σ') = Some (HNum (String.length data)) ∧
    header "Cache-Control" (res σ') = Some (HStr "no-cache") ∧
    header "Content-Type" (res σ')
    = Some (HStr (default "application/octet-stream"
        (MIME_TYPES !! Js.toLowerCase (path.extname
           (located (fs σ) (path.join (rootDir (this σ)) (request_pathname p))))))).
Proof.
  intros Hp Hq Hstatic Hplain. rewrite serve_run by done.
  set (q := located _ _) in *.
  rewrite (respond_static _ _ (with_res (λ _, fresh_response) σ) _ Hq Hstatic).
  rewrite try_catch_run.
  destruct (serveStaticFile_found q (Js.toLowerCase (path.extname q))
              (with_res (λ _, fresh_response) σ) data Hq) as (σ' & -> & Hres).
  exists σ'. split; [done|]. rewrite Hres.
  change (liveReload (this (with_res (λ _, fresh_response) σ)))
    with (liveReload (this σ)).
  assert (bool_decide (Js.toLowerCase (path.extname q) = ".html") && liveReload (this σ)
          = false) as ->.
  { destruct Hplain as [Hext| ->]; [|apply andb_false_r].
    by rewrite bool_decide_eq_false_2. }
  generalize (default "application/octet-stream"
                (MIME_TYPES !! Js.toLowerCase (path.extname q))).
  intros mime. by split_and!.
Qed.

(** X11. A request that resolves to a readable HTML file (extension
    [.html] in any letter case), with live reload on, is answered 200
    as [text/html] with caching disabled and the length of the body sent,
    and the body is the text of the file (its bytes decoded as UTF-8: the
    bytes themselves when they are well formed) with the snippet put
    before the first closing body tag, or at the end when the text has
    none. *)
Theorem html_request_gets_the_snippet σ p bytes :
  request_pathname p ≠ WS_ENDPOINT →
  liveReload (this σ) = true →
  disk_entry (fs σ)
    (located (fs σ) (path.join (rootDir (this σ)) (request_pathname p)))
  = Some (File true bytes) →
  Js.toLowerCase (path.extname
    (located (fs σ) (path.join (rootDir (this σ)) (request_pathname p)))) = ".html" →
  ∃ σ' content,
    serve p σ = (Returned (), σ') ∧
    res σ' = response_static "text/html" content ∧
    (Utf8.well_formed bytes = true → Buffer.toString bytes = bytes) ∧
    if Js.includes "</body>" (Buffer.toString bytes) then
      ∃ pre post,
        Buffer.toString bytes = pre +:+ "</body>" +:+ post ∧
        Js.includes "</body>" pre = false ∧
        content = pre +:+ LIVE_RELOAD_SCRIPT +:+ "</body>" +:+ post
    else content = Buffer.toString bytes +:+ LIVE_RELOAD_SCRIPT.
Proof.
  intros Hp Hlive Hq Hext. rewrite serve_run by done.
  set (q := located _ _) in *.
  assert (served_statically (fs σ) q) as Hstatic.
  { unfold served_statically. rewrite Hext. split; [|done].
    apply (bool_decide_eq_false_1 _). done. }
  rewrite (respond_static _ _ (with_res (λ _, fresh_response) σ) _ Hq Hstatic).
  rewrite try_catch_run, Hext.
  destruct (serveStaticFile_found q ".html"
              (with_res (λ _, fresh_response) σ) bytes Hq) as (σ' & -> & Hres).
  change (liveReload (this (with_res (λ _, fresh_response) σ)))
    with (liveReload (this σ)) in Hres.
  rewrite Hlive in Hres.
  change (bool_decide (".html" = ".html") && true) with true in Hres.
  change (default "application/octet-stream" (MIME_TYPES !! ".html"))
    with "text/html" in Hres.
  cbv iota in Hres.
  pose proof (Utf8Facts.decode_well_formed bytes) as Hwf.
  change (Utf8.decode bytes) with (Buffer.toString bytes) in Hwf.
  revert Hres Hwf. generalize (Buffer.toString bytes). intros html Hres Hwf.
  destruct (Js.includes "</body>" html) eqn:Htag.
  - destruct (JsFacts.includes_split "</body>" html) as (pre & post & -> & Hpre);
      [done|done|].
    rewrite (JsFacts.replace_first_body_tag _ pre post Hpre) in Hres.
    rewrite JsFacts.sapp_assoc in Hres.
    exists σ', (pre +:+ LIVE_RELOAD_SCRIPT +:+ "</body>" +:+ post).
    split_and!; [done|done|done|]. by exists pre, post.
  - by exists σ', (html +:+ LIVE_RELOAD_SCRIPT).
Qed.

(** X12. An existing file whose extension is [.js] in another letter
    case (as [.JS]) is not sent as it is: the test for the extension
    ignores case, the replacement of the suffix does not, so the sibling
    that is tried is the file itself, and the file is answered through the
    transpiler, with the plain-script loader. *)
Theorem js_in_other_case_is_transpiled_as_script σ p n :
  request_pathname p ≠ WS_ENDPOINT →
  disk_entry (fs σ)
    (located (fs σ) (path.join (rootDir (this σ)) (request_pathname p))) = Some n →
  Js.toLowerCase (path.extname
    (located (fs σ) (path.join (rootDir (this σ)) (request_pathname p)))) = ".js" →
  Js.endsWith ".js"
    (located (fs σ) (path.join (rootDir (this σ)) (request_pathname p))) = false →
  serve p σ
  = serveTranspiledFile
      (located (fs σ) (path.join (rootDir (this σ)) (request_pathname p)))
      (with_res (λ _, fresh_response) σ) ∧
  loader (transform_options
    (located (fs σ) (path.join (rootDir (this σ)) (request_pathname p)))) = LoaderJs.
Proof.
  intros Hp Hq Hext Hcase. rewrite serve_run by done.
  set (q := located _ _) in *. split.
  - apply (respond_js _ _ (with_res (λ _, fresh_response) σ) n); [done|done|].
    unfold Js.replace_js_suffix. rewrite Hcase. unfold first_existing.
    rewrite filter_cons_True; [done|]. simpl. by rewrite Hq.
  - unfold transform_options. simpl. by rewrite Hext.
Qed.


(** X14. [needsTranspilation] of the transpiler module and the test of
    the server agree, and the loader for a path is another one than the
    plain-script loader exactly for the paths that need transpilation. *)
Theorem needsTranspilation_agrees_with_server_and_loader filePath :
  needsTranspilation filePath
  = bool_decide (Js.toLowerCase (path.extname filePath) ∈ TRANSPILE_EXTENSIONS) ∧
  (needsTranspilation filePath = true ↔ loader (transform_options filePath) ≠ LoaderJs).
Proof.
  split; [done|].
  unfold needsTranspilation, transform_options, loader_of. simpl.
  rewrite bool_decide_eq_true.
  repeat case_decide; split; try done.
  1-3: intros _;
    match goal with E : Js.toLowerCase _ = _ |- _ => rewrite E end;
    apply (bool_decide_unpack _); done.
  - intros Hin. repeat (apply elem_of_cons in Hin as [?|Hin]); try done.
    by apply elem_of_nil in Hin.
Qed.

End MoreRequests.

(** ** What a request leaves behind *)

Section Frame.
Context `{Esbuild}.

Lemma grows_ret {A} (a : A) : console_grows (mret a : M A).
Proof. by intros σ. Qed.

Lemma grows_pass : console_grows pass.
Proof. by intros σ. Qed.

Lemma grows_throw {A} e : console_grows (throw e : M A).
Proof. by intros σ. Qed.

Lemma grows_lift_result {A} (r : Result A) : console_grows (lift_result r).
Proof. intros σ. by destruct r. Qed.

Lemma grows_gets {A} (f : State → A) : console_grows (gets f).
Proof. by intros σ. Qed.

Lemma grows_console_print line : console_grows (console_print line).
Proof. intros σ. simpl. by apply prefix_app_r. Qed.

Lemma grows_res_writeHead status hs : console_grows (res_writeHead status hs).
Proof. by intros σ. Qed.

Lemma grows_res_end data : console_grows (res_end data).
Proof. by intros σ. Qed.

Lemma grows_bind {A B} (m : M A) (f : A → M B) :
  console_grows m → (∀ a, console_grows (f a)) → console_grows (m ≫= f).
Proof.
  intros Hm Hf σ. rewrite bind_run. specialize (Hm σ).
  destruct (m σ) as [[a|e|e] σ']; simpl in *; [|done..].
  etrans; [done|]. apply Hf.
Qed.

Lemma grows_try_catch {A} (m : M A) (h : JsError → M A) :
  console_grows m → (∀ e, console_grows (h e)) → console_grows (try_catch m h).
Proof.
  intros Hm Hh σ. rewrite try_catch_run. specialize (Hm σ).
  destruct (m σ) as [[a|e|e] σ']; simpl in *; [done| |done].
  etrans; [done|]. apply Hh.
Qed.

Ltac grows_step :=
  lazymatch goal with
  | |- console_grows (mret _) => apply grows_ret
  | |- console_grows pass => apply grows_pass
  | |- console_grows (throw _) => apply grows_throw
  | |- console_grows (lift_result _) => apply grows_lift_result
  | |- console_grows (console_print _) => apply grows_console_print
  | |- console_grows (res_writeHead _ _) => apply grows_res_writeHead
  | |- console_grows (res_end _) => apply grows_res_end
  | |- console_grows (gets _) => apply grows_gets
  | |- console_grows (mbind _ _) => apply grows_bind; [|intros ?]
  | |- console_grows (try_catch _ _) => apply grows_try_catch; [|intros ?]
  | |- console_grows (if ?b then _ else _) => destruct b
  | |- console_grows (match ?x with _ => _ end) => destruct x
  end.

Ltac grows := repeat grows_step.

Lemma grows_fs_access p : console_grows (fs_access p).
Proof. unfold fs_access. grows. Qed.

Lemma grows_fs_readFile p : console_grows (fs_readFile p).
Proof. unfold fs_readFile. grows. Qed.

Lemma grows_serveTranspiledFile p : console_grows (serveTranspiledFile p).
Proof.
  unfold serveTranspiledFile, transpileFile.
  grows_step; [|grows]. grows_step; [|grows].
  grows_step; [apply grows_fs_readFile|grows].
Qed.

Lemma grows_serveStaticFile p ext : console_grows (serveStaticFile p ext).
Proof. unfold serveStaticFile. grows_step; [apply grows_fs_readFile|grows]. Qed.

Lemma grows_resolveFile_loop base alts : console_grows (resolveFile_loop base alts).
Proof.
  induction alts as [|e alts IH]; simpl; [grows|].
  grows_step; [|done]. grows_step; [apply grows_fs_access|grows].
Qed.

Lemma grows_locate p : console_grows (locate p).
Proof.
  unfold locate, fs_stat. grows_step; [grows|].
  grows_step; [|grows]. unfold resolveFile. grows_step; [|grows].
  apply grows_resolveFile_loop.
Qed.

Lemma grows_respond pathname p : console_grows (respond pathname p).
Proof.
  unfold respond, send404. grows_step; [|grows].
  grows_step; [apply grows_fs_access|].
  grows_step; [apply grows_serveTranspiledFile|].
  grows_step; [|grows_step; [grows|apply grows_serveStaticFile]].
  grows_step; [|grows].
  grows_step.
  - grows_step; [apply grows_fs_access|].
    grows_step; [apply grows_serveTranspiledFile|grows].
  - grows_step; [|grows].
    grows_step; [apply grows_fs_access|].
    grows_step; [apply grows_serveTranspiledFile|grows].
Qed.

(** X15. Serving a request has no effect on the server: the server
    object, the tree, the ports and the sockets with what was sent to them
    are as before; only the response object is written, and lines may be
    added at the end of the console. *)
Theorem request_changes_only_response_and_console σ p :
  this (serve p σ).2 = this σ ∧
  fs (serve p σ).2 = fs σ ∧
  busy_ports (serve p σ).2 = busy_ports σ ∧
  sockets (serve p σ).2 = sockets σ ∧
  console σ `prefix_of` console (serve p σ).2.
Proof.
  destruct (local_handle_pathname (request_pathname p)) as [Hkeep _].
  destruct (Hkeep (with_res (λ _, fresh_response) σ)) as (Hthis & Hfs & Hports & Hsocks).
  split_and!; try done.
  assert (console_grows (handle_pathname (request_pathname p))) as Hgrows.
  { unfold handle_pathname. grows_step; [grows|].
    grows_step; [grows|]. grows_step; [apply grows_locate|apply grows_respond]. }
  apply (Hgrows (with_res (λ _, fresh_response) σ)).
Qed.

End Frame.

(** ** The commands of the extension *)

Section Shell.

Lemma for_of_keeps_this {A} (f : A → M unit) l σ :
  (∀ x τ, this (f x τ).2 = this τ) → this (for_of l f σ).2 = this σ.
Proof.
  intros Hf. revert σ. induction l as [|x l IH]; intros σ; [done|].
  simpl. rewrite bind_run. specialize (Hf x σ).
  destruct (f x σ) as [[[]|e|e] τ]; simpl in *; [|done..].
  by rewrite IH.
Qed.

Lemma notifyClients_keeps_this σ : this (notifyClients σ).2 = this σ.
Proof.
  unfold notifyClients. rewrite bind_run. unfold gets at 1. cbv beta iota.
  apply for_of_keeps_this. intros c τ.
  rewrite bind_run. unfold gets at 1. cbv beta iota.
  case_decide as Hopen; [|done].
  unfold ws_send. rewrite bind_run. unfold gets at 1. cbv beta iota.
  by rewrite Hopen.
Qed.

Lemma stop_listening σ :
  server (this σ) = Some {| listening := true |} →
  ∃ σ', stop σ = (Returned (), σ') ∧
    this σ' = new_LiveServer (rootDir (this σ)) (port (this σ)) (liveReload (this σ)) ∧
    busy_ports σ' = delete (port (this σ)) (busy_ports σ).
Proof.
  intros Hsrv. unfold stop. rewrite bind_run. unfold gets at 1. cbv beta iota.
  rewrite bind_run.
  destruct (close_loop (clients (this σ)) σ) as (σ1 & -> & Hthis & Hbusy & _ & _).
  rewrite <-Hthis in Hsrv. rewrite <-Hthis, <-Hbusy. clear Hthis Hbusy.
  destruct σ1 as [[srv w cs r root p lr] tree busy socks out rs].
  simpl in Hsrv. subst srv.
  unfold http_close, gets, modify, throw, pass. unfold mbind, M_bind, mret, M_ret. simpl.
  destruct w; simpl; eexists; (split; [reflexivity|]); by split_and!.
Qed.

Lemma start_new σ root p lr :
  this σ = new_LiveServer root p lr →
  match busy_ports σ !! p with
  | None =>
      ∃ σ', start σ = (Returned (), σ') ∧
        this σ' = mkLiveServer (Some {| listening := true |})
                    (if lr then Some AttachedWss else None) [] true root p lr ∧
        busy_ports σ' = <[p := "EADDRINUSE"]> (busy_ports σ)
  | Some code =>
      ∃ σ', start σ =
          ((if lr
            then Uncaught (listen_error code p)
            else Thrown (if decide (code = "EADDRINUSE")
                         then Error ("Port " +:+ pretty p +:+ " is already in use")
                         else listen_error code p)),
           σ') ∧
        running (this σ') = false ∧ busy_ports σ' = busy_ports σ
  end.
Proof.
  intros Hthis.
  destruct (busy_ports σ !! p) as [code|] eqn:Hp.
  - assert (busy_ports σ !! port (this σ) = Some code) as Hbusy by by rewrite Hthis.
    rewrite (start_fails_run σ code Hbusy), Hthis. simpl. eexists. by split_and!.
  - destruct σ as [s tree busy socks out rs]. simpl in Hthis, Hp. subst s.
    unfold start, http_listen, console_print, gets, modify, throw, pass.
    unfold new_LiveServer, mbind, M_bind, mret, M_ret. simpl.
    destruct lr; simpl; rewrite Hp; simpl; eexists; done.
Qed.

Lemma not_running_flag x :
  in_step x → server_is_running x = false → running (this (host x)) = false.
Proof.
  intros [Hrun _] Hidle. destruct (running (this (host x))) eqn:Hr; [|done].
  destruct (Hrun eq_refl) as [Hset _].
  unfold server_is_running, isRunning, gets in Hidle. simpl in Hidle.
  by rewrite Hset, Hr in Hidle.
Qed.

Lemma running_listens x :
  in_step x → server_is_running x = true →
  server (this (host x)) = Some {| listening := true |}.
Proof.
  intros [Hrun _] Hyes. unfold server_is_running, isRunning, gets in Hyes.
  simpl in Hyes. apply andb_true_iff in Hyes as [_ Hr]. by apply Hrun.
Qed.

Lemma stopServer_idle x :
  server_is_running x = false →
  stopServer x = notify (WarningMessage "TS Live Server is not running.") x.
Proof. intros Hidle. unfold stopServer. by rewrite Hidle. Qed.

Lemma stopServer_running x :
  in_step x → server_is_running x = true →
  ∃ σ', stop (host x) = (Returned (), σ') ∧
    this σ' = new_LiveServer (rootDir (this (host x))) (port (this (host x)))
                (liveReload (this (host x))) ∧
    busy_ports σ' = delete (port (this (host x))) (busy_ports (host x)) ∧
    stopServer x =
      notify (InformationMessage "TS Live Server stopped." [])
        (updateStatusBar false None (set_server_set false (with_host (λ _, σ') x))).
Proof.
  intros Hx Hyes.
  destruct (stop_listening (host x) (running_listens x Hx Hyes)) as (σ' & Hstop & Hthis & Hbusy).
  exists σ'. split_and!; try done.
  unfold stopServer. by rewrite Hyes, Hstop.
Qed.

Lemma stopServer_step x :
  in_step x →
  in_step (stopServer x) ∧ server_is_running (stopServer x) = false ∧
  watchers (stopServer x) = watchers x ∧
  workspaceFolders (stopServer x) = workspaceFolders x ∧
  settings (stopServer x) = settings x.
Proof.
  intros Hx. destruct (server_is_running x) eqn:Hrun.
  - destruct (stopServer_running x Hx Hrun) as (σ' & _ & Hthis & _ & ->).
    destruct x as [σ set item ns ws folders cfg].
    unfold in_step, indicates_running, server_is_running, isRunning, gets,
      updateStatusBar. simpl.
    destruct item as [item|]; simpl; rewrite Hthis; simpl; split_and!; try done;
      by intros [=].
  - rewrite (stopServer_idle x Hrun).
    destruct x as [σ set item ns ws folders cfg]. by split_and!.
Qed.

Lemma startServer_restart rootPath x :
  in_step x → server_is_running x = true →
  startServer rootPath x = startServer rootPath (stopServer x).
Proof.
  intros Hx Hyes. destruct (stopServer_step x Hx) as (_ & Hidle & _).
  unfold startServer. by rewrite Hyes, Hidle.
Qed.

Lemma startServer_idle_step rootPath x :
  in_step x → server_is_running x = false →
  in_step (startServer rootPath x) ∧
  watchers x `prefix_of` watchers (startServer rootPath x).
Proof.
  intros Hx Hidle.
  pose proof (not_running_flag x Hx Hidle) as Hflag.
  assert (indicates_running x = false) as Hlook.
  { destruct Hx as [_ Hx]. destruct (indicates_running x); [|done].
    rewrite Hx in Hidle; done. }
  unfold startServer. rewrite Hidle. cbv zeta.
  match goal with |- context [match ?c with Some _ => _ | None => notify _ _ end] =>
    destruct c as [rootDir|] end.
  2:{ destruct x; split; [done|]. simpl. done. }
  set (p := default 5500%N (setting_port (settings x))).
  set (lr := default true (setting_liveReload (settings x))).
  set (op := default true (setting_autoOpen (settings x))).
  pose proof (start_new
    (host (set_server_set true (with_host (with_this (λ _, new_LiveServer rootDir p lr)) x)))
    rootDir p lr eq_refl) as Hstart.
  clearbody p lr op.
  match type of Hstart with match ?b with _ => _ end =>
    destruct b as [code|] end; destruct Hstart as (σ' & -> & Hthis & _).
  - destruct x as [σ set item ns ws folders cfg].
    unfold in_step, indicates_running, server_is_running, isRunning, gets in *.
    destruct lr; simpl in *; rewrite Hthis, Hlook; by split_and!.
  - destruct x as [σ set item ns ws folders cfg].
    unfold in_step, indicates_running, server_is_running, isRunning, gets,
      updateStatusBar in *.
    destruct lr, op, item as [item|]; simpl in *; rewrite Hthis; simpl;
      (split; [by split_and!|]);
      first [done | by apply prefix_app_r].
Qed.

Lemma startServer_idle_free rootPath x root :
  server_is_running x = false →
  (rootPath = Some root ∧ root ≠ "") ∨
  ((rootPath = None ∨ rootPath = Some "") ∧ head (workspaceFolders x) = Some root) →
  busy_ports (host x) !! default 5500%N (setting_port (settings x)) = None →
  let p := default 5500%N (setting_port (settings x)) in
  let lr := default true (setting_liveReload (settings x)) in
  let x' := startServer rootPath x in
  server_set x' = true ∧
  this (host x') =
    mkLiveServer (Some {| listening := true |})
      (if lr then Some AttachedWss else None) [] true root p lr ∧
  busy_ports (host x') = <[p := "EADDRINUSE"]> (busy_ports (host x)) ∧
  notices x' =
    notices x ++
    InformationMessage ("TS Live Server running at http://localhost:" +:+ pretty p)
      ["Open in Browser"]
    :: (if default true (setting_autoOpen (settings x))
        then [OpenExternal ("http://localhost:" +:+ pretty p)] else []) ∧
  watchers x' = watchers x ++ (if lr then [root] else []) ∧
  statusBarItem x' = statusBarItem (updateStatusBar true (Some p) x) ∧
  workspaceFolders x' = workspaceFolders x ∧ settings x' = settings x.
Proof.
  intros Hidle Hroot Hfree p lr x'. subst x'.
  unfold startServer. rewrite Hidle. cbv zeta.
  match goal with |- context [match ?c with Some _ => _ | None => notify _ _ end] =>
    assert (c = Some root) as -> end.
  { destruct Hroot as [[-> Hne]|[[->| ->] Hhead]]; [|done..].
    by rewrite decide_False. }
  fold p lr.
  set (op := default true (setting_autoOpen (settings x))).
  pose proof (start_new
    (host (set_server_set true (with_host (with_this (λ _, new_LiveServer root p lr)) x)))
    root p lr eq_refl) as Hstart.
  change (busy_ports (host (set_server_set true
    (with_host (with_this (λ _, new_LiveServer root p lr)) x))))
    with (busy_ports (host x)) in Hstart.
  fold p in Hfree. rewrite Hfree in Hstart.
  destruct Hstart as (σ' & -> & Hthis & Hbusy).
  clearbody p lr op.
  destruct x as [σ set item ns ws folders cfg].
  unfold updateStatusBar.
  destruct lr, op, item as [item|]; simpl in *; rewrite Hthis, Hbusy;
    split_and!; try done; by rewrite <-?List.app_assoc, ?app_nil_r.
Qed.

Lemma stopServer_running_fields x :
  in_step x → server_is_running x = true →
  let y := stopServer x in
  server_set y = false ∧
  this (host y) = new_LiveServer (rootDir (this (host x))) (port (this (host x)))
                    (liveReload (this (host x))) ∧
  busy_ports (host y) = delete (port (this (host x))) (busy_ports (host x)) ∧
  notices y = notices x ++ [InformationMessage "TS Live Server stopped." []] ∧
  statusBarItem y = statusBarItem (updateStatusBar false None x) ∧
  watchers y = watchers x ∧ workspaceFolders y = workspaceFolders x ∧
  settings y = settings x.
Proof.
  intros Hx Hyes y. subst y.
  destruct (stopServer_running x Hx Hyes) as (σ' & _ & Hthis & Hbusy & ->).
  destruct x as [σ set item ns ws folders cfg]. unfold updateStatusBar.
  destruct item as [item|]; simpl in *; by split_and!.
Qed.

(** X16. The start command of an extension whose server is not running,
    with a workspace folder open and the configured port (5500 when the
    setting is absent) free and not zero: the server runs on that port
    and root with the configured live-reload flag (on when absent), the
    status bar item shows the port with the warning background, one
    information message with the button is shown, the browser is opened
    exactly when [autoOpen] is on or absent, and one file watcher on the
    root is added exactly when live reload is on. *)
Theorem start_command_on_free_port x root item :
  server_is_running x = false →
  head (workspaceFolders x) = Some root →
  statusBarItem x = Some item →
  default 5500%N (setting_port (settings x)) ≠ 0%N →
  busy_ports (host x) !! default 5500%N (setting_port (settings x)) = None →
  let p := default 5500%N (setting_port (settings x)) in
  let lr := default true (setting_liveReload (settings x)) in
  let x' := startServer None x in
  server_is_running x' = true ∧
  rootDir (this (host x')) = root ∧ port (this (host x')) = p ∧
  liveReload (this (host x')) = lr ∧
  busy_ports (host x') !! p = Some "EADDRINUSE" ∧
  statusBarItem x' =
    Some (mkStatusBarItem (item_command item)
            ("$(broadcast) Port: " +:+ pretty p)
            ("TS Live Server running on port " +:+ pretty p +:+ nl +:+ "Click to stop")
            (Some "statusBarItem.warningBackground") true) ∧
  notices x' =
    notices x ++
    InformationMessage ("TS Live Server running at http://localhost:" +:+ pretty p)
      ["Open in Browser"]
    :: (if default true (setting_autoOpen (settings x))
        then [OpenExternal ("http://localhost:" +:+ pretty p)] else []) ∧
  watchers x' = watchers x ++ (if lr then [root] else []).
Proof.
  intros Hidle Hroot Hitem Hport Hfree p lr x'.
  destruct (startServer_idle_free None x root Hidle) as
    (Hset & Hthis & Hbusy & Hns & Hws & Hbar & _); [by right; split; [left|]|done|].
  fold p lr x' in Hset, Hthis, Hbusy, Hns, Hws, Hbar.
  unfold server_is_running, isRunning, gets. simpl.
  rewrite Hset, Hthis, Hbusy, Hns, Hws, Hbar. simpl.
  split_and!; try done; [by rewrite lookup_insert_eq|].
  unfold updateStatusBar. rewrite Hitem. simpl.
  fold p in Hport. apply N.eqb_neq in Hport. by rewrite Hport.
Qed.

(** X17. The start command when the configured port is taken. With the
    live-reload setting off, the one thing shown is the error message with
    the text of the rejection. With the setting on or absent, the promise
    of [start] stays pending and the command shows nothing at all. Either
    way the status bar item, the watchers and the ports are as before, and
    the variable holds a server object that is not running; the stop
    command then only warns, and the toggle command starts again. *)
Theorem start_command_on_taken_port x root :
  server_is_running x = false →
  head (workspaceFolders x) = Some root →
  busy_ports (host x) !! default 5500%N (setting_port (settings x)) = Some "EADDRINUSE" →
  let p := default 5500%N (setting_port (settings x)) in
  let lr := default true (setting_liveReload (settings x)) in
  let x' := startServer None x in
  notices x' =
    notices x ++
    (if lr then []
     else [ErrorMessage ("Failed to start server: Error: Port " +:+ pretty p
                         +:+ " is already in use")]) ∧
  statusBarItem x' = statusBarItem x ∧ watchers x' = watchers x ∧
  server_set x' = true ∧ server_is_running x' = false ∧
  busy_ports (host x') = busy_ports (host x) ∧
  stopServer x' = notify (WarningMessage "TS Live Server is not running.") x' ∧
  toggleFromStatusBar x' = startServer None x'.
Proof.
  intros Hidle Hroot Hbusy p lr x'.
  assert (server_is_running x' = false ∧
    notices x' = notices x ++
      (if lr then []
       else [ErrorMessage ("Failed to start server: Error: Port " +:+ pretty p
                           +:+ " is already in use")]) ∧
    statusBarItem x' = statusBarItem x ∧ watchers x' = watchers x ∧
    server_set x' = true ∧ busy_ports (host x') = busy_ports (host x))
    as (Hidle' & ? & ? & ? & ? & ?).
  { subst x'. unfold startServer. rewrite Hidle, Hroot. cbv zeta. fold p lr.
    pose proof (start_new
      (host (set_server_set true (with_host (with_this (λ _, new_LiveServer root p lr)) x)))
      root p lr eq_refl) as Hstart.
    change (busy_ports (host (set_server_set true
      (with_host (with_this (λ _, new_LiveServer root p lr)) x))))
      with (busy_ports (host x)) in Hstart.
    fold p in Hbusy. rewrite Hbusy in Hstart.
    destruct Hstart as (σ' & -> & Hthis & Hports).
    rewrite decide_True by done. clearbody p lr.
    destruct x as [σ set item ns ws folders cfg].
    unfold server_is_running, isRunning, gets.
    destruct lr; simpl in *; rewrite Hthis; split_and!; try done.
    by rewrite app_nil_r. }
  split_and!; try done.
  - by apply stopServer_idle.
  - unfold toggleFromStatusBar. by rewrite Hidle'.
Qed.

(** X18. The start command followed by the stop command, from an
    extension whose server is not running, with a workspace folder and
    the configured port free: the variable is null again, the port is
    free again, the status bar item has its stopped look, the messages
    are the running one (and the opened browser) followed by the stopped
    one; the watcher that the start added stays, and its callback does
    nothing while the variable is null. *)
Theorem start_then_stop_commands x root :
  server_is_running x = false →
  head (workspaceFolders x) = Some root →
  busy_ports (host x) !! default 5500%N (setting_port (settings x)) = None →
  let p := default 5500%N (setting_port (settings x)) in
  let lr := default true (setting_liveReload (settings x)) in
  let x'' := stopServer (startServer None x) in
  server_set x'' = false ∧
  this (host x'') = new_LiveServer root p lr ∧
  busy_ports (host x'') = busy_ports (host x) ∧
  statusBarItem x'' = statusBarItem (updateStatusBar false None x) ∧
  notices x'' =
    notices x ++
    InformationMessage ("TS Live Server running at http://localhost:" +:+ pretty p)
      ["Open in Browser"]
    :: (if default true (setting_autoOpen (settings x))
        then [OpenExternal ("http://localhost:" +:+ pretty p)] else []) ++
    [InformationMessage "TS Live Server stopped." []] ∧
  watchers x'' = watchers x ++ (if lr then [root] else []) ∧
  watcher_fired x'' = x''.
Proof.
  intros Hidle Hroot Hfree p lr x''.
  destruct (startServer_idle_free None x root Hidle) as
    (Hset & Hthis & Hbusy & Hns & Hws & Hbar & _); [by right; split; [left|]|done|].
  fold p lr in Hset, Hthis, Hbusy, Hns, Hws, Hbar. fold p in Hfree.
  subst x''. destruct (startServer None x) as [σ1 set1 item1 ns1 ws1 folders1 cfg1].
  simpl in Hset, Hthis, Hbusy, Hns, Hws, Hbar. subst set1 ns1 ws1 item1.
  destruct (stop_listening σ1) as (σ2 & Hstop & Hthis2 & Hbusy2);
    [by rewrite Hthis|].
  rewrite Hthis in Hthis2. simpl in Hthis2.
  rewrite Hthis, Hbusy in Hbusy2. simpl in Hbusy2.
  rewrite delete_insert_id in Hbusy2 by done.
  unfold stopServer, server_is_running, isRunning, gets. simpl.
  rewrite Hthis. simpl. rewrite Hstop. clearbody p lr.
  destruct x as [σ set item ns ws folders cfg]. unfold updateStatusBar, watcher_fired.
  destruct item as [item|]; simpl in *; split_and!; try done;
    try (by rewrite <-List.app_assoc);
    by (destruct (negb (p =? 0)%N)).
Qed.

(** X19. The start command while the server runs stops that server
    first, so that its port is free for the new one: when the configured
    port is the port of the running server, or is free, the new server
    runs on the given folder, the messages are the stopped one followed by
    the running one, and the watchers created before are all kept beside
    the new one. *)
Theorem start_command_while_running x folder :
  in_step x → server_is_running x = true → folder ≠ "" →
  delete (port (this (host x))) (busy_ports (host x))
    !! default 5500%N (setting_port (settings x)) = None →
  let p := default 5500%N (setting_port (settings x)) in
  let lr := default true (setting_liveReload (settings x)) in
  let x' := startServer (Some folder) x in
  server_is_running x' = true ∧
  this (host x') =
    mkLiveServer (Some {| listening := true |})
      (if lr then Some AttachedWss else None) [] true folder p lr ∧
  busy_ports (host x') =
    <[p := "EADDRINUSE"]> (delete (port (this (host x))) (busy_ports (host x))) ∧
  notices x' =
    notices x ++
    InformationMessage "TS Live Server stopped." []
    :: InformationMessage ("TS Live Server running at http://localhost:" +:+ pretty p)
         ["Open in Browser"]
    :: (if default true (setting_autoOpen (settings x))
        then [OpenExternal ("http://localhost:" +:+ pretty p)] else []) ∧
  watchers x' = watchers x ++ (if lr then [folder] else []).
Proof.
  intros Hx Hyes Hfolder Hfree p lr x'. subst x'.
  rewrite (startServer_restart _ x Hx Hyes).
  destruct (stopServer_step x Hx) as (_ & Hidle & _).
  destruct (stopServer_running_fields x Hx Hyes)
    as (_ & _ & Hbusy & Hns & _ & Hws & _ & Hcfg).
  destruct (startServer_idle_free (Some folder) (stopServer x) folder Hidle) as
    (Hset & Hthis & Hbusy' & Hns' & Hws' & _); [by left|by rewrite Hbusy, Hcfg|].
  rewrite Hcfg in Hthis, Hbusy', Hns', Hws'.
  fold p lr in Hset, Hthis, Hbusy', Hns', Hws'.
  unfold server_is_running, isRunning, gets. simpl.
  rewrite Hset, Hthis, Hbusy', Hns', Hws', Hbusy, Hns, Hws. simpl.
  split_and!; try done. by rewrite <-List.app_assoc.
Qed.

Lemma run_command_step c x :
  in_step x →
  in_step (run_command c x) ∧ watchers x `prefix_of` watchers (run_command c x).
Proof.
  intros Hx.
  assert (∀ rootPath, in_step (startServer rootPath x) ∧
            watchers x `prefix_of` watchers (startServer rootPath x)) as Hstart.
  { intros rootPath. destruct (server_is_running x) eqn:Hrun.
    - rewrite (startServer_restart _ x Hx Hrun).
      destruct (stopServer_step x Hx) as (Hy & Hidle & Hws & _).
      rewrite <-Hws. by apply startServer_idle_step.
    - by apply startServer_idle_step. }
  assert (in_step (stopServer x) ∧ watchers x `prefix_of` watchers (stopServer x))
    as Hstop.
  { destruct (stopServer_step x Hx) as (Hy & _ & -> & _). done. }
  destruct c as [| | |fsPath|]; simpl; try done.
  - unfold toggleFromStatusBar. by destruct (server_is_running x).
  - unfold watcher_fired. destruct (server_set x) eqn:Hset; [|done].
    destruct x as [σ set item ns ws folders cfg]. destruct Hx as [Hrun Hlook].
    unfold in_step, indicates_running, server_is_running, isRunning, gets in *.
    simpl in *. rewrite notifyClients_keeps_this. done.
Qed.

(** X20. Whatever start, stop, start-from-folder and toggle commands and
    watcher callbacks follow each other, and whether the starts succeed
    or not: the status bar item has its running look only while the
    server of the variable runs, a running server object has a listening
    server, and no watcher is ever removed. *)
Theorem status_bar_and_watchers_across_commands cs x :
  in_step x →
  in_step (run_commands cs x) ∧ watchers x `prefix_of` watchers (run_commands cs x).
Proof.
  unfold run_commands. revert x. induction cs as [|c cs IH]; intros x Hx; [done|].
  simpl. destruct (run_command_step c x Hx) as [Hy Hws].
  destruct (IH _ Hy) as [Hz Hws']. split; [done|]. by etrans.
Qed.

End Shell.

(** ** The further properties on the samples *)

(** The ways in which [start] ends on the samples: fulfilled on a free
    port; with live reload off, rejected with the port-in-use message;
    with live reload on, the error of [listen] thrown out of the emit,
    whatever its errno. *)
Example start_on_the_samples :
  (start demo_state).1 = Returned () ∧
  (start demo_port_taken_plain).1
  = Thrown (Error ("Port " +:+ pretty 5500%N +:+ " is already in use")) ∧
  (start demo_port_taken).1 = Uncaught (listen_error "EADDRINUSE" 5500) ∧
  (start demo_port_denied).1 = Uncaught (listen_error "EACCES" 80).
Proof. split_and!; by vm_compute. Qed.

(** With live reload off the index page is sent as it is on disk. *)
Example index_without_live_reload :
  res (@serve demo_esbuild "/" demo_state_plain).2
  = response_static "text/html" "<html><body>hi</body></html>".
Proof. by vm_compute. Qed.

(** A request whose path does not decode: the handler throws, and the
    response object is left as it was created. *)
Example request_that_does_not_decode :
  @request demo_esbuild "/%" demo_state
  = (Thrown URI.URIError, with_res (λ _, fresh_response) demo_state) ∧
  @request demo_esbuild "/%ff" demo_state
  = (Thrown URI.URIError, with_res (λ _, fresh_response) demo_state).
Proof. split; by vm_compute. Qed.

(** X1 on the sample server. *)
Lemma start_on_free_port_runs_witness :
  ∃ σ', start demo_state = (Returned (), σ') ∧
    isRunning σ' = (Returned true, σ') ∧
    server (this σ') = Some {| listening := true |} ∧
    wss (this σ') = (if liveReload (this demo_state) then Some AttachedWss
                     else wss (this demo_state)) ∧
    clients (this σ') = clients (this demo_state) ∧
    busy_ports σ' = <[port (this demo_state) := "EADDRINUSE"]> (busy_ports demo_state) ∧
    console σ' = console demo_state ++
      ["TS Live Server running at http://localhost:" +:+ pretty (port (this demo_state));
       "Serving files from: " +:+ rootDir (this demo_state)] ∧
    fs σ' = fs demo_state ∧ sockets σ' = sockets demo_state.
Proof.
  apply (start_on_free_port_runs demo_state). by vm_compute.
Defined.

(** X2 on the sample server without live reload, while port 5500 is
    taken. *)
Lemma start_when_listen_fails_witness :
  ∃ σ',
    start demo_port_taken_plain =
      ((if liveReload (this demo_port_taken_plain)
        then Uncaught (listen_error "EADDRINUSE" (port (this demo_port_taken_plain)))
        else Thrown (if decide ("EADDRINUSE" = "EADDRINUSE")
                     then Error ("Port " +:+ pretty (port (this demo_port_taken_plain))
                                 +:+ " is already in use")
                     else listen_error "EADDRINUSE" (port (this demo_port_taken_plain)))),
       σ') ∧
    err_code (listen_error "EADDRINUSE" (port (this demo_port_taken_plain)))
    = Some "EADDRINUSE" ∧
    running (this σ') = running (this demo_port_taken_plain) ∧
    server (this σ') = Some {| listening := false |} ∧
    busy_ports σ' = busy_ports demo_port_taken_plain ∧
    console σ' = console demo_port_taken_plain.
Proof.
  apply (start_when_listen_fails demo_port_taken_plain "EADDRINUSE"). by vm_compute.
Defined.

(** X3 on the sample server. *)
Lemma start_then_stop_restores_witness :
  ∃ σ1 σ2,
    start demo_state = (Returned (), σ1) ∧ stop σ1 = (Returned (), σ2) ∧
    this σ2 = this demo_state ∧ busy_ports σ2 = busy_ports demo_state ∧
    fs σ2 = fs demo_state.
Proof.
  apply (start_then_stop_restores demo_state "/srv/www" 5500%N true).
  - reflexivity.
  - by vm_compute.
Defined.

(** X4 on the sample server, which was never started. *)
Lemma stop_without_server_resolves_witness :
  ∃ σ', stop demo_state = (Returned (), σ') ∧
    clients (this σ') = [] ∧ wss (this σ') = None ∧ server (this σ') = None ∧
    running (this σ') = running (this demo_state) ∧
    busy_ports σ' = busy_ports demo_state.
Proof.
  apply (stop_without_server_resolves demo_state). reflexivity.
Defined.

(** X5 on the sample server while port 5500 is taken. *)
Lemma stop_after_failed_start_rejects_witness :
  (start demo_port_taken).1 ≠ Returned () ∧
  ∃ e σ2,
    stop (start demo_port_taken).2 = (Thrown e, σ2) ∧
    err_code e = Some "ERR_SERVER_NOT_RUNNING" ∧
    server (this σ2) = Some {| listening := false |} ∧
    running (this σ2) = false ∧
    busy_ports σ2 = busy_ports demo_port_taken.
Proof.
  apply (stop_after_failed_start_rejects demo_port_taken "EADDRINUSE").
  - reflexivity.
  - by vm_compute.
Defined.

(** X6 on the running sample server. *)
Lemma second_start_leaves_an_unstoppable_server_witness :
  ∃ σ1 σ2 e,
    start demo_running =
      ((if liveReload (this demo_running)
        then Uncaught (listen_error "EADDRINUSE" (port (this demo_running)))
        else Thrown (Error ("Port " +:+ pretty (port (this demo_running))
                            +:+ " is already in use"))),
       σ1) ∧
    isRunning σ1 = (Returned true, σ1) ∧
    server (this σ1) = Some {| listening := false |} ∧
    stop σ1 = (Thrown e, σ2) ∧
    err_code e = Some "ERR_SERVER_NOT_RUNNING" ∧
    isRunning σ2 = (Returned true, σ2) ∧
    busy_ports σ2 = busy_ports demo_running.
Proof.
  apply (second_start_leaves_an_unstoppable_server demo_running).
  - reflexivity.
  - by vm_compute.
Defined.

(** X7 on the sample server and a run with a second [start] and a
    second [stop]. *)
Lemma reachable_server_objects_are_consistent_witness :
  consistent (this (@after_all demo_esbuild demo_operations demo_state)) ∧
  rootDir (this (@after_all demo_esbuild demo_operations demo_state))
  = rootDir (this demo_state) ∧
  port (this (@after_all demo_esbuild demo_operations demo_state))
  = port (this demo_state) ∧
  liveReload (this (@after_all demo_esbuild demo_operations demo_state))
  = liveReload (this demo_state) ∧
  fs (@after_all demo_esbuild demo_operations demo_state) = fs demo_state.
Proof.
  apply (@reachable_server_objects_are_consistent demo_esbuild demo_operations demo_state).
  apply (bool_decide_unpack _). by vm_compute.
Defined.

(** X10 on the sample tree: [/app.js] has no [.ts] or [.tsx] beside it. *)
Lemma static_file_is_sent_unchanged_witness :
  ∃ σ', @serve demo_esbuild "/app.js" demo_state = (Returned (), σ') ∧
    statusCode (res σ') = Some 200 ∧
    body (res σ') = Some "old();" ∧
    header "Content-Length" (res σ') = Some (HNum (String.length "old();")) ∧
    header "Cache-Control" (res σ') = Some (HStr "no-cache") ∧
    header "Content-Type" (res σ')
    = Some (HStr (default "application/octet-stream"
        (MIME_TYPES !! Js.toLowerCase (path.extname
           (located (fs demo_state)
              (path.join (rootDir (this demo_state)) (request_pathname "/app.js"))))))).
Proof.
  apply (@static_file_is_sent_unchanged demo_esbuild demo_state "/app.js" "old();").
  - by vm_compute.
  - by vm_compute.
  - apply (bool_decide_unpack _). by vm_compute.
  - left. by vm_compute.
Defined.

(** X11 on the sample tree: the index of the root. *)
Lemma html_request_gets_the_snippet_witness :
  ∃ σ' content,
    @serve demo_esbuild "/" demo_state = (Returned (), σ') ∧
    res σ' = response_static "text/html" content ∧
    (Utf8.well_formed "<html><body>hi</body></html>" = true →
     Buffer.toString "<html><body>hi</body></html>" = "<html><body>hi</body></html>") ∧
    if Js.includes "</body>" (Buffer.toString "<html><body>hi</body></html>") then
      ∃ pre post,
        Buffer.toString "<html><body>hi</body></html>" = pre +:+ "</body>" +:+ post ∧
        Js.includes "</body>" pre = false ∧
        content = pre +:+ LIVE_RELOAD_SCRIPT +:+ "</body>" +:+ post
    else content = Buffer.toString "<html><body>hi</body></html>" +:+ LIVE_RELOAD_SCRIPT.
Proof.
  apply (@html_request_gets_the_snippet demo_esbuild demo_state "/"
           "<html><body>hi</body></html>").
  - by vm_compute.
  - reflexivity.
  - by vm_compute.
  - by vm_compute.
Defined.

(** X12 on the sample tree with [LIB.JS]. *)
Lemma js_in_other_case_is_transpiled_as_script_witness :
  @serve demo_esbuild "/LIB.JS" demo_state_upper
  = @serveTranspiledFile demo_esbuild
      (located (fs demo_state_upper)
         (path.join (rootDir (this demo_state_upper)) (request_pathname "/LIB.JS")))
      (with_res (λ _, fresh_response) demo_state_upper) ∧
  loader (transform_options
    (located (fs demo_state_upper)
       (path.join (rootDir (this demo_state_upper)) (request_pathname "/LIB.JS"))))
  = LoaderJs.
Proof.
  apply (@js_in_other_case_is_transpiled_as_script demo_esbuild demo_state_upper
           "/LIB.JS" (File true "var lib = 1;")).
  - by vm_compute.
  - by vm_compute.
  - by vm_compute.
  - by vm_compute.
Defined.


(** X16 on the sample extension after its activation. *)
Lemma start_command_on_free_port_witness :
  server_is_running (startServer None demo_extension) = true ∧
  rootDir (this (host (startServer None demo_extension))) = "/srv/www" ∧
  port (this (host (startServer None demo_extension)))
  = default 5500%N (setting_port (settings demo_extension)) ∧
  liveReload (this (host (startServer None demo_extension)))
  = default true (setting_liveReload (settings demo_extension)) ∧
  busy_ports (host (startServer None demo_extension))
    !! default 5500%N (setting_port (settings demo_extension)) = Some "EADDRINUSE" ∧
  statusBarItem (startServer None demo_extension) =
    Some (mkStatusBarItem
            (item_command
               (mkStatusBarItem "ts-live-server.toggleFromStatusBar"
                  "$(broadcast) Start Server" "Click to start TS Live Server" None true))
            ("$(broadcast) Port: "
             +:+ pretty (default 5500%N (setting_port (settings demo_extension))))
            ("TS Live Server running on port "
             +:+ pretty (default 5500%N (setting_port (settings demo_extension)))
             +:+ nl +:+ "Click to stop")
            (Some "statusBarItem.warningBackground") true) ∧
  notices (startServer None demo_extension) =
    notices demo_extension ++
    InformationMessage
      ("TS Live Server running at http://localhost:"
       +:+ pretty (default 5500%N (setting_port (settings demo_extension))))
      ["Open in Browser"]
    :: (if default true (setting_autoOpen (settings demo_extension))
        then [OpenExternal
                ("http://localhost:"
                 +:+ pretty (default 5500%N (setting_port (settings demo_extension))))]
        else []) ∧
  watchers (startServer None demo_extension) =
    watchers demo_extension ++
    (if default true (setting_liveReload (settings demo_extension))
     then ["/srv/www"] else []).
Proof.
  apply (start_command_on_free_port demo_extension "/srv/www"
           (mkStatusBarItem "ts-live-server.toggleFromStatusBar"
              "$(broadcast) Start Server" "Click to start TS Live Server" None true)).
  - reflexivity.
  - reflexivity.
  - reflexivity.
  - by vm_compute.
  - by vm_compute.
Defined.

(** X17 on the sample extension while port 5500 is taken: live reload
    is on, as no setting says otherwise, and nothing is shown. *)
Lemma start_command_on_taken_port_witness :
  notices (startServer None demo_extension_port_taken) =
    notices demo_extension_port_taken ++
    (if default true (setting_liveReload (settings demo_extension_port_taken)) then []
     else [ErrorMessage
             ("Failed to start server: Error: Port "
              +:+ pretty (default 5500%N
                            (setting_port (settings demo_extension_port_taken)))
              +:+ " is already in use")]) ∧
  statusBarItem (startServer None demo_extension_port_taken)
  = statusBarItem demo_extension_port_taken ∧
  watchers (startServer None demo_extension_port_taken)
  = watchers demo_extension_port_taken ∧
  server_set (startServer None demo_extension_port_taken) = true ∧
  server_is_running (startServer None demo_extension_port_taken) = false ∧
  busy_ports (host (startServer None demo_extension_port_taken))
  = busy_ports (host demo_extension_port_taken) ∧
  stopServer (startServer None demo_extension_port_taken)
  = notify (WarningMessage "TS Live Server is not running.")
      (startServer None demo_extension_port_taken) ∧
  toggleFromStatusBar (startServer None demo_extension_port_taken)
  = startServer None (startServer None demo_extension_port_taken).
Proof.
  apply (start_command_on_taken_port demo_extension_port_taken "/srv/www").
  - reflexivity.
  - reflexivity.
  - by vm_compute.
Defined.

(** X18 on the sample extension. *)
Lemma start_then_stop_commands_witness :
  server_set (stopServer (startServer None demo_extension)) = false ∧
  this (host (stopServer (startServer None demo_extension)))
  = new_LiveServer "/srv/www"
      (default 5500%N (setting_port (settings demo_extension)))
      (default true (setting_liveReload (settings demo_extension))) ∧
  busy_ports (host (stopServer (startServer None demo_extension)))
  = busy_ports (host demo_extension) ∧
  statusBarItem (stopServer (startServer None demo_extension))
  = statusBarItem (updateStatusBar false None demo_extension) ∧
  notices (stopServer (startServer None demo_extension)) =
    notices demo_extension ++
    InformationMessage
      ("TS Live Server running at http://localhost:"
       +:+ pretty (default 5500%N (setting_port (settings demo_extension))))
      ["Open in Browser"]
    :: (if default true (setting_autoOpen (settings demo_extension))
        then [OpenExternal
                ("http://localhost:"
                 +:+ pretty (default 5500%N (setting_port (settings demo_extension))))]
        else []) ++
    [InformationMessage "TS Live Server stopped." []] ∧
  watchers (stopServer (startServer None demo_extension)) =
    watchers demo_extension ++
    (if default true (setting_liveReload (settings demo_extension))
     then ["/srv/www"] else []) ∧
  watcher_fired (stopServer (startServer None demo_extension))
  = stopServer (startServer None demo_extension).
Proof.
  apply (start_then_stop_commands demo_extension "/srv/www").
  - reflexivity.
  - reflexivity.
  - by vm_compute.
Defined.

(** X19 on the sample extension once its server runs: the start command
    of the folder menu on [/srv/www/docs]. *)
Lemma start_command_while_running_witness :
  server_is_running
    (startServer (Some "/srv/www/docs") (startServer None demo_extension)) = true ∧
  this (host (startServer (Some "/srv/www/docs") (startServer None demo_extension))) =
    mkLiveServer (Some {| listening := true |})
      (if default true (setting_liveReload (settings (startServer None demo_extension)))
       then Some AttachedWss else None) [] true "/srv/www/docs"
      (default 5500%N (setting_port (settings (startServer None demo_extension))))
      (default true (setting_liveReload (settings (startServer None demo_extension)))) ∧
  busy_ports
    (host (startServer (Some "/srv/www/docs") (startServer None demo_extension))) =
    <[default 5500%N (setting_port (settings (startServer None demo_extension)))
      := "EADDRINUSE"]>
      (delete (port (this (host (startServer None demo_extension))))
         (busy_ports (host (startServer None demo_extension)))) ∧
  notices (startServer (Some "/srv/www/docs") (startServer None demo_extension)) =
    notices (startServer None demo_extension) ++
    InformationMessage "TS Live Server stopped." []
    :: InformationMessage
         ("TS Live Server running at http://localhost:"
          +:+ pretty (default 5500%N
                        (setting_port (settings (startServer None demo_extension)))))
         ["Open in Browser"]
    :: (if default true (setting_autoOpen (settings (startServer None demo_extension)))
        then [OpenExternal
                ("http://localhost:"
                 +:+ pretty (default 5500%N
                               (setting_port (settings (startServer None demo_extension)))))]
        else []) ∧
  watchers (startServer (Some "/srv/www/docs") (startServer None demo_extension)) =
    watchers (startServer None demo_extension) ++
    (if default true (setting_liveReload (settings (startServer None demo_extension)))
     then ["/srv/www/docs"] else []).
Proof.
  apply (start_command_while_running (startServer None demo_extension) "/srv/www/docs").
  - apply (bool_decide_unpack _). by vm_compute.
  - by vm_compute.
  - apply (bool_decide_unpack _). by vm_compute.
  - by vm_compute.
Defined.

(** X20 on the sample extension and a session of six commands. *)
Lemma status_bar_and_watchers_across_commands_witness :
  in_step (run_commands demo_commands demo_extension) ∧
  watchers demo_extension
    `prefix_of` watchers (run_commands demo_commands demo_extension).
Proof.
  apply (status_bar_and_watchers_across_commands demo_commands demo_extension).
  apply (bool_decide_unpack _). by vm_compute.
Defined.


